(** * Resume-Analyzer backend: job lifecycle, ingestion and match scoring

    A shallow embedding of the job-posting services of the backend
    ([app/services/job_matcher.py], [app/services/job_lifecycle.py],
    [app/scrapers/base_scraper.py], [app/services/scraping_orchestrator.py],
    [app/routers/apply.py], [app/routers/jobs.py]) together with the
    properties stated about them.

    Conventions.
    - Python [float] is IEEE-754 binary64, taken from the Standard Library's
      [SpecFloat] (precision 53, [emax] 1024, round to nearest even).
    - Python [int] is [Z]; [datetime] is a number of microseconds.
    - A MongoDB document is a record whose optional keys are [option] fields;
      a collection is the list of its documents in natural order.
    - Code that may raise returns an [outcome]; code that talks to the store
      runs in the monad [Store.M], which threads the database and the faults
      the store is going to suffer. *)

From Stdlib Require Import ZArith NArith List String Ascii Bool Lia.
From Stdlib Require Import SpecFloat.
Import ListNotations.
Open Scope Z_scope.

(* ================================================================== *)
(** * Python values and built-ins used by the services *)
(* ================================================================== *)

Module Py.

(** Exceptions that the modelled code can raise or catch. *)
Inductive exn : Type :=
| OverflowError
| ZeroDivisionError
| TypeError
| KeyError (key : string)
| StoreError
| ScrapeError
| EnrichError
| HTTPException (status_code : Z) (detail : string).

Inductive outcome (A : Type) : Type :=
| Return (a : A)
| Raise (e : exn).
Arguments Return {A} a.
Arguments Raise {A} e.

Definition bind {A B} (m : outcome A) (k : A -> outcome B) : outcome B :=
  match m with
  | Return a => k a
  | Raise e => Raise e
  end.

Definition returned {A} (m : outcome A) : bool :=
  match m with Return _ => true | Raise _ => false end.

(** ** binary64 *)

Definition float := spec_float.
Definition prec : Z := 53.
Definition emax : Z := 1024.

(** [float(z)] for an integer that is known to fit (all literals do). *)
Definition flt (z : Z) : float := binary_normalize prec emax z 0 false.

Definition fadd : float -> float -> float := SFadd prec emax.
Definition fsub : float -> float -> float := SFsub prec emax.
Definition fmul : float -> float -> float := SFmul prec emax.
Definition fdiv : float -> float -> float := SFdiv prec emax.
Definition fle : float -> float -> bool := SFleb.
Definition flt_lt : float -> float -> bool := SFltb.
Definition feq : float -> float -> bool := SFeqb.

Definition is_inf (f : float) : bool :=
  match f with S754_infinity _ => true | _ => false end.

(** [float(z)] in general: the nearest double, [OverflowError] beyond the
    range. *)
Definition float_of_int (z : Z) : outcome float :=
  let f := flt z in
  if is_inf f then Raise OverflowError else Return f.

(** [a / b] on two ints: the exact quotient rounded once to the nearest
    double ([long_true_divide]). *)
Definition int_truediv (a b : Z) : outcome float :=
  match b with
  | Z0 => Raise ZeroDivisionError
  | _ =>
    match a with
    | Z0 => Return (S754_zero (b <? 0))
    | _ =>
      let q := fdiv (S754_finite (a <? 0) (Z.to_pos (Z.abs a)) 0)
                    (S754_finite (b <? 0) (Z.to_pos (Z.abs b)) 0) in
      if is_inf q then Raise OverflowError else Return q
    end
  end.

(** Half-to-even rounding of the rational [n / d], [d > 0]. *)
Definition round_half_even_div (n d : Z) : Z :=
  let q := n / d in
  let r := n mod d in
  match 2 * r ?= d with
  | Lt => q
  | Gt => q + 1
  | Eq => if Z.even q then q else q + 1
  end.

(** The integer nearest (ties to even) to [10 * m * 2^e]. *)
Definition tenths (m : positive) (e : Z) : Z :=
  match e with
  | Zneg p => round_half_even_div (10 * Zpos m) (2 ^ Zpos p)
  | _ => 10 * Zpos m * 2 ^ e
  end.

(** [round(x, 1)]: the decimal with one fractional digit nearest to the
    exact value of [x] (ties to even), read back as the nearest double. *)
Definition round1 (x : float) : float :=
  match x with
  | S754_finite s m e =>
    let k := tenths m e in
    if k =? 0 then S754_zero s
    else fdiv (S754_finite s (Z.to_pos k) 0) (S754_finite false 10 0)
  | _ => x
  end.

(** ** Dynamically typed numbers: [None], [int] or [float] *)

Inductive value : Type :=
| PyNone
| PyInt (z : Z)
| PyFloat (f : float).

Definition of_opt_int (o : option Z) : value :=
  match o with Some z => PyInt z | None => PyNone end.

Definition truthy (v : value) : bool :=
  match v with
  | PyNone => false
  | PyInt z => negb (z =? 0)
  | PyFloat f => negb (feq f (S754_zero false))
  end.

Definition py_or (a b : value) : value := if truthy a then a else b.

Definition to_float (v : value) : outcome float :=
  match v with
  | PyNone => Raise TypeError
  | PyInt z => float_of_int z
  | PyFloat f => Return f
  end.

Definition py_sub (a b : value) : outcome value :=
  match a, b with
  | PyNone, _ | _, PyNone => Raise TypeError
  | PyInt x, PyInt y => Return (PyInt (x - y))
  | _, _ =>
    bind (to_float a) (fun x =>
    bind (to_float b) (fun y => Return (PyFloat (fsub x y))))
  end.

Definition py_abs (a : value) : outcome value :=
  match a with
  | PyNone => Raise TypeError
  | PyInt x => Return (PyInt (Z.abs x))
  | PyFloat f => Return (PyFloat (SFabs f))
  end.

Definition is_zero (f : float) : bool :=
  match f with S754_zero _ => true | _ => false end.

Definition py_truediv (a b : value) : outcome float :=
  match a, b with
  | PyNone, _ | _, PyNone => Raise TypeError
  | PyInt x, PyInt y => int_truediv x y
  | _, _ =>
    bind (to_float a) (fun x =>
    bind (to_float b) (fun y =>
    if is_zero y then Raise ZeroDivisionError else Return (fdiv x y)))
  end.

Definition py_eq_int (a : value) (z : Z) : bool :=
  match a with
  | PyNone => false
  | PyInt x => x =? z
  | PyFloat f => feq f (flt z)
  end.

(** ** Strings *)

(** [str.lower()] on ASCII text: the capitals [A]..[Z] go to [a]..[z] and
    every other character stays.  Strings are sequences of bytes here, and
    the bytes of a non-ASCII character are left alone. *)
Definition lower_char (c : ascii) : ascii :=
  let n := N_of_ascii c in
  if ((65 <=? n) && (n <=? 90))%N then ascii_of_N (n + 32) else c.

Fixpoint lower (s : string) : string :=
  match s with
  | EmptyString => EmptyString
  | String c r => String (lower_char c) (lower r)
  end.

(** [needle in hay] on strings. *)
Fixpoint contains (needle hay : string) : bool :=
  prefix needle hay
  || match hay with
     | EmptyString => false
     | String _ r => contains needle r
     end.

(** [x in l] on a list of strings. *)
Definition mem (x : string) (l : list string) : bool :=
  existsb (String.eqb x) l.

Definition is_empty {A} (l : list A) : bool :=
  match l with [] => true | _ => false end.

Definition str_truthy (o : option string) : bool :=
  match o with
  | None => false
  | Some s => negb (String.eqb s "")
  end.

Definition len {A} (l : list A) : Z := Z.of_nat (List.length l).

Arguments flt : simpl never.
Arguments fadd : simpl never.
Arguments fsub : simpl never.
Arguments fmul : simpl never.
Arguments fdiv : simpl never.
Arguments int_truediv : simpl never.
Arguments round1 : simpl never.

End Py.

Declare Scope outcome_scope.
Delimit Scope outcome_scope with outcome.
Notation "x <- m ;; k" := (Py.bind m (fun x => k))
  (at level 100, m at next level, right associativity) : outcome_scope.

(* ================================================================== *)
(** * The document store *)
(* ================================================================== *)

Module Store.
Import Py.

(** An [ObjectId] is a 96-bit number, written as 24 hexadecimal digits. *)
Definition oid := N.

Definition hex_digit (c : ascii) : option N :=
  let n := N_of_ascii c in
  if ((48 <=? n) && (n <=? 57))%N then Some (n - 48)%N
  else if ((97 <=? n) && (n <=? 102))%N then Some (n - 87)%N
  else if ((65 <=? n) && (n <=? 70))%N then Some (n - 55)%N
  else None.

Fixpoint hex_value (acc : N) (s : string) : option N :=
  match s with
  | EmptyString => Some acc
  | String c r =>
    match hex_digit c with
    | Some d => hex_value (16 * acc + d)%N r
    | None => None
    end
  end.

(** [ObjectId(s)], defined when [ObjectId.is_valid(s)], for ids written as
    24 hexadecimal digits.  The 24-character strings with blanks between
    pairs of digits, which [bytes.fromhex] reads as shorter ids, are taken
    as invalid here. *)
Definition ObjectId (s : string) : option oid :=
  if Nat.eqb (String.length s) 24 then hex_value 0%N s else None.

Definition ObjectId_is_valid (s : string) : bool :=
  match ObjectId s with Some _ => true | None => false end.

(** ** Documents *)

(** The descriptive keys of a job document, as the matcher reads them.  A
    key is absent ([None]) or holds a value of its type; a key that holds
    null is not told apart from an absent one. *)
Record posting := {
  title : option string;
  skills_required : option (list string);
  experience_level : option string;
  location : option string;
  remote_type : option string;
  salary_min : option Z;
  salary_max : option Z;
  job_type : option string;
  category : option string
}.

(** An element of a job's [applied_by] array. *)
Record applied_entry := {
  ae_user_id : string;
  ae_applied_at : Z;
  ae_status : string;
  ae_application_id : oid;
  ae_external : bool
}.

(** A document of [db.jobs]. *)
Record job := {
  _id : option oid;
  job_url : option string;
  created_at : option Z;
  applied_by : option (list applied_entry);
  saved_by : option (list string);
  apply_count : option Z;
  save_count : option Z;
  expires_at : option Z;
  last_checked : option Z;
  content : posting
}.

Definition set_id (v : option oid) (j : job) : job :=
  {| _id := v; job_url := job_url j; created_at := created_at j;
     applied_by := applied_by j; saved_by := saved_by j;
     apply_count := apply_count j; save_count := save_count j;
     expires_at := expires_at j; last_checked := last_checked j;
     content := content j |}.

Definition set_applied_by (v : option (list applied_entry)) (j : job) : job :=
  {| _id := _id j; job_url := job_url j; created_at := created_at j;
     applied_by := v; saved_by := saved_by j;
     apply_count := apply_count j; save_count := save_count j;
     expires_at := expires_at j; last_checked := last_checked j;
     content := content j |}.

Definition set_saved_by (v : option (list string)) (j : job) : job :=
  {| _id := _id j; job_url := job_url j; created_at := created_at j;
     applied_by := applied_by j; saved_by := v;
     apply_count := apply_count j; save_count := save_count j;
     expires_at := expires_at j; last_checked := last_checked j;
     content := content j |}.

Definition set_apply_count (v : option Z) (j : job) : job :=
  {| _id := _id j; job_url := job_url j; created_at := created_at j;
     applied_by := applied_by j; saved_by := saved_by j;
     apply_count := v; save_count := save_count j;
     expires_at := expires_at j; last_checked := last_checked j;
     content := content j |}.

Definition set_save_count (v : option Z) (j : job) : job :=
  {| _id := _id j; job_url := job_url j; created_at := created_at j;
     applied_by := applied_by j; saved_by := saved_by j;
     apply_count := apply_count j; save_count := v;
     expires_at := expires_at j; last_checked := last_checked j;
     content := content j |}.

Definition set_expires_at (v : option Z) (j : job) : job :=
  {| _id := _id j; job_url := job_url j; created_at := created_at j;
     applied_by := applied_by j; saved_by := saved_by j;
     apply_count := apply_count j; save_count := save_count j;
     expires_at := v; last_checked := last_checked j;
     content := content j |}.

Definition set_last_checked (v : option Z) (j : job) : job :=
  {| _id := _id j; job_url := job_url j; created_at := created_at j;
     applied_by := applied_by j; saved_by := saved_by j;
     apply_count := apply_count j; save_count := save_count j;
     expires_at := expires_at j; last_checked := v;
     content := content j |}.

(** A document of [db.resumes]. *)
Record resume := {
  resume_oid : oid;
  resume_user_id : string;
  filename : option string;
  skills : option (list string);
  experience : option (list string)
}.

(** The [preferences] sub-document of [db.user_preferences]. *)
Record preferences := {
  preferred_locations : option (list string);
  remote_preference : option string;
  pref_salary_min : option Z;
  pref_salary_max : option Z;
  pref_experience_level : option string;
  job_types : option (list string);
  job_categories : option (list string)
}.

Record prefs_doc := {
  prefs_user_id : string;
  prefs_preferences : option preferences
}.

(** A document of [db.applications]. *)
Record application := {
  app_oid : oid;
  app_user_id : string;
  app_job_id : string;
  app_resume_id : option oid;
  app_external_application : bool;
  app_match_score : value;
  app_status : string;
  app_created_at : Z;
  app_job_details : posting
}.

(** A document of [db.job_lifecycle_logs]. *)
Record lifecycle_event := {
  ev_job_id : string;
  ev_event_type : string;
  ev_user_id : option string;
  ev_timestamp : Z
}.

(** The result record of one adapter run. *)
Record scrape_result := {
  platform : string;
  scraped : Z;
  stored : Z;
  duplicates : Z;
  errors : Z;
  error_message : option exn
}.

(** A document of [db.system_logs]. *)
Inductive system_log : Type :=
| CleanupLog (timestamp : Z) (deleted_count : Z) (status : string)
             (error : option exn)
| ScrapingLog (timestamp : Z) (total_scraped total_stored total_duplicates
               total_errors : Z) (platforms : list scrape_result)
              (status : string).

(** ** The database and its faults *)

(** [faults] is the fate of the coming store operations, in order: [true]
    means that the operation raises and leaves the data untouched.  Once
    the list is used up every operation succeeds. *)
Record db := {
  jobs : list job;
  applications : list application;
  resumes : list resume;
  user_preferences : list prefs_doc;
  system_logs : list system_log;
  job_lifecycle_logs : list lifecycle_event;
  next_oid : oid;
  faults : list bool
}.

Definition set_jobs (v : list job) (d : db) : db :=
  {| jobs := v; applications := applications d; resumes := resumes d;
     user_preferences := user_preferences d; system_logs := system_logs d;
     job_lifecycle_logs := job_lifecycle_logs d; next_oid := next_oid d;
     faults := faults d |}.

Definition set_applications (v : list application) (d : db) : db :=
  {| jobs := jobs d; applications := v; resumes := resumes d;
     user_preferences := user_preferences d; system_logs := system_logs d;
     job_lifecycle_logs := job_lifecycle_logs d; next_oid := next_oid d;
     faults := faults d |}.

Definition set_system_logs (v : list system_log) (d : db) : db :=
  {| jobs := jobs d; applications := applications d; resumes := resumes d;
     user_preferences := user_preferences d; system_logs := v;
     job_lifecycle_logs := job_lifecycle_logs d; next_oid := next_oid d;
     faults := faults d |}.

Definition set_job_lifecycle_logs (v : list lifecycle_event) (d : db) : db :=
  {| jobs := jobs d; applications := applications d; resumes := resumes d;
     user_preferences := user_preferences d; system_logs := system_logs d;
     job_lifecycle_logs := v; next_oid := next_oid d;
     faults := faults d |}.

Definition set_next_oid (v : oid) (d : db) : db :=
  {| jobs := jobs d; applications := applications d; resumes := resumes d;
     user_preferences := user_preferences d; system_logs := system_logs d;
     job_lifecycle_logs := job_lifecycle_logs d; next_oid := v;
     faults := faults d |}.

Definition set_faults (v : list bool) (d : db) : db :=
  {| jobs := jobs d; applications := applications d; resumes := resumes d;
     user_preferences := user_preferences d; system_logs := system_logs d;
     job_lifecycle_logs := job_lifecycle_logs d; next_oid := next_oid d;
     faults := v |}.

(** ** The monad of store code *)

Definition M (A : Type) : Type := db -> outcome A * db.

Definition ret {A} (a : A) : M A := fun d => (Return a, d).

Definition raise {A} (e : exn) : M A := fun d => (Raise e, d).

Definition mbind {A B} (m : M A) (k : A -> M B) : M B :=
  fun d =>
    match m d with
    | (Return a, d') => k a d'
    | (Raise e, d') => (Raise e, d')
    end.

(** [try: m except Exception as e: h e].  What [m] wrote before it raised
    stays written. *)
Definition try_except {A} (m : M A) (h : exn -> M A) : M A :=
  fun d =>
    match m d with
    | (Return a, d') => (Return a, d')
    | (Raise e, d') => h e d'
    end.

Definition lift {A} (o : outcome A) : M A := fun d => (o, d).

(** One awaited call on the store: it fails when the next fault says so. *)
Definition store_op {A} (f : db -> A * db) : M A :=
  fun d =>
    match faults d with
    | true :: fs => (Raise StoreError, set_faults fs d)
    | false :: fs => let (a, d') := f (set_faults fs d) in (Return a, d')
    | [] => let (a, d') := f d in (Return a, d')
    end.

End Store.

Declare Scope store_scope.
Delimit Scope store_scope with store.
Notation "x <- m ;; k" := (Store.mbind m (fun x => k))
  (at level 100, m at next level, right associativity) : store_scope.
Notation "m ;;; k" := (Store.mbind m (fun _ => k))
  (at level 100, right associativity) : store_scope.

(* ================================================================== *)
(** * app/services/job_matcher.py *)
(* ================================================================== *)

Module Matcher.
Import Py Store.
Local Open Scope string_scope.
Local Open Scope Z_scope.
Local Infix "==" := String.eqb (at level 70).

(** [d.get(key, default)]. *)
Definition get {A} (o : option A) (default : A) : A :=
  match o with Some a => a | None => default end.

Inductive criterion : Type :=
| Skills | Experience | Location | Salary | JobType | Culture.

(** [JobMatcher.WEIGHTS]. *)
Definition WEIGHTS (c : criterion) : Z :=
  match c with
  | Skills => 40
  | Experience => 25
  | Location => 15
  | Salary => 10
  | JobType => 5
  | Culture => 5
  end.

(** [sum(1 for skill in job_skills_lower if skill in resume_skills_lower)]. *)
Definition matched_count (job_skills_lower resume_skills_lower : list string)
  : Z :=
  len (filter (fun skill => mem skill resume_skills_lower) job_skills_lower).

Definition _calculate_skills_match (job_skills resume_skills : list string)
  : outcome float :=
  if is_empty job_skills then Return (flt 100)
  else if is_empty resume_skills then Return (flt 0)
  else
    let job_skills_lower := map lower job_skills in
    let resume_skills_lower := map lower resume_skills in
    (q <- int_truediv (matched_count job_skills_lower resume_skills_lower)
                      (len job_skills) ;;
     Return (fmul q (flt 100)))%outcome.

(** The dictionary [experience_levels]. *)
Definition experience_levels (k : string) : option Z :=
  if k == "Entry" then Some 1
  else if k == "Mid" then Some 2
  else if k == "Senior" then Some 3
  else if k == "Lead" then Some 4
  else None.

Definition is_some {A} (o : option A) : bool :=
  match o with Some _ => true | None => false end.

(** The candidate's level, as [_calculate_experience_match] settles it. *)
Definition user_level_of (resume_experience : list string)
  (pref_experience : option string) : Z :=
  let user_level := 2 in
  if str_truthy pref_experience
     && is_some (experience_levels (get pref_experience ""))
  then get (experience_levels (get pref_experience "")) user_level
  else if negb (is_empty resume_experience) then
    let total_years := len resume_experience in
    if 7 <=? total_years then 4
    else if 5 <=? total_years then 3
    else if 2 <=? total_years then 2
    else 1
  else user_level.

Definition _calculate_experience_match (job_experience : option string)
  (resume_experience : list string) (pref_experience : option string)
  : float :=
  if negb (str_truthy job_experience) then flt 100
  else
    let job_level := get (experience_levels (get job_experience "")) 2 in
    let user_level := user_level_of resume_experience pref_experience in
    let level_diff := Z.abs (job_level - user_level) in
    if level_diff =? 0 then flt 100
    else if level_diff =? 1 then flt 75
    else if level_diff =? 2 then flt 50
    else flt 25.

Definition _calculate_location_match (job_location job_remote : string)
  (pref_locations : list string) (pref_remote : string) : float :=
  if job_remote == "Remote" then
    if mem pref_remote ["Remote"; "Any"] then flt 100
    else if pref_remote == "Hybrid" then flt 75
    else flt 50
  else if job_remote == "Hybrid" then
    if mem pref_remote ["Hybrid"; "Any"] then flt 100
    else if pref_remote == "Remote" then flt 75
    else flt 85
  else if pref_remote == "Remote" then flt 25
  else if is_empty pref_locations then flt 75
  else
    let job_location_lower := lower job_location in
    if existsb (fun pref_loc =>
                  contains (lower pref_loc) job_location_lower
                  || contains job_location_lower (lower pref_loc))
               pref_locations
    then flt 100
    else flt 50.

Definition _calculate_salary_match
  (job_salary_min job_salary_max pref_salary_min pref_salary_max : option Z)
  : outcome float :=
  let jmin := of_opt_int job_salary_min in
  let jmax := of_opt_int job_salary_max in
  let pmin := of_opt_int pref_salary_min in
  let pmax := of_opt_int pref_salary_max in
  if negb (truthy jmin) && negb (truthy jmax) then Return (flt 75)
  else if negb (truthy pmin) && negb (truthy pmax) then Return (flt 75)
  else
    (job_salary <-
       (if truthy jmin && truthy jmax then
          m <- int_truediv (get job_salary_min 0 + get job_salary_max 0) 2 ;;
          Return (PyFloat m)
        else if truthy jmin then Return jmin
        else Return jmax) ;;
     pref_salary <-
       (if truthy pmin && truthy pmax then
          m <- int_truediv (get pref_salary_min 0 + get pref_salary_max 0) 2 ;;
          Return (PyFloat m)
        else if truthy pmin then Return pmin
        else Return (py_or pmax job_salary)) ;;
     if py_eq_int pref_salary 0 then Return (flt 75)
     else
       d <- py_sub job_salary pref_salary ;;
       a <- py_abs d ;;
       q <- py_truediv a pref_salary ;;
       let diff_percentage := fmul q (flt 100) in
       if fle diff_percentage (flt 10) then Return (flt 100)
       else if fle diff_percentage (flt 20) then Return (flt 85)
       else if fle diff_percentage (flt 30) then Return (flt 70)
       else if fle diff_percentage (flt 50) then Return (flt 50)
       else Return (flt 25))%outcome.

Definition _calculate_job_type_match (job_type : string)
  (pref_job_types : list string) : float :=
  if is_empty pref_job_types then flt 100
  else if mem job_type pref_job_types then flt 100
  else if (job_type == "Full-time") && mem "Part-time" pref_job_types
  then flt 50
  else if (job_type == "Part-time") && mem "Full-time" pref_job_types
  then flt 50
  else flt 25.

Definition _calculate_culture_match (job_category : string)
  (pref_categories : list string) : float :=
  if is_empty pref_categories then flt 75
  else if mem job_category pref_categories then flt 100
  else flt 50.

Definition _get_missing_skills (job_skills resume_skills : list string)
  : list string :=
  let job_skills_lower := map lower job_skills in
  let resume_skills_lower := map lower resume_skills in
  map snd
    (filter (fun p => negb (mem (fst p) resume_skills_lower))
            (combine job_skills_lower job_skills)).

Definition _generate_recommendations
  (skills_score experience_score location_score salary_score job_type_score
   culture_score : float) (missing_skills : list string) : list string :=
  (if flt_lt skills_score (flt 60) then
     if negb (is_empty missing_skills) then
       ["Consider learning: "
          ++ String.concat ", " (firstn 3 missing_skills)
          ++ " to improve your match"]
     else ["Highlight relevant skills in your resume"]
   else [])
  ++ (if flt_lt experience_score (flt 60)
      then ["This role may require different experience level than yours"]
      else [])
  ++ (if flt_lt location_score (flt 60)
      then ["Consider if you're willing to relocate or adjust remote preferences"]
      else [])
  ++ (if flt_lt salary_score (flt 60)
      then ["Salary expectations may not align with this role"]
      else [])
  ++ (if fle (flt 80) skills_score && fle (flt 70) experience_score
      then ["Strong match! Consider applying soon"]
      else []).

(** The dictionary that the matcher returns. *)
Record match_result := {
  overall_score : float;
  criterion_scores : list (criterion * float);
  missing_skills : list string;
  matched_skills : list string;
  recommendations : list string
}.

(** [score * WEIGHTS[c] / 100]. *)
Definition weighted (score : float) (c : criterion) : float :=
  fdiv (fmul score (flt (WEIGHTS c))) (flt 100).

(** The weighted sum, before it is rounded. *)
Definition weighted_sum (skills_score experience_score location_score
  salary_score job_type_score culture_score : float) : float :=
  fadd (fadd (fadd (fadd (fadd (weighted skills_score Skills)
                               (weighted experience_score Experience))
                         (weighted location_score Location))
                   (weighted salary_score Salary))
             (weighted job_type_score JobType))
       (weighted culture_score Culture).

Definition empty_preferences : preferences :=
  {| preferred_locations := None; remote_preference := None;
     pref_salary_min := None; pref_salary_max := None;
     pref_experience_level := None; job_types := None;
     job_categories := None |}.

Definition calculate_match_score (job : posting) (user_resume : resume)
  (user_preferences : option preferences) : outcome match_result :=
  let job_skills := get (skills_required job) [] in
  let job_experience := experience_level job in
  let job_location := get (location job) "" in
  let job_remote := get (remote_type job) "" in
  let job_salary_min := salary_min job in
  let job_salary_max := salary_max job in
  let job_type := get (job_type job) "Full-time" in
  let job_category := get (category job) "" in
  let resume_skills := get (skills user_resume) [] in
  let resume_experience := get (experience user_resume) [] in
  let preferences := get user_preferences empty_preferences in
  let pref_locations := get (preferred_locations preferences) [] in
  let pref_remote := get (remote_preference preferences) "Any" in
  let pref_salary_min := pref_salary_min preferences in
  let pref_salary_max := pref_salary_max preferences in
  let pref_experience := pref_experience_level preferences in
  let pref_job_types := get (job_types preferences) ["Full-time"] in
  let pref_categories := get (job_categories preferences) [] in
  (skills_score <- _calculate_skills_match job_skills resume_skills ;;
   let experience_score :=
     _calculate_experience_match job_experience resume_experience
                                 pref_experience in
   let location_score :=
     _calculate_location_match job_location job_remote pref_locations
                               pref_remote in
   salary_score <- _calculate_salary_match job_salary_min job_salary_max
                                           pref_salary_min pref_salary_max ;;
   let job_type_score := _calculate_job_type_match job_type pref_job_types in
   let culture_score := _calculate_culture_match job_category pref_categories in
   let overall := weighted_sum skills_score experience_score location_score
                               salary_score job_type_score culture_score in
   let missing := _get_missing_skills job_skills resume_skills in
   Return
     {| overall_score := round1 overall;
        criterion_scores :=
          [(Skills, round1 skills_score);
           (Experience, round1 experience_score);
           (Location, round1 location_score);
           (Salary, round1 salary_score);
           (JobType, round1 job_type_score);
           (Culture, round1 culture_score)];
        missing_skills := missing;
        matched_skills :=
          filter (fun skill => mem (lower skill) (map lower resume_skills))
                 job_skills;
        recommendations :=
          _generate_recommendations skills_score experience_score
            location_score salary_score job_type_score culture_score
            missing |})%outcome.

(** [db.resumes.find_one({"user_id": user_id})]. *)
Definition resumes_find_one (user_id : string) : M (option resume) :=
  store_op (fun d =>
    (find (fun r => resume_user_id r == user_id) (resumes d), d)).

(** [db.user_preferences.find_one({"user_id": user_id})]. *)
Definition user_preferences_find_one (user_id : string)
  : M (option prefs_doc) :=
  store_op (fun d =>
    (find (fun p => prefs_user_id p == user_id) (user_preferences d), d)).

Definition calculate_job_match (job : posting) (user_id : string)
  : M match_result :=
  (resume <- resumes_find_one user_id ;;
   match resume with
   | None =>
     ret {| overall_score := flt 0;
            criterion_scores := [];
            missing_skills := get (skills_required job) [];
            matched_skills := [];
            recommendations :=
              ["Please upload a resume to see match scores"] |}
   | Some resume =>
     prefs_doc <- user_preferences_find_one user_id ;;
     let preferences :=
       match prefs_doc with
       | Some p => prefs_preferences p
       | None => None
       end in
     lift (calculate_match_score job resume preferences)
   end)%store.

End Matcher.

(* ================================================================== *)
(** * app/services/job_lifecycle.py *)
(* ================================================================== *)

Module Lifecycle.
Import Py Store.
Local Open Scope string_scope.
Local Open Scope Z_scope.
Local Open Scope store_scope.

(** [timedelta(days=n)], in microseconds. *)
Definition timedelta_days (n : Z) : Z := n * 86400000000.

(** [{"$size": {"$ifNull": ["$field", []]}}]. *)
Definition size_if_null {A} (field : option (list A)) : Z :=
  match field with Some l => len l | None => 0 end.

(** The filter of [cleanup_expired_jobs]. *)
Definition cleanup_filter (cutoff_date : Z) (j : job) : bool :=
  match created_at j with
  | Some t => t <? cutoff_date
  | None => false
  end
  && ((size_if_null (applied_by j) =? 0) && (size_if_null (saved_by j) =? 0)).

(** [db.jobs.delete_many(filter)], returning [deleted_count]. *)
Definition jobs_delete_many (filter_ : job -> bool) : M Z :=
  store_op (fun d =>
    let kept := filter (fun j => negb (filter_ j)) (jobs d) in
    (len (jobs d) - len kept, set_jobs kept d)).

Definition system_logs_insert_one (event : system_log) : M unit :=
  store_op (fun d => (tt, set_system_logs (system_logs d ++ [event]) d)).

Definition log_cleanup_event (now : Z) (deleted_count : Z) (status : string)
  (error : option exn) : M unit :=
  try_except
    (system_logs_insert_one (CleanupLog now deleted_count status error))
    (fun _ => ret tt).

Definition cleanup_expired_jobs (now : Z) : M Z :=
  try_except
    (let cutoff_date := now - timedelta_days 1 in
     deleted_count <- jobs_delete_many (cleanup_filter cutoff_date) ;;
     (if 0 <? deleted_count
      then log_cleanup_event now deleted_count "success" None
      else ret tt) ;;;
     ret deleted_count)
    (fun e => log_cleanup_event now 0 "failed" (Some e) ;;; ret 0).

(** [db.jobs.find(filter)], read in one go. *)
Definition jobs_find (filter_ : job -> bool) : M (list job) :=
  store_op (fun d => (filter filter_ (jobs d), d)).

Definition has_id (i : option oid) (j : job) : bool :=
  match i, _id j with
  | Some a, Some b => N.eqb a b
  | _, _ => false
  end.

Fixpoint update_first (p : job -> bool) (f : job -> job) (l : list job)
  : list job :=
  match l with
  | [] => []
  | j :: r => if p j then f j :: r else j :: update_first p f r
  end.

(** [db.jobs.update_one({"_id": i}, update)], returning whether a document
    matched. *)
Definition jobs_update_one (i : option oid) (update : job -> job) : M bool :=
  store_op (fun d =>
    (existsb (has_id i) (jobs d),
     set_jobs (update_first (has_id i) update (jobs d)) d)).

(** [db.jobs.update_one({"_id": i}, update)] read through
    [result.modified_count > 0]: whether a document matched and the update
    changed it.  [changes] tells whether the update changes a document. *)
Definition jobs_update_one_modified (i : option oid) (update : job -> job)
  (changes : job -> bool) : M bool :=
  store_op (fun d =>
    (match find (has_id i) (jobs d) with
     | Some j => changes j
     | None => false
     end,
     set_jobs (update_first (has_id i) update (jobs d)) d)).

(** [db.jobs.find_one({"_id": i})]. *)
Definition jobs_find_one (i : option oid) : M (option job) :=
  store_op (fun d => (find (has_id i) (jobs d), d)).

(** The [$set] of [sync_job_counts]. *)
Definition sync_update (now : Z) (apply_count_ save_count_ : Z) (j : job)
  : job :=
  set_last_checked (Some now)
    (set_save_count (Some save_count_)
       (set_apply_count (Some apply_count_) j)).

Fixpoint sync_each (now : Z) (found : list job) (updated_count : Z) : M Z :=
  match found with
  | [] => ret updated_count
  | j :: rest =>
    let apply_count_ := len (Matcher.get (applied_by j) []) in
    let save_count_ := len (Matcher.get (saved_by j) []) in
    jobs_update_one (_id j) (sync_update now apply_count_ save_count_) ;;;
    sync_each now rest (updated_count + 1)
  end.

Definition sync_job_counts (now : Z) : M Z :=
  try_except
    (found <- jobs_find (fun _ => true) ;;
     sync_each now found 0)
    (fun _ => ret 0).

Definition job_lifecycle_logs_insert_one (event : lifecycle_event) : M unit :=
  store_op (fun d =>
    (tt, set_job_lifecycle_logs (job_lifecycle_logs d ++ [event]) d)).

Definition log_job_event (now : Z) (job_id : string) (event_type : string)
  (user_id : option string) : M unit :=
  try_except
    (job_lifecycle_logs_insert_one
       {| ev_job_id := job_id; ev_event_type := event_type;
          ev_user_id := user_id; ev_timestamp := now |})
    (fun _ => ret tt).

Definition mark_job_for_deletion (now : Z) (job_id : string) (days : Z)
  : M bool :=
  try_except
    (if negb (ObjectId_is_valid job_id) then ret false
     else
       let expires_at_ := now + timedelta_days days in
       jobs_update_one_modified (ObjectId job_id)
         (set_expires_at (Some expires_at_))
         (fun j => match expires_at j with
                   | Some e => negb (e =? expires_at_)
                   | None => true
                   end))
    (fun _ => ret false).

Definition remove_deletion_mark (job_id : string) : M bool :=
  try_except
    (if negb (ObjectId_is_valid job_id) then ret false
     else
       jobs_update_one_modified (ObjectId job_id) (set_expires_at None)
         (fun j => match expires_at j with
                   | Some _ => true
                   | None => false
                   end))
    (fun _ => ret false).

End Lifecycle.

(* ================================================================== *)
(** * app/routers/jobs.py: save and unsave *)
(* ================================================================== *)

Module Jobs.
Import Py Store Lifecycle.
Local Open Scope string_scope.
Local Open Scope Z_scope.
Local Open Scope store_scope.

(** [$push]: appends, creating the array when the key is missing. *)
Definition push {A} (x : A) (field : option (list A)) : option (list A) :=
  match field with
  | Some l => Some (l ++ [x])%list
  | None => Some [x]
  end.

(** [$pull]: removes every occurrence; a missing key stays missing. *)
Definition pull (x : string) (field : option (list string))
  : option (list string) :=
  match field with
  | Some l => Some (filter (fun y => negb (String.eqb y x)) l)
  | None => None
  end.

(** [$inc]: adds, starting from zero when the key is missing. *)
Definition inc (n : Z) (field : option Z) : option Z :=
  match field with
  | Some c => Some (c + n)
  | None => Some n
  end.

Definition save_update (user_id : string) (j : job) : job :=
  set_expires_at None
    (set_save_count (inc 1 (save_count j))
       (set_saved_by (push user_id (saved_by j)) j)).

Definition save_job (now : Z) (job_id : string) (user_id : string)
  : M string :=
  if negb (ObjectId_is_valid job_id)
  then raise (HTTPException 400 "Invalid job ID")
  else
    found <- jobs_find_one (ObjectId job_id) ;;
    match found with
    | None => raise (HTTPException 404 "Job not found")
    | Some j =>
      if mem user_id (Matcher.get (saved_by j) []) then ret "Already saved"
      else
        jobs_update_one (ObjectId job_id) (save_update user_id) ;;;
        log_job_event now job_id "saved" (Some user_id) ;;;
        remove_deletion_mark job_id ;;;
        ret "Job saved successfully"
    end.

Definition unsave_update (user_id : string) (j : job) : job :=
  set_save_count (inc (-1) (save_count j))
    (set_saved_by (pull user_id (saved_by j)) j).

(** [not job.get(key)] on an array key. *)
Definition falsy_list {A} (field : option (list A)) : bool :=
  match field with
  | Some (_ :: _) => false
  | _ => true
  end.

Definition unsave_job (now : Z) (job_id : string) (user_id : string)
  : M string :=
  if negb (ObjectId_is_valid job_id)
  then raise (HTTPException 400 "Invalid job ID")
  else
    jobs_update_one (ObjectId job_id) (unsave_update user_id) ;;;
    log_job_event now job_id "unsaved" (Some user_id) ;;;
    found <- jobs_find_one (ObjectId job_id) ;;
    (match found with
     | Some j =>
       if falsy_list (saved_by j) && falsy_list (applied_by j)
       then mark_job_for_deletion now job_id 3 ;;; ret tt
       else ret tt
     | None => ret tt
     end) ;;;
    ret "Job unsaved successfully".

End Jobs.

(* ================================================================== *)
(** * app/routers/apply.py *)
(* ================================================================== *)

Module Apply.
Import Py Store Lifecycle Jobs.
Local Open Scope string_scope.
Local Open Scope Z_scope.
Local Open Scope store_scope.

Record apply_response := {
  message : string;
  application_id : oid
}.

(** [str(e)]. *)
Definition exn_str (e : exn) : string :=
  match e with
  | OverflowError => "OverflowError"
  | ZeroDivisionError => "division by zero"
  | TypeError => "TypeError"
  | KeyError k => k
  | StoreError => "store failure"
  | ScrapeError => "scrape failure"
  | EnrichError => "enrichment failure"
  | HTTPException _ detail => detail
  end.

(** [except HTTPException: raise] followed by
    [except Exception as e: raise HTTPException(500, str(e))]. *)
Definition http_guard {A} (m : M A) : M A :=
  try_except m
    (fun e =>
       match e with
       | HTTPException _ _ => raise e
       | _ => raise (HTTPException 500 (exn_str e))
       end).

(** [db.applications.find_one({"user_id": u, "job_id": j})]. *)
Definition applications_find_one (user_id job_id : string)
  : M (option application) :=
  store_op (fun d =>
    (find (fun a => String.eqb (app_user_id a) user_id
                    && String.eqb (app_job_id a) job_id)
          (applications d), d)).

(** [db.applications.insert_one(doc)], returning [inserted_id]. *)
Definition applications_insert_one (doc : oid -> application) : M oid :=
  store_op (fun d =>
    let i := next_oid d in
    (i, set_next_oid (N.succ i)
          (set_applications (applications d ++ [doc i]) d))).

(** [db.resumes.find_one({"_id": i, "user_id": u})]. *)
Definition resumes_find_one_by_id (i : option oid) (user_id : string)
  : M (option resume) :=
  store_op (fun d =>
    (find (fun r => match i with
                    | Some a => N.eqb (resume_oid r) a
                    | None => false
                    end
                    && String.eqb (resume_user_id r) user_id)
          (resumes d), d)).

(** The update that [apply_to_job] sends to the job document. *)
Definition apply_update (user_id : string) (now : Z) (inserted_id : oid)
  (j : job) : job :=
  set_expires_at None
    (set_apply_count (inc 1 (apply_count j))
       (set_applied_by
          (push {| ae_user_id := user_id; ae_applied_at := now;
                   ae_status := "Applied";
                   ae_application_id := inserted_id;
                   ae_external := false |}
                (applied_by j)) j)).

(** [match_score] is what [calculate_dynamic_match_score] answered. *)
Definition apply_to_job (now : Z) (match_score : value) (job_id : string)
  (resume_id : option string) (user_id : string) : M apply_response :=
  http_guard
    (if negb (ObjectId_is_valid job_id)
     then raise (HTTPException 400 "Invalid job ID")
     else
       existing <- applications_find_one user_id job_id ;;
       match existing with
       | Some _ => raise (HTTPException 400 "Already applied to this job")
       | None =>
         found <- jobs_find_one (ObjectId job_id) ;;
         match found with
         | None => raise (HTTPException 404 "Job not found")
         | Some j =>
           resume_ <-
             (if str_truthy resume_id
                 && ObjectId_is_valid (Matcher.get resume_id "")
              then resumes_find_one_by_id
                     (ObjectId (Matcher.get resume_id "")) user_id
              else Matcher.resumes_find_one user_id) ;;
           match resume_ with
           | None => raise (HTTPException 400 "Please upload a resume first")
           | Some r =>
             inserted_id <- applications_insert_one (fun i =>
               {| app_oid := i; app_user_id := user_id;
                  app_job_id := job_id;
                  app_resume_id := Some (resume_oid r);
                  app_external_application := false;
                  app_match_score := match_score;
                  app_status := "Applied"; app_created_at := now;
                  app_job_details := content j |}) ;;
             jobs_update_one (ObjectId job_id)
                             (apply_update user_id now inserted_id) ;;;
             log_job_event now job_id "applied" (Some user_id) ;;;
             ret {| message := "Application submitted successfully. Job will be kept in your history permanently.";
                    application_id := inserted_id |}
           end
         end
       end).

(** The update that [mark_external_application] sends to the job document. *)
Definition external_update (user_id : string) (now : Z) (inserted_id : oid)
  (j : job) : job :=
  set_apply_count (inc 1 (apply_count j))
    (set_applied_by
       (push {| ae_user_id := user_id; ae_applied_at := now;
                ae_status := "Applied";
                ae_application_id := inserted_id;
                ae_external := true |}
             (applied_by j)) j).

Definition mark_external_application (now : Z) (job_id : string)
  (user_id : string) : M apply_response :=
  http_guard
    (if negb (ObjectId_is_valid job_id)
     then raise (HTTPException 400 "Invalid job ID")
     else
       existing <- applications_find_one user_id job_id ;;
       match existing with
       | Some _ => raise (HTTPException 400 "Already marked as applied")
       | None =>
         found <- jobs_find_one (ObjectId job_id) ;;
         match found with
         | None => raise (HTTPException 404 "Job not found")
         | Some j =>
           inserted_id <- applications_insert_one (fun i =>
             {| app_oid := i; app_user_id := user_id;
                app_job_id := job_id;
                app_resume_id := None;
                app_external_application := true;
                app_match_score := PyInt 0;
                app_status := "Applied"; app_created_at := now;
                app_job_details := content j |}) ;;
           jobs_update_one (ObjectId job_id)
                           (external_update user_id now inserted_id) ;;;
           ret {| message := "Application marked successfully";
                  application_id := inserted_id |}
         end
       end).

End Apply.

(* ================================================================== *)
(** * app/scrapers/base_scraper.py *)
(* ================================================================== *)

Module Scraper.
Import Py Store.
Local Open Scope string_scope.
Local Open Scope Z_scope.
Local Open Scope store_scope.

(** An adapter: its name and what its [scrape_jobs(limit)] yields, a list of
    normalized postings or an exception. *)
Record scraper := {
  platform_name : string;
  scrape_jobs : Z -> outcome (list job)
}.

Definition has_url (url : string) (j : job) : bool :=
  match job_url j with
  | Some u => String.eqb u url
  | None => false
  end.

(** [db.jobs.find_one({"job_url": url})]. *)
Definition jobs_find_one_by_url (url : string) : M (option job) :=
  store_op (fun d => (find (has_url url) (jobs d), d)).

Definition check_duplicate (url : string) : M bool :=
  existing <- jobs_find_one_by_url url ;;
  ret (match existing with Some _ => true | None => false end).

(** [db.jobs.insert_one(job)]: the store gives the document an [_id] when
    it has none. *)
Definition jobs_insert_one (j : job) : M oid :=
  store_op (fun d =>
    let i := next_oid d in
    let doc := match _id j with Some _ => j | None => set_id (Some i) j end in
    (i, set_next_oid (N.succ i) (set_jobs (jobs d ++ [doc]) d))).

(** [job["job_url"]]. *)
Definition subscript_job_url (j : job) : outcome string :=
  match job_url j with
  | Some u => Return u
  | None => Raise (KeyError "job_url")
  end.

Record counters := {
  stored_count : Z;
  duplicate_count : Z;
  error_count : Z
}.

(** The body of the loop over the scraped jobs.  [process_job] is the
    enrichment step of the job processor. *)
Definition store_one (process_job : job -> outcome job) (j : job)
  (c : counters) : M counters :=
  try_except
    (url <- lift (subscript_job_url j) ;;
     dup <- check_duplicate url ;;
     if (dup : bool) then
       ret {| stored_count := stored_count c;
              duplicate_count := duplicate_count c + 1;
              error_count := error_count c |}
     else
       j' <- try_except (lift (process_job j)) (fun _ => ret j) ;;
       jobs_insert_one j' ;;;
       ret {| stored_count := stored_count c + 1;
              duplicate_count := duplicate_count c;
              error_count := error_count c |})
    (fun _ =>
       ret {| stored_count := stored_count c;
              duplicate_count := duplicate_count c;
              error_count := error_count c + 1 |}).

Fixpoint store_each (process_job : job -> outcome job) (scraped_ : list job)
  (c : counters) : M counters :=
  match scraped_ with
  | [] => ret c
  | j :: rest =>
    c' <- store_one process_job j c ;;
    store_each process_job rest c'
  end.

Definition scrape_and_store (self : scraper)
  (process_job : job -> outcome job) (limit : Z) : M scrape_result :=
  try_except
    (found <- lift (scrape_jobs self limit) ;;
     if is_empty found then
       ret {| platform := platform_name self; scraped := 0; stored := 0;
              duplicates := 0; errors := 0; error_message := None |}
     else
       c <- store_each process_job found
              {| stored_count := 0; duplicate_count := 0; error_count := 0 |} ;;
       ret {| platform := platform_name self; scraped := len found;
              stored := stored_count c; duplicates := duplicate_count c;
              errors := error_count c; error_message := None |})
    (fun e =>
       ret {| platform := platform_name self; scraped := 0; stored := 0;
              duplicates := 0; errors := 1; error_message := Some e |}).

End Scraper.

(* ================================================================== *)
(** * app/services/scraping_orchestrator.py *)
(* ================================================================== *)

Module Orchestrator.
Import Py Store Scraper.
Local Open Scope string_scope.
Local Open Scope Z_scope.
Local Open Scope store_scope.

(** [asyncio.gather] with [return_exceptions=True], the tasks taken in
    list order: each task ends in a result or in the exception it raised,
    and the next one runs on the store the previous one left. *)
Fixpoint gather {A} (tasks : list (M A)) (d : db) : list (outcome A) * db :=
  match tasks with
  | [] => ([], d)
  | t :: rest =>
    let (o, d') := t d in
    let (os, d'') := gather rest d' in
    (o :: os, d'')
  end.

Record totals := {
  total_scraped : Z;
  total_stored : Z;
  total_duplicates : Z;
  total_errors : Z;
  platform_results : list scrape_result
}.

(** One turn of the aggregation loop. *)
Definition aggregate_one (t : totals) (result : outcome scrape_result)
  : totals :=
  match result with
  | Raise _ =>
    {| total_scraped := total_scraped t; total_stored := total_stored t;
       total_duplicates := total_duplicates t;
       total_errors := total_errors t + 1;
       platform_results := platform_results t |}
  | Return r =>
    {| total_scraped := total_scraped t + scraped r;
       total_stored := total_stored t + stored r;
       total_duplicates := total_duplicates t + duplicates r;
       total_errors := total_errors t + errors r;
       platform_results := platform_results t ++ [r] |}
  end.

Definition aggregate (results : list (outcome scrape_result)) : totals :=
  fold_left aggregate_one results
    {| total_scraped := 0; total_stored := 0; total_duplicates := 0;
       total_errors := 0; platform_results := [] |}.

Definition _log_scraping_event (now : Z) (t : totals) : M unit :=
  try_except
    (Lifecycle.system_logs_insert_one
       (ScrapingLog now (total_scraped t) (total_stored t)
          (total_duplicates t) (total_errors t) (platform_results t)
          (if total_errors t =? 0 then "success" else "partial_success")))
    (fun _ => ret tt).

Record run_summary := {
  success : bool;
  summary : totals;
  timestamp : Z
}.

Definition scrape_all_platforms (scrapers : list scraper)
  (process_job : job -> outcome job) (now : Z) (limit_per_platform : Z)
  : M run_summary :=
  let tasks :=
    map (fun s => scrape_and_store s process_job limit_per_platform)
        scrapers in
  results <- (fun d => let (rs, d') := gather tasks d in (Return rs, d')) ;;
  let t := aggregate results in
  _log_scraping_event now t ;;;
  ret {| success := true; summary := t; timestamp := now |}.

End Orchestrator.

(* ================================================================== *)
(** * app/routers/jobs.py: the single-job view *)
(* ================================================================== *)

Module JobView.
Import Py Store Lifecycle Jobs.
Local Open Scope string_scope.
Local Open Scope Z_scope.

(** The keys of the answer of [get_job] that depend on the viewer or on the
    interaction state; the other keys are copied from the document. *)
Record job_view := {
  view_title : option string;
  view_apply_count : Z;
  view_save_count : Z;
  is_saved : bool;
  is_applied : bool
}.

(** [get_job(job_id, current_user)]; [user_id] is the viewer's id, if any. *)
Definition get_job (job_id : string) (user_id : option string) : M job_view :=
  (if negb (ObjectId_is_valid job_id)
   then raise (HTTPException 400 "Invalid job ID")
   else
     found <- jobs_find_one (ObjectId job_id) ;;
     match found with
     | None => raise (HTTPException 404 "Job not found")
     | Some j =>
       ret {| view_title := title (content j);
              view_apply_count := Matcher.get (apply_count j) 0;
              view_save_count := Matcher.get (save_count j) 0;
              is_saved :=
                if str_truthy user_id
                then mem (Matcher.get user_id "")
                         (Matcher.get (saved_by j) [])
                else false;
              is_applied :=
                if str_truthy user_id
                then existsb (fun a => String.eqb (ae_user_id a)
                                                  (Matcher.get user_id ""))
                             (Matcher.get (applied_by j) [])
                else false |}
     end)%store.

End JobView.

(* ================================================================== *)
(** * app/scrapers/base_scraper.py: normalizers, rate limit and retries *)
(* ================================================================== *)

Module Normalize.
Import Py.
Local Open Scope string_scope.

(** [any(word in text for word in words)]. *)
Definition any_in (words : list string) (text : string) : bool :=
  existsb (fun word => contains word text) words.

Definition _normalize_remote_type (remote_type : string) : string :=
  let remote_lower := lower remote_type in
  if any_in ["remote"; "work from home"; "wfh"] remote_lower then "Remote"
  else if any_in ["hybrid"; "flexible"] remote_lower then "Hybrid"
  else "On-site".

Definition _normalize_job_type (job_type : string) : string :=
  let job_lower := lower job_type in
  if contains "full" job_lower || contains "full-time" job_lower
  then "Full-time"
  else if contains "part" job_lower || contains "part-time" job_lower
  then "Part-time"
  else if contains "contract" job_lower || contains "contractor" job_lower
  then "Contract"
  else if contains "intern" job_lower then "Internship"
  else "Full-time".

Definition _normalize_experience_level (experience : string)
  : option string :=
  let exp_lower := lower experience in
  if any_in ["entry"; "junior"; "0-2"; "graduate"] exp_lower
  then Some "Entry"
  else if any_in ["mid"; "intermediate"; "2-5"; "3-5"] exp_lower
  then Some "Mid"
  else if any_in ["senior"; "5+"; "7+"; "experienced"] exp_lower
  then Some "Senior"
  else if any_in ["lead"; "principal"; "staff"; "architect"] exp_lower
  then Some "Lead"
  else None.

(** [_categorize_job(raw_data)], on the two keys of [raw_data] it reads. *)
Definition _categorize_job (raw_title raw_description : option string)
  : string :=
  let title := lower (Matcher.get raw_title "") in
  let description := lower (Matcher.get raw_description "") in
  let combined := title ++ " " ++ description in
  if any_in ["data scientist"; "machine learning"; "ml engineer";
             "ai engineer"; "deep learning"] combined
  then "Machine Learning"
  else if any_in ["data analyst"; "data engineer"; "analytics"] combined
  then "Data Science"
  else if any_in ["frontend"; "front-end"; "react"; "vue"; "angular"]
                 combined
  then "Frontend"
  else if any_in ["backend"; "back-end"; "api"; "server"] combined
  then "Backend"
  else if any_in ["full stack"; "fullstack"; "full-stack"] combined
  then "Full Stack"
  else if any_in ["mobile"; "ios"; "android"; "react native"; "flutter"]
                 combined
  then "Mobile"
  else if any_in ["devops"; "sre"; "infrastructure"; "cloud engineer";
                  "kubernetes"; "docker"] combined
  then "DevOps"
  else "Other".

(** ** Request pacing *)

(** The pacing state of an adapter; times are in microseconds. *)
Record limiter := {
  max_requests_per_minute : Z;
  request_count : Z;
  last_request_time : Z
}.

(** [timedelta.seconds] of a difference of two times. *)
Definition td_seconds (delta : Z) : Z := ((delta / 1000000) mod 86400)%Z.

(** [rate_limit()], entered at time [now]; [woke] is the time read after the
    sleep, when there is one.  Returns the new state and the seconds
    slept. *)
Definition rate_limit (self : limiter) (now woke : Z) : limiter * Z :=
  let count1 := (request_count self + 1)%Z in
  let '(count2, last2) :=
    if (60 <=? td_seconds (now - last_request_time self))%Z
    then (0%Z, now)
    else (count1, last_request_time self) in
  if (max_requests_per_minute self <=? count2)%Z then
    let wait_time := (60 - td_seconds (now - last2))%Z in
    if (0 <? wait_time)%Z then
      ({| max_requests_per_minute := max_requests_per_minute self;
          request_count := 0; last_request_time := woke |}, wait_time)
    else
      ({| max_requests_per_minute := max_requests_per_minute self;
          request_count := count2; last_request_time := last2 |}, 0%Z)
  else
    ({| max_requests_per_minute := max_requests_per_minute self;
        request_count := count2; last_request_time := last2 |}, 0%Z).

(** What one request of [fetch_with_retry] meets. *)
Inductive response : Type :=
| Ok (text : string)
| HTTPStatusError (status_code : Z)
| OtherError.

(** The loop of [fetch_with_retry], from attempt number [attempt] with
    [remaining] turns left; [respond] is what the server answers to each
    attempt.  Returns the text, if any, and the seconds slept between the
    attempts.  The pacing calls only add waiting time and are left out. *)
Fixpoint fetch_from (respond : Z -> response) (max_retries : Z)
  (remaining : nat) (attempt : Z) : option string * list Z :=
  match remaining with
  | O => (None, [])
  | S k =>
    match respond attempt with
    | Ok text => (Some text, [])
    | _ =>
      if (attempt <? max_retries - 1)%Z then
        let (r, sleeps) := fetch_from respond max_retries k (attempt + 1)%Z in
        (r, (2 ^ attempt)%Z :: sleeps)
      else (None, [])
    end
  end.

Definition fetch_with_retry (respond : Z -> response) (max_retries : Z)
  : option string * list Z :=
  fetch_from respond max_retries (Z.to_nat max_retries) 0%Z.

End Normalize.

(* ================================================================== *)
(** * The adapters as coroutines of one event loop *)
(* ================================================================== *)

Module Concurrent.
Import Py Store Scraper Orchestrator.
Local Open Scope string_scope.
Local Open Scope Z_scope.

(** A coroutine cut at its awaits: it has ended, or it awaits an operation
    and goes on with what the operation answers.  Between two awaits a
    coroutine runs without interruption. *)
Inductive task (A : Type) : Type :=
| Done (o : outcome A)
| Await {X : Type} (op : M X) (k : outcome X -> task A).

Arguments Done {A} o.
Arguments Await {A X} op k.

(** The coroutine run to its end without another one in between. *)
Fixpoint run {A} (t : task A) (d : db) : outcome A * db :=
  match t with
  | Done o => (o, d)
  | Await op k => let (o, d') := op d in run (k o) d'
  end.

(** The loop of [scrape_and_store] over the scraped postings, with its
    three awaits: the duplicate check, the enrichment and the insertion. *)
Fixpoint store_each_task (process_job : job -> outcome job)
  (scraped_ : list job) (c : counters)
  (finish : counters -> task scrape_result) : task scrape_result :=
  match scraped_ with
  | [] => finish c
  | j :: rest =>
    let on_error :=
      store_each_task process_job rest
        {| stored_count := stored_count c;
           duplicate_count := duplicate_count c;
           error_count := error_count c + 1 |} finish in
    match subscript_job_url j with
    | Raise _ => on_error
    | Return url =>
      Await (check_duplicate url) (fun dup =>
        match dup with
        | Raise _ => on_error
        | Return true =>
          store_each_task process_job rest
            {| stored_count := stored_count c;
               duplicate_count := duplicate_count c + 1;
               error_count := error_count c |} finish
        | Return false =>
          Await (lift (process_job j)) (fun enriched =>
            let j' := match enriched with
                      | Return e => e
                      | Raise _ => j
                      end in
            Await (jobs_insert_one j') (fun inserted =>
              match inserted with
              | Raise _ => on_error
              | Return _ =>
                store_each_task process_job rest
                  {| stored_count := stored_count c + 1;
                     duplicate_count := duplicate_count c;
                     error_count := error_count c |} finish
              end))
        end)
    end
  end.

(** [scrape_and_store] as a coroutine; its first await is the scraping. *)
Definition scrape_and_store_task (self : scraper)
  (process_job : job -> outcome job) (limit : Z) : task scrape_result :=
  Await (lift (scrape_jobs self limit)) (fun scraped_ =>
    match scraped_ with
    | Raise e =>
      Done (Return {| platform := platform_name self; scraped := 0;
                      stored := 0; duplicates := 0; errors := 1;
                      error_message := Some e |})
    | Return found =>
      if is_empty found then
        Done (Return {| platform := platform_name self; scraped := 0;
                        stored := 0; duplicates := 0; errors := 0;
                        error_message := None |})
      else
        store_each_task process_job found
          {| stored_count := 0; duplicate_count := 0; error_count := 0 |}
          (fun c =>
             Done (Return {| platform := platform_name self;
                             scraped := len found;
                             stored := stored_count c;
                             duplicates := duplicate_count c;
                             errors := error_count c;
                             error_message := None |}))
    end).

(** One turn of the event loop on a coroutine: the operation it awaits is
    carried out and the coroutine runs up to its next await. *)
Definition resume_task {A} (t : task A) (d : db) : task A * db :=
  match t with
  | Done o => (Done o, d)
  | Await op k => let (o, d') := op d in (k o, d')
  end.

(** The turn goes to the [i]-th coroutine. *)
Fixpoint resume_nth {A} (i : nat) (tasks : list (task A)) (d : db)
  : list (task A) * db :=
  match tasks with
  | [] => ([], d)
  | t :: rest =>
    match i with
    | O => let (t', d') := resume_task t d in (t' :: rest, d')
    | S i' => let (rest', d') := resume_nth i' rest d in (t :: rest', d')
    end
  end.

(** [asyncio.gather] with [return_exceptions=True] on one event loop:
    [schedule] names the coroutine that gets each turn, in the order in
    which the awaited operations complete; what is left of the coroutines
    when the schedule is used up runs in list order.  The results come in
    the order of the tasks.  The empty schedule is [gather]. *)
Fixpoint gather_interleaved {A} (schedule : list nat) (tasks : list (task A))
  (d : db) : list (outcome A) * db :=
  match schedule with
  | [] => gather (map run tasks) d
  | i :: later =>
    let (tasks', d') := resume_nth i tasks d in
    gather_interleaved later tasks' d'
  end.

End Concurrent.

(* ================================================================== *)
(** * Properties of the match scorer *)
(* ================================================================== *)

Module MatcherProps.
Import Py Store Matcher.
Local Open Scope string_scope.
Local Open Scope Z_scope.

(** ** Seniority *)

Inductive level : Type := Entry | Mid | Senior | Lead.

Definition rank (l : level) : Z :=
  match l with Entry => 1 | Mid => 2 | Senior => 3 | Lead => 4 end.

(** The level that a string names, if it is on the scale. *)
Definition level_of_string (s : string) : option level :=
  if String.eqb s "Entry" then Some Entry
  else if String.eqb s "Mid" then Some Mid
  else if String.eqb s "Senior" then Some Senior
  else if String.eqb s "Lead" then Some Lead
  else None.

(** Inference from the number of experience entries. *)
Definition level_of_count (n : nat) : level :=
  if (7 <=? n)%nat then Lead
  else if (5 <=? n)%nat then Senior
  else if (2 <=? n)%nat then Mid
  else Entry.

Definition score_of_distance (d : Z) : float :=
  if d =? 0 then flt 100
  else if d =? 1 then flt 75
  else if d =? 2 then flt 50
  else flt 25.

(** The seniority rule as the specification words it: the candidate's
    level is the explicit preference when one is given and otherwise the
    level inferred from the number of experience entries. *)
Definition stated_candidate_level (entries : nat) (pref : option level)
  : level :=
  match pref with
  | Some l => l
  | None => level_of_count entries
  end.

Definition stated_seniority_score (posting_level : option level)
  (entries : nat) (pref : option level) : float :=
  match posting_level with
  | None => flt 100
  | Some p =>
    score_of_distance
      (Z.abs (rank p - rank (stated_candidate_level entries pref)))
  end.

(** The candidate's level as the code settles it: the preference when it
    names a level of the scale, otherwise the level inferred from the
    entries when there is at least one, otherwise [Mid]. *)
Definition candidate_level (entries : nat) (pref : option string) : level :=
  match pref with
  | Some s =>
    match level_of_string s with
    | Some l => l
    | None => match entries with O => Mid | _ => level_of_count entries end
    end
  | None => match entries with O => Mid | _ => level_of_count entries end
  end.

(** The posting's level: none when the key is missing or empty, [Mid] when
    the string is not on the scale. *)
Definition posting_level (job_experience : option string) : option level :=
  match job_experience with
  | None => None
  | Some s =>
    if String.eqb s "" then None
    else Some match level_of_string s with Some l => l | None => Mid end
  end.

Lemma experience_levels_rank (s : string) :
  experience_levels s = option_map rank (level_of_string s).
Proof.
  unfold experience_levels, level_of_string.
  repeat (destruct (String.eqb s _); [reflexivity|]).
  reflexivity.
Qed.

Lemma level_of_string_empty : level_of_string "" = None.
Proof. reflexivity. Qed.

Lemma user_level_of_rank (resume_experience : list string)
  (pref : option string) :
  user_level_of resume_experience pref
  = rank (candidate_level (List.length resume_experience) pref).
Proof.
  unfold user_level_of, candidate_level.
  assert (Hcount : forall l : list string, l <> [] ->
    (if 7 <=? len l then 4 else if 5 <=? len l then 3
     else if 2 <=? len l then 2 else 1)
    = rank (level_of_count (List.length l))).
  { intros l _. unfold len, level_of_count.
    destruct (Nat.leb_spec 7 (List.length l));
      destruct (Nat.leb_spec 5 (List.length l));
      destruct (Nat.leb_spec 2 (List.length l));
      destruct (Z.leb_spec 7 (Z.of_nat (List.length l)));
      destruct (Z.leb_spec 5 (Z.of_nat (List.length l)));
      destruct (Z.leb_spec 2 (Z.of_nat (List.length l)));
      try reflexivity; lia. }
  destruct pref as [s|]; simpl.
  - rewrite experience_levels_rank.
    destruct (String.eqb_spec s "") as [->|Hne]; simpl.
    + destruct resume_experience; [reflexivity|].
      apply Hcount; discriminate.
    + destruct (level_of_string s); simpl; [reflexivity|].
      destruct resume_experience; [reflexivity|].
      apply Hcount; discriminate.
  - destruct resume_experience; [reflexivity|].
    apply Hcount; discriminate.
Qed.

(** C6, as stated, fails: for a posting at level Entry and a candidate with
    no experience entry and no preference the stated rule infers Entry and
    scores 100, and the code scores 75. *)
Lemma seniority_no_entries_counterexample :
  _calculate_experience_match (Some "Entry") [] None = flt 75
  /\ stated_seniority_score (Some Entry) 0 None = flt 100
  /\ _calculate_experience_match (Some "Entry") [] None
     <> stated_seniority_score (Some Entry) 0 None.
Proof.
  split; [reflexivity|]. split; [reflexivity|].
  vm_compute. discriminate.
Qed.

(** C6, amended: the seniority sub-score is 100 when the posting names no
    level, and otherwise it is given by the distance (0, 1, 2, 3 or more to
    100, 75, 50, 25) on the scale Entry=1 .. Lead=4 between the posting's
    level (Mid when its string is not on the scale) and the candidate's
    level: the preference when it names a level of the scale, otherwise the
    level inferred from a non-zero number of experience entries (7 or more
    Lead, 5 or more Senior, 2 or more Mid, else Entry), otherwise Mid. *)
Theorem seniority_score_amended (job_experience : option string)
  (resume_experience : list string) (pref_experience : option string) :
  _calculate_experience_match job_experience resume_experience
                              pref_experience
  = match posting_level job_experience with
    | None => flt 100
    | Some p =>
      score_of_distance
        (Z.abs (rank p
                - rank (candidate_level (List.length resume_experience)
                                        pref_experience)))
    end.
Proof.
  unfold _calculate_experience_match, posting_level.
  rewrite user_level_of_rank.
  destruct job_experience as [s|]; simpl; [|reflexivity].
  destruct (String.eqb s ""); simpl; [reflexivity|].
  rewrite experience_levels_rank.
  destruct (level_of_string s); reflexivity.
Qed.

(** ** Salary *)

(** A side lacks salary data when neither bound is set (a bound of 0 counts
    as not set). *)
Definition lacks_salary (lo hi : option Z) : bool :=
  negb (truthy (of_opt_int lo)) && negb (truthy (of_opt_int hi)).

(** The bands of the salary rule. *)
Definition salary_band (diff_percentage : float) : float :=
  if fle diff_percentage (flt 10) then flt 100
  else if fle diff_percentage (flt 20) then flt 85
  else if fle diff_percentage (flt 30) then flt 70
  else if fle diff_percentage (flt 50) then flt 50
  else flt 25.

(** The deviation of the posting's salary from the preferred one, as a
    percentage of the preferred one. *)
Definition deviation_percent (job_salary pref_salary : float) : float :=
  fmul (fdiv (SFabs (fsub job_salary pref_salary)) pref_salary) (flt 100).

(** C4, as stated, fails: for the posting band 100000-120000 and the
    preference band 150000-150000 the salary sub-score is not 50. *)
Lemma salary_scenario_counterexample :
  _calculate_salary_match (Some 100000) (Some 120000)
                          (Some 150000) (Some 150000)
  <> Return (flt 50).
Proof. vm_compute. discriminate. Qed.

Lemma salary_lacking_data (jmin jmax pmin pmax : option Z) :
  lacks_salary jmin jmax || lacks_salary pmin pmax = true ->
  _calculate_salary_match jmin jmax pmin pmax = Return (flt 75).
Proof.
  unfold _calculate_salary_match, lacks_salary.
  destruct (negb (truthy (of_opt_int jmin)) && negb (truthy (of_opt_int jmax)));
    [reflexivity|].
  simpl. intros ->. reflexivity.
Qed.

Lemma salary_two_bands (jmin jmax pmin pmax : Z) :
  jmin <> 0 -> jmax <> 0 -> pmin <> 0 -> pmax <> 0 ->
  _calculate_salary_match (Some jmin) (Some jmax) (Some pmin) (Some pmax)
  = (job_salary <- int_truediv (jmin + jmax) 2 ;;
     pref_salary <- int_truediv (pmin + pmax) 2 ;;
     if is_zero pref_salary then Return (flt 75)
     else Return (salary_band (deviation_percent job_salary pref_salary)))
    %outcome.
Proof.
  intros Hj1 Hj2 Hp1 Hp2.
  unfold _calculate_salary_match. simpl.
  apply Z.eqb_neq in Hj1, Hj2, Hp1, Hp2.
  rewrite Hj1, Hj2, Hp1, Hp2. simpl.
  destruct (int_truediv (jmin + jmax) 2) as [mj|e]; [|reflexivity]. simpl.
  destruct (int_truediv (pmin + pmax) 2) as [mp|e]; [|reflexivity]. simpl.
  unfold py_eq_int, feq.
  replace (SFeqb mp (flt 0)) with (is_zero mp)
    by (destruct mp as [[|]|[|]| |[|] m e]; reflexivity).
  destruct (is_zero mp) eqn:Hz; [reflexivity|].
  unfold py_sub, py_abs, py_truediv, to_float. simpl.
  unfold salary_band, deviation_percent.
  repeat (destruct (fle _ _); [reflexivity|]).
  reflexivity.
Qed.

(** C4, amended: for the posting band 100000-120000 and the preference band
    150000-150000 the salary sub-score is 70, the deviation between the two
    midpoints being 26.7% of the preferred midpoint; the score is 75 when
    either side lacks salary data, and for two full bands it follows the
    deviation: at most 10% gives 100, at most 20% gives 85, at most 30%
    gives 70, at most 50% gives 50, anything else 25. *)
Theorem salary_score_amended :
  _calculate_salary_match (Some 100000) (Some 120000)
                          (Some 150000) (Some 150000)
  = Return (flt 70)
  /\ (flt_lt (fdiv (flt 266) (flt 10))
             (deviation_percent (flt 110000) (flt 150000)) = true
      /\ flt_lt (deviation_percent (flt 110000) (flt 150000))
                (fdiv (flt 267) (flt 10)) = true)
  /\ (forall jmin jmax pmin pmax : option Z,
        lacks_salary jmin jmax || lacks_salary pmin pmax = true ->
        _calculate_salary_match jmin jmax pmin pmax = Return (flt 75))
  /\ (forall jmin jmax pmin pmax : Z,
        jmin <> 0 -> jmax <> 0 -> pmin <> 0 -> pmax <> 0 ->
        _calculate_salary_match (Some jmin) (Some jmax)
                                (Some pmin) (Some pmax)
        = (job_salary <- int_truediv (jmin + jmax) 2 ;;
           pref_salary <- int_truediv (pmin + pmax) 2 ;;
           if is_zero pref_salary then Return (flt 75)
           else Return (salary_band
                          (deviation_percent job_salary pref_salary)))
          %outcome).
Proof.
  split; [vm_compute; reflexivity|].
  split; [split; vm_compute; reflexivity|].
  split; [exact salary_lacking_data | exact salary_two_bands].
Qed.

(** The amended salary rule at a posting with no salary and at two full
    bands ten percent apart. *)
Lemma salary_score_amended_witness :
  _calculate_salary_match None None (Some 1) (Some 2) = Return (flt 75)
  /\ _calculate_salary_match (Some 100) (Some 120) (Some 90) (Some 110)
     = Return (flt 100).
Proof.
  destruct salary_score_amended as (_ & _ & Hlack & Hband).
  split.
  - apply Hlack. reflexivity.
  - rewrite Hband by lia. vm_compute. reflexivity.
Defined.

(** ** Missing profile *)

Definition no_resume_on_record (user_id : string) (d : db) : Prop :=
  forall r, In r (resumes d) -> resume_user_id r <> user_id.

(** The next operation on the store is not going to fail. *)
Definition next_op_succeeds (d : db) : Prop :=
  match faults d with
  | true :: _ => False
  | _ => True
  end.

Lemma find_resume_none (user_id : string) (l : list resume) :
  (forall r, In r l -> resume_user_id r <> user_id) ->
  find (fun r => String.eqb (resume_user_id r) user_id) l = None.
Proof.
  induction l as [|r l IH]; intros H; [reflexivity|]. simpl.
  destruct (String.eqb_spec (resume_user_id r) user_id) as [E|_].
  - exfalso. apply (H r); [left; reflexivity | exact E].
  - apply IH. intros r' Hin. apply H. right. exact Hin.
Qed.

(** C8: when the user has no resume on record and the store answers the
    lookup, computing a match raises nothing: it returns a result with
    overall score 0.0, no criterion scores and the single recommendation to
    upload a resume. *)
Theorem missing_profile_zero_score (job : posting) (user_id : string)
  (d : db) :
  no_resume_on_record user_id d ->
  next_op_succeeds d ->
  fst (calculate_job_match job user_id d)
  = Return {| overall_score := flt 0;
              criterion_scores := [];
              missing_skills := get (skills_required job) [];
              matched_skills := [];
              recommendations :=
                ["Please upload a resume to see match scores"] |}.
Proof.
  intros Hnone Hok.
  unfold calculate_job_match, mbind, resumes_find_one, store_op.
  unfold next_op_succeeds in Hok.
  destruct (faults d) as [|[|] fs]; [| contradiction |]; simpl;
    rewrite (find_resume_none user_id (resumes d) Hnone); reflexivity.
Qed.

Definition empty_db : db :=
  {| jobs := []; applications := []; resumes := []; user_preferences := [];
     system_logs := []; job_lifecycle_logs := []; next_oid := 0%N;
     faults := [] |}.

Definition blank_posting : posting :=
  {| title := None; skills_required := None; experience_level := None;
     location := None; remote_type := None; salary_min := None;
     salary_max := None; job_type := None; category := None |}.

(** A user of an empty store gets the zero score. *)
Lemma missing_profile_zero_score_witness :
  overall_score
    match fst (calculate_job_match blank_posting "u1" empty_db) with
    | Return r => r
    | Raise _ => {| overall_score := flt 1; criterion_scores := [];
                    missing_skills := []; matched_skills := [];
                    recommendations := [] |}
    end
  = flt 0.
Proof.
  rewrite (missing_profile_zero_score blank_posting "u1" empty_db).
  - reflexivity.
  - intros r [].
  - exact I.
Defined.

End MatcherProps.

(* ================================================================== *)
(** * Properties of the lifecycle manager *)
(* ================================================================== *)

Module LifecycleProps.
Import Py Store Lifecycle Jobs.
Import MatcherProps.
Local Open Scope string_scope.
Local Open Scope Z_scope.

(** ** The sweep *)

Definition hours (n : Z) : Z := n * 3600000000.

(** Nobody applied to the posting and nobody saved it. *)
Definition no_interaction (j : job) : Prop :=
  Matcher.get (applied_by j) [] = [] /\ Matcher.get (saved_by j) [] = [].

(** Created more than 24 hours before [now], and without interaction. *)
Definition stale (now : Z) (j : job) : Prop :=
  (exists t, created_at j = Some t /\ now - t > hours 24)
  /\ no_interaction j.

Lemma size_if_null_zero {A} (field : option (list A)) :
  (size_if_null field =? 0) = true <-> Matcher.get field [] = [].
Proof.
  destruct field as [[|a l]|]; simpl; split; intro H;
    try reflexivity; discriminate.
Qed.

Lemma cleanup_filter_stale (now : Z) (j : job) :
  cleanup_filter (now - timedelta_days 1) j = true <-> stale now j.
Proof.
  unfold cleanup_filter, stale, no_interaction, timedelta_days, hours.
  rewrite !andb_true_iff, !size_if_null_zero.
  destruct (created_at j) as [t|].
  - rewrite Z.ltb_lt. split.
    + intros [Ht Hi]. split; [exists t; split; [reflexivity | lia] | exact Hi].
    + intros [(t' & E & Ht) Hi]. injection E as <-. split; [lia | exact Hi].
  - split.
    + intros [Hf _]. discriminate.
    + intros [(t' & E & _) _]. discriminate.
Qed.

Lemma log_cleanup_event_returns (now n : Z) (s : string) (e : option exn)
  (d : db) :
  exists d', log_cleanup_event now n s e d = (Return tt, d')
             /\ jobs d' = jobs d.
Proof.
  unfold log_cleanup_event, try_except, system_logs_insert_one, store_op, ret.
  destruct (faults d) as [|[|] fs]; simpl; eexists; split; reflexivity.
Qed.

Lemma jobs_delete_many_succeeds (p : job -> bool) (d : db) :
  next_op_succeeds d ->
  exists d',
    jobs_delete_many p d
    = (Return (len (jobs d) - len (filter (fun j => negb (p j)) (jobs d))),
       d')
    /\ jobs d' = filter (fun j => negb (p j)) (jobs d).
Proof.
  unfold next_op_succeeds, jobs_delete_many, store_op.
  destruct (faults d) as [|[|] fs]; intro H; [| contradiction |];
    eexists; split; reflexivity.
Qed.

(** C1: when the store carries out the deletion, the sweep removes exactly
    the postings created more than 24 hours ago that nobody applied to and
    nobody saved, and returns their number; an expiry marker plays no part;
    a posting created 25 hours ago without interaction goes, and a posting
    created 23 hours ago stays. *)
Theorem sweep_deletes_exactly_stale (now : Z) (d : db) :
  next_op_succeeds d ->
  let (r, d') := cleanup_expired_jobs now d in
  (forall j, In j (jobs d') <-> In j (jobs d) /\ ~ stale now j)
  /\ r = Return (len (jobs d) - len (jobs d'))
  /\ (forall j e, stale now (set_expires_at e j) <-> stale now j)
  /\ (forall j, In j (jobs d) -> created_at j = Some (now - hours 25) ->
                no_interaction j -> ~ In j (jobs d'))
  /\ (forall j, In j (jobs d) -> created_at j = Some (now - hours 23) ->
                In j (jobs d')).
Proof.
  intros Hok.
  destruct (cleanup_expired_jobs now d) as [r d'] eqn:Hrun.
  assert (Hkept : jobs d'
                  = filter (fun j => negb (cleanup_filter
                                             (now - timedelta_days 1) j))
                           (jobs d)
                  /\ r = Return (len (jobs d) - len (jobs d'))).
  { unfold cleanup_expired_jobs, try_except, mbind in Hrun.
    destruct (jobs_delete_many_succeeds
                (cleanup_filter (now - timedelta_days 1)) d Hok)
      as (d1 & E1 & J1).
    rewrite E1 in Hrun.
    destruct (0 <? _) in Hrun.
    - destruct (log_cleanup_event_returns now
                  (len (jobs d)
                   - len (filter (fun j => negb (cleanup_filter
                                     (now - timedelta_days 1) j)) (jobs d)))
                  "success" None d1) as (d2 & E2 & J2).
      rewrite E2 in Hrun. unfold ret in Hrun. injection Hrun as <- <-.
      rewrite J2, J1. split; reflexivity.
    - unfold ret in Hrun. injection Hrun as <- <-.
      rewrite J1. split; reflexivity. }
  destruct Hkept as [Hjobs Hr].
  assert (Hiff : forall j, In j (jobs d') <-> In j (jobs d) /\ ~ stale now j).
  { intro j. rewrite Hjobs, filter_In, negb_true_iff.
    rewrite <- cleanup_filter_stale.
    destruct (cleanup_filter (now - timedelta_days 1) j); split;
      intros [H1 H2]; split; auto; try discriminate.
    exfalso. apply H2. reflexivity. }
  split; [exact Hiff|]. split; [exact Hr|]. split; [|split].
  - intros j e. unfold stale, no_interaction. simpl. reflexivity.
  - intros j Hin Hc Hi Hin'. apply Hiff in Hin'. destruct Hin' as [_ Hn].
    apply Hn. split; [|exact Hi].
    exists (now - hours 25). split; [exact Hc|]. unfold hours. lia.
  - intros j Hin Hc. apply Hiff. split; [exact Hin|].
    intros [(t & E & Ht) _]. rewrite Hc in E. injection E as <-.
    unfold hours in Ht. lia.
Qed.

Definition a_posting : posting :=
  {| title := Some "Engineer"; skills_required := None;
     experience_level := None; location := None; remote_type := None;
     salary_min := None; salary_max := None; job_type := None;
     category := None |}.

(** A stored job without interaction. *)
Definition fresh_job (i : oid) (url : string) (created : Z) : job :=
  {| _id := Some i; job_url := Some url; created_at := Some created;
     applied_by := Some []; saved_by := Some []; apply_count := Some 0;
     save_count := Some 0; expires_at := None; last_checked := None;
     content := a_posting |}.

Definition db_of_jobs (l : list job) : db :=
  {| jobs := l; applications := []; resumes := []; user_preferences := [];
     system_logs := []; job_lifecycle_logs := []; next_oid := 1000%N;
     faults := [] |}.

(** The sweep at hour 100 over a posting of hour 75 and a posting of hour
    77: the first goes and the second stays. *)
Lemma sweep_deletes_exactly_stale_witness :
  let old := fresh_job 1%N "https://jobs.example/1" (hours 75) in
  let recent := fresh_job 2%N "https://jobs.example/2" (hours 77) in
  let d := db_of_jobs [old; recent] in
  ~ In old (jobs (snd (cleanup_expired_jobs (hours 100) d)))
  /\ In recent (jobs (snd (cleanup_expired_jobs (hours 100) d))).
Proof.
  intros old recent d.
  pose proof (sweep_deletes_exactly_stale (hours 100) d I) as H.
  destruct (cleanup_expired_jobs (hours 100) d) as [r d'].
  destruct H as (_ & _ & _ & Hold & Hrecent). simpl. split.
  - apply Hold.
    + left. reflexivity.
    + reflexivity.
    + split; reflexivity.
  - apply Hrecent.
    + right. left. reflexivity.
    + reflexivity.
Defined.

(** ** Unsave *)

Lemma has_id_set_save_count (i : option oid) (v : option Z) (j : job) :
  has_id i (set_save_count v j) = has_id i j.
Proof. reflexivity. Qed.

Lemma find_update_first (p : job -> bool) (f : job -> job) (l : list job)
  (j : job) :
  (forall x, p (f x) = p x) ->
  find p l = Some j ->
  find p (update_first p f l) = Some (f j).
Proof.
  intros Hp. induction l as [|x l IH]; simpl; [discriminate|].
  destruct (p x) eqn:Hx; simpl.
  - intros E. injection E as <-. rewrite Hp, Hx. reflexivity.
  - rewrite Hx. exact IH.
Qed.

Lemma pull_absent (user : string) (l : list string) :
  ~ In user l ->
  filter (fun y => negb (String.eqb y user)) l = l.
Proof.
  induction l as [|y l IH]; intros Hn; [reflexivity|]. simpl.
  destruct (String.eqb_spec y user) as [->|_]; simpl.
  - exfalso. apply Hn. left. reflexivity.
  - f_equal. apply IH. intro H. apply Hn. right. exact H.
Qed.

Lemma jobs_update_one_succeeds (i : option oid) (f : job -> job) (d : db) :
  next_op_succeeds d ->
  exists d',
    jobs_update_one i f d = (Return (existsb (has_id i) (jobs d)), d')
    /\ jobs d' = update_first (has_id i) f (jobs d).
Proof.
  unfold next_op_succeeds, jobs_update_one, store_op.
  destruct (faults d) as [|[|] fs]; intro H; [| contradiction |];
    eexists; split; reflexivity.
Qed.

Lemma jobs_update_one_any (i : option oid) (f : job -> job) (d : db) :
  exists o d',
    jobs_update_one i f d = (o, d')
    /\ (jobs d' = jobs d
        \/ jobs d' = update_first (has_id i) f (jobs d)).
Proof.
  unfold jobs_update_one, store_op.
  destruct (faults d) as [|[|] fs]; do 2 eexists; split;
    try reflexivity; simpl; auto.
Qed.

Lemma log_job_event_returns (now : Z) (job_id ev : string)
  (u : option string) (d : db) :
  exists d', log_job_event now job_id ev u d = (Return tt, d')
             /\ jobs d' = jobs d.
Proof.
  unfold log_job_event, try_except, job_lifecycle_logs_insert_one, store_op,
    ret.
  destruct (faults d) as [|[|] fs]; simpl; eexists; split; reflexivity.
Qed.

Lemma jobs_find_one_any (i : option oid) (d : db) :
  exists o d',
    jobs_find_one i d = (o, d') /\ jobs d' = jobs d
    /\ (o = Raise StoreError \/ o = Return (find (has_id i) (jobs d))).
Proof.
  unfold jobs_find_one, store_op.
  destruct (faults d) as [|[|] fs]; do 2 eexists; split;
    try reflexivity; simpl; auto.
Qed.

Lemma jobs_update_one_modified_any (i : option oid) (f : job -> job)
  (changes : job -> bool) (d : db) :
  exists o d',
    jobs_update_one_modified i f changes d = (o, d')
    /\ (jobs d' = jobs d
        \/ jobs d' = update_first (has_id i) f (jobs d)).
Proof.
  unfold jobs_update_one_modified, store_op.
  destruct (faults d) as [|[|] fs]; do 2 eexists; split;
    try reflexivity; simpl; auto.
Qed.

Lemma mark_job_for_deletion_returns (now : Z) (job_id : string) (days : Z)
  (d : db) :
  exists b d',
    mark_job_for_deletion now job_id days d = (Return b, d')
    /\ (jobs d' = jobs d
        \/ jobs d'
           = update_first (has_id (ObjectId job_id))
               (set_expires_at (Some (now + timedelta_days days)))
               (jobs d)).
Proof.
  unfold mark_job_for_deletion, try_except.
  destruct (negb (ObjectId_is_valid job_id)).
  - exists false, d. split; [reflexivity | left; reflexivity].
  - destruct (jobs_update_one_modified_any (ObjectId job_id)
                (set_expires_at (Some (now + timedelta_days days)))
                (fun j => match expires_at j with
                          | Some e => negb (e =? now + timedelta_days days)
                          | None => true
                          end) d)
      as (o & d' & E & J).
    rewrite E. destruct o as [b|e].
    + exists b, d'. split; [reflexivity | exact J].
    + exists false, d'. split; [reflexivity | exact J].
Qed.

(** What [unsave_job] leaves in [db.jobs] once its update went through. *)
Lemma unsave_job_jobs (now : Z) (job_id user : string) (i : oid) (d : db) :
  ObjectId job_id = Some i ->
  next_op_succeeds d ->
  let after := update_first (has_id (Some i)) (unsave_update user) (jobs d) in
  jobs (snd (unsave_job now job_id user d)) = after
  \/ jobs (snd (unsave_job now job_id user d))
     = update_first (has_id (Some i))
         (set_expires_at (Some (now + timedelta_days 3))) after.
Proof.
  intros Hid Hok after.
  unfold unsave_job, ObjectId_is_valid. rewrite Hid. simpl.
  unfold mbind.
  destruct (jobs_update_one_succeeds (Some i) (unsave_update user) d Hok)
    as (d1 & E1 & J1).
  rewrite E1.
  destruct (log_job_event_returns now job_id "unsaved" (Some user) d1)
    as (d2 & E2 & J2).
  rewrite E2.
  destruct (jobs_find_one_any (Some i) d2) as (o & d3 & E3 & J3 & Ho).
  rewrite E3.
  assert (H3 : jobs d3 = after) by (rewrite J3, J2, J1; reflexivity).
  destruct Ho as [-> | ->]; [left; exact H3|].
  destruct (find (has_id (Some i)) (jobs d2)) as [j2|];
    [|simpl; left; exact H3].
  destruct (falsy_list (saved_by j2) && falsy_list (applied_by j2));
    [|simpl; left; exact H3].
  destruct (mark_job_for_deletion_returns now job_id 3 d3)
    as (b & d4 & E4 & J4).
  rewrite E4. simpl. rewrite Hid in J4. rewrite H3 in J4.
  destruct J4 as [J4|J4]; [left | right]; exact J4.
Qed.

(** C10: unsaving a posting that the user had not saved leaves its saved-by
    collection as it was and still takes one off [save_count]; so a counter
    that agreed with the collection no longer does, and a counter at zero
    becomes negative. *)
Theorem unsave_absent_user_decrements (now : Z) (job_id user : string)
  (i : oid) (j : job) (d : db) :
  ObjectId job_id = Some i ->
  find (has_id (Some i)) (jobs d) = Some j ->
  ~ In user (Matcher.get (saved_by j) []) ->
  next_op_succeeds d ->
  exists j',
    find (has_id (Some i)) (jobs (snd (unsave_job now job_id user d)))
    = Some j'
    /\ saved_by j' = saved_by j
    /\ save_count j' = Some (Matcher.get (save_count j) 0 - 1)
    /\ (save_count j = Some (len (Matcher.get (saved_by j) [])) ->
        save_count j' <> Some (len (Matcher.get (saved_by j') [])))
    /\ (save_count j = Some 0 -> save_count j' = Some (-1)).
Proof.
  intros Hid Hfind Habs Hok.
  assert (Hsaved : saved_by (unsave_update user j) = saved_by j).
  { unfold unsave_update. simpl. unfold pull.
    destruct (saved_by j) as [l|]; [|reflexivity].
    rewrite pull_absent; [reflexivity | exact Habs]. }
  assert (Hcount : save_count (unsave_update user j)
                   = Some (Matcher.get (save_count j) 0 - 1)).
  { unfold unsave_update. simpl. unfold inc.
    destruct (save_count j); simpl; f_equal; lia. }
  assert (Hafter : find (has_id (Some i))
                     (update_first (has_id (Some i)) (unsave_update user)
                        (jobs d))
                   = Some (unsave_update user j)).
  { apply find_update_first; [reflexivity | exact Hfind]. }
  assert (Hfields : forall j', saved_by j' = saved_by j ->
            save_count j' = Some (Matcher.get (save_count j) 0 - 1) ->
            saved_by j' = saved_by j
            /\ save_count j' = Some (Matcher.get (save_count j) 0 - 1)
            /\ (save_count j = Some (len (Matcher.get (saved_by j) [])) ->
                save_count j' <> Some (len (Matcher.get (saved_by j') [])))
            /\ (save_count j = Some 0 -> save_count j' = Some (-1))).
  { intros j' Hs Hc. split; [exact Hs|]. split; [exact Hc|]. split.
    - intros E. rewrite Hc, Hs, E. simpl. intros E'. injection E' as E'. lia.
    - intros E. rewrite Hc, E. reflexivity. }
  destruct (unsave_job_jobs now job_id user i d Hid Hok) as [E|E];
    rewrite E.
  - exists (unsave_update user j). split; [exact Hafter|].
    apply Hfields; assumption.
  - exists (set_expires_at (Some (now + timedelta_days 3))
              (unsave_update user j)).
    split; [apply find_update_first; [reflexivity | exact Hafter]|].
    apply Hfields; assumption.
Qed.

Definition hex24 : string := "0000000000000000000000a1".

(** Unsaving a never-saved posting whose counter is 0 leaves the counter at
    -1 with an empty saved-by collection, and the next synchronization puts
    it back to 0. *)
Lemma unsave_absent_user_decrements_witness :
  let j := fresh_job 161%N "https://jobs.example/161" 0 in
  let d := db_of_jobs [j] in
  let d1 := snd (unsave_job (hours 1) hex24 "alice" d) in
  (exists j',
      find (has_id (Some 161%N)) (jobs d1) = Some j'
      /\ saved_by j' = Some [] /\ save_count j' = Some (-1))
  /\ map save_count (jobs (snd (sync_job_counts (hours 2) d1))) = [Some 0].
Proof.
  intros j d d1. split.
  - destruct (unsave_absent_user_decrements (hours 1) hex24 "alice" 161%N j d)
      as (j' & Hf & Hs & Hc & _ & _).
    + reflexivity.
    + reflexivity.
    + simpl. tauto.
    + exact I.
    + exists j'. split; [exact Hf|]. split; [exact Hs | exact Hc].
  - vm_compute. reflexivity.
Defined.

End LifecycleProps.

(* ================================================================== *)
(** * Properties of the apply operations *)
(* ================================================================== *)

Module ApplyProps.
Import Py Store Lifecycle Jobs Apply.
Import MatcherProps LifecycleProps.
Local Open Scope string_scope.
Local Open Scope Z_scope.

(** A posting with an expiry marker has no applicant and no saver. *)
Definition expiry_invariant (j : job) : Prop :=
  expires_at j <> None -> no_interaction j.

Lemma apply_update_clears_expiry (user : string) (now : Z) (i : oid)
  (j : job) :
  expires_at (apply_update user now i j) = None
  /\ expiry_invariant (apply_update user now i j).
Proof.
  split; [reflexivity|]. intros H. exfalso. apply H. reflexivity.
Qed.

Lemma external_update_keeps_expiry (user : string) (now : Z) (i : oid)
  (j : job) :
  expires_at (external_update user now i j) = expires_at j
  /\ Matcher.get (applied_by (external_update user now i j)) [] <> [].
Proof.
  split; [reflexivity|]. simpl. unfold push.
  destruct (applied_by j) as [l|]; simpl; [|discriminate].
  destruct l; discriminate.
Qed.

(** A posting that was unsaved by its last saver: it carries an expiry
    marker and has no interaction. *)
Definition marked_job : job :=
  set_expires_at (Some (hours 72))
    (fresh_job 161%N "https://jobs.example/161" 0).

Definition a_resume : resume :=
  {| resume_oid := 7%N; resume_user_id := "alice";
     filename := Some "cv.pdf"; skills := Some ["python"];
     experience := Some [] |}.

Definition marked_db : db :=
  {| jobs := [marked_job]; applications := []; resumes := [a_resume];
     user_preferences := []; system_logs := []; job_lifecycle_logs := [];
     next_oid := 1000%N; faults := [] |}.

(** C3, where the code departs from it: marking an external application on
    a posting that carries an expiry marker succeeds, records the applicant
    and leaves the marker in place, which breaks the invariant that a marker
    goes with no applicant; the in-app apply on the same posting clears the
    marker. *)
Theorem mark_external_application_keeps_expiry_marker :
  expiry_invariant marked_job
  /\ (exists r j',
        mark_external_application (hours 1) hex24 "alice" marked_db
        = (Return r, set_next_oid 1001%N
                       (set_applications
                          [{| app_oid := 1000%N; app_user_id := "alice";
                              app_job_id := hex24; app_resume_id := None;
                              app_external_application := true;
                              app_match_score := PyInt 0;
                              app_status := "Applied";
                              app_created_at := hours 1;
                              app_job_details := a_posting |}]
                          (set_jobs [j'] marked_db)))
        /\ expires_at j' = Some (hours 72)
        /\ Matcher.get (applied_by j') [] <> []
        /\ ~ expiry_invariant j')
  /\ (exists r d' j',
        apply_to_job (hours 1) (PyFloat (flt 80)) hex24 None "alice" marked_db
        = (Return r, d')
        /\ jobs d' = [j']
        /\ expires_at j' = None
        /\ Matcher.get (applied_by j') [] <> []).
Proof.
  split; [|split].
  - intros _. split; reflexivity.
  - eexists. exists (external_update "alice" (hours 1) 1000%N marked_job).
    split; [vm_compute; reflexivity|].
    split; [reflexivity|]. split; [discriminate|].
    intros H. assert (Hm : expires_at (external_update "alice" (hours 1)
                                         1000%N marked_job) <> None)
      by discriminate.
    destruct (H Hm) as [Ha _]. discriminate Ha.
  - do 2 eexists. exists (apply_update "alice" (hours 1) 1000%N marked_job).
    split; [vm_compute; reflexivity|].
    split; [reflexivity|]. split; [reflexivity | discriminate].
Qed.

End ApplyProps.

(* ================================================================== *)
(** * Properties of ingestion *)
(* ================================================================== *)

Module IngestProps.
Import Py Store Scraper Orchestrator.
Import MatcherProps LifecycleProps.
Local Open Scope string_scope.
Local Open Scope Z_scope.

(** ** Deduplication *)

(** The posting has a source URL and the store holds a job with it. *)
Definition already_stored (d : db) (j : job) : Prop :=
  exists u, job_url j = Some u /\ existsb (has_url u) (jobs d) = true.

Lemma existsb_find {A} (p : A -> bool) (l : list A) :
  existsb p l = true -> exists x, find p l = Some x.
Proof.
  induction l as [|a l IH]; simpl; [discriminate|].
  destruct (p a); [eexists; reflexivity | exact IH].
Qed.

(** One turn of the loop on a posting that is already stored. *)
Lemma store_one_duplicate (process_job : job -> outcome job) (j : job)
  (c : counters) (d : db) :
  already_stored d j ->
  exists c' d',
    store_one process_job j c d = (Return c', d')
    /\ stored_count c' = stored_count c
    /\ jobs d' = jobs d
    /\ duplicate_count c' + error_count c'
       = duplicate_count c + error_count c + 1
    /\ (faults d = [] ->
        duplicate_count c' = duplicate_count c + 1
        /\ error_count c' = error_count c /\ d' = d).
Proof.
  intros (u & Hu & Hex).
  destruct (existsb_find _ _ Hex) as (x & Hx).
  unfold store_one, try_except, mbind, lift, subscript_job_url,
    check_duplicate, mbind, jobs_find_one_by_url, store_op, ret.
  rewrite Hu.
  destruct (faults d) as [|[|] fs] eqn:Hf; simpl; try rewrite Hx;
    do 2 eexists; (split; [reflexivity|]); simpl;
    repeat split; try lia; try discriminate.
Qed.

Lemma store_each_duplicates (process_job : job -> outcome job)
  (found : list job) :
  forall (c : counters) (d : db),
  (forall j, In j found -> already_stored d j) ->
  exists c' d',
    store_each process_job found c d = (Return c', d')
    /\ stored_count c' = stored_count c
    /\ jobs d' = jobs d
    /\ duplicate_count c' + error_count c'
       = duplicate_count c + error_count c + len found
    /\ (faults d = [] ->
        duplicate_count c' = duplicate_count c + len found
        /\ error_count c' = error_count c /\ d' = d).
Proof.
  induction found as [|j rest IH]; intros c d Hall.
  - exists c, d. unfold len. simpl. repeat split; lia.
  - destruct (store_one_duplicate process_job j c d (Hall j (or_introl eq_refl)))
      as (c1 & d1 & E1 & S1 & J1 & N1 & F1).
    destruct (IH c1 d1) as (c2 & d2 & E2 & S2 & J2 & N2 & F2).
    { intros j' Hin. destruct (Hall j' (or_intror Hin)) as (u & Hu & Hex).
      exists u. split; [exact Hu|]. rewrite J1. exact Hex. }
    exists c2, d2. simpl. unfold mbind. rewrite E1, E2.
    split; [reflexivity|]. split; [congruence|]. split; [congruence|].
    assert (Hlen : len (j :: rest) = len rest + 1)
      by (unfold len; simpl List.length; lia).
    split; [lia|].
    intros Hf. destruct (F1 Hf) as (D1 & G1 & ->).
    destruct (F2 Hf) as (D2 & G2 & ->).
    repeat split; lia.
Qed.

Lemma scrape_and_store_duplicates (self : scraper)
  (process_job : job -> outcome job) (limit : Z) (found : list job)
  (d : db) :
  scrape_jobs self limit = Return found ->
  (forall j, In j found -> already_stored d j) ->
  exists res d',
    scrape_and_store self process_job limit d = (Return res, d')
    /\ stored res = 0
    /\ jobs d' = jobs d
    /\ scraped res = len found
    /\ duplicates res + errors res = len found
    /\ (faults d = [] ->
        duplicates res = len found /\ errors res = 0 /\ d' = d).
Proof.
  intros Hscrape Hall.
  unfold scrape_and_store, try_except, mbind, lift. rewrite Hscrape.
  destruct found as [|j rest].
  - simpl. do 2 eexists. split; [reflexivity|]. simpl.
    repeat split; reflexivity.
  - change (is_empty (j :: rest)) with false. cbv iota.
    destruct (store_each_duplicates process_job (j :: rest)
                {| stored_count := 0; duplicate_count := 0;
                   error_count := 0 |} d Hall)
      as (c & d' & E & S & J & N & F).
    rewrite E. do 2 eexists. split; [reflexivity|]. simpl in *.
    split; [exact S|]. split; [exact J|]. split; [reflexivity|].
    split; [lia|].
    intros Hf. destruct (F Hf) as (D & G & ->). repeat split; lia.
Qed.

(** C2: a pass over postings whose source URLs are all in the store already
    stores nothing and leaves [db.jobs] as it was; every posting is counted
    as a duplicate, or as an error when the store fails to answer the lookup,
    and with a store that answers all of them are duplicates. *)
Theorem rerun_stores_nothing (self : scraper)
  (process_job : job -> outcome job) (limit : Z) (found : list job)
  (d : db) :
  scrape_jobs self limit = Return found ->
  (forall j, In j found -> already_stored d j) ->
  exists res d',
    scrape_and_store self process_job limit d = (Return res, d')
    /\ stored res = 0
    /\ jobs d' = jobs d
    /\ scraped res = len found
    /\ duplicates res + errors res = len found
    /\ (faults d = [] ->
        duplicates res = len found /\ errors res = 0 /\ d' = d).
Proof. exact (scrape_and_store_duplicates self process_job limit found d). Qed.

Definition two_jobs : list job :=
  [fresh_job 1%N "https://jobs.example/1" 0;
   fresh_job 2%N "https://jobs.example/2" 0].

Definition fixed_scraper (l : list job) : scraper :=
  {| platform_name := "RemoteOK"; scrape_jobs := fun _ => Return l |}.

Definition no_enrichment (j : job) : outcome job := Return j.

(** Two postings scraped again over a store that holds both. *)
Lemma rerun_stores_nothing_witness :
  exists res d',
    scrape_and_store (fixed_scraper two_jobs) no_enrichment 50
                     (db_of_jobs two_jobs)
    = (Return res, d')
    /\ stored res = 0 /\ duplicates res = 2.
Proof.
  destruct (rerun_stores_nothing (fixed_scraper two_jobs) no_enrichment 50
              two_jobs (db_of_jobs two_jobs))
    as (res & d' & E & S & _ & _ & _ & F).
  - reflexivity.
  - intros j [<-|[<-|[]]]; eexists; split; reflexivity.
  - exists res, d'. split; [exact E|]. split; [exact S|].
    destruct (F eq_refl) as (D & _ & _). exact D.
Defined.

(** *** Two passes in a row *)

(** The enrichment step keeps the source URL of the postings it returns. *)
Definition keeps_url (process_job : job -> outcome job) : Prop :=
  forall j j', process_job j = Return j' -> job_url j' = job_url j.

Lemma has_url_set_id (u : string) (i : option oid) (j : job) :
  has_url u (set_id i j) = has_url u j.
Proof. reflexivity. Qed.

Lemma store_one_healthy (process_job : job -> outcome job) (j : job)
  (c : counters) (d : db) (u : string) :
  keeps_url process_job ->
  job_url j = Some u ->
  faults d = [] ->
  exists c' d' extra,
    store_one process_job j c d = (Return c', d')
    /\ faults d' = []
    /\ jobs d' = (jobs d ++ extra)%list
    /\ existsb (has_url u) (jobs d') = true.
Proof.
  intros Hkeep Hu Hf.
  unfold store_one, try_except, mbind, lift, subscript_job_url,
    check_duplicate, mbind, jobs_find_one_by_url, jobs_insert_one, store_op,
    ret.
  rewrite Hu, Hf. simpl.
  destruct (find (has_url u) (jobs d)) as [x|] eqn:Hfind.
  - exists {| stored_count := stored_count c;
              duplicate_count := duplicate_count c + 1;
              error_count := error_count c |}, d, [].
    split; [reflexivity|]. split; [exact Hf|].
    split; [rewrite app_nil_r; reflexivity|].
    apply existsb_exists. exists x.
    apply find_some in Hfind. exact Hfind.
  - assert (Hdoc : forall j', job_url j' = Some u ->
              has_url u (match _id j' with
                         | Some _ => j'
                         | None => set_id (Some (next_oid d)) j'
                         end) = true).
    { intros j' Hj'. destruct (_id j'); [|rewrite has_url_set_id];
        unfold has_url; rewrite Hj'; apply String.eqb_refl. }
    destruct (process_job j) as [j'|e] eqn:Hp; rewrite Hf; simpl.
    + do 3 eexists. split; [reflexivity|]. simpl.
      split; [exact Hf|]. split; [reflexivity|].
      rewrite existsb_app. simpl. rewrite Hdoc; [apply orb_true_r|].
      rewrite (Hkeep j j' Hp). exact Hu.
    + do 3 eexists. split; [reflexivity|]. simpl.
      split; [exact Hf|]. split; [reflexivity|].
      rewrite existsb_app. simpl. rewrite Hdoc; [apply orb_true_r | exact Hu].
Qed.

Lemma store_each_healthy (process_job : job -> outcome job)
  (found : list job) :
  keeps_url process_job ->
  (forall j, In j found -> job_url j <> None) ->
  forall (c : counters) (d : db),
  faults d = [] ->
  exists c' d' extra,
    store_each process_job found c d = (Return c', d')
    /\ faults d' = []
    /\ jobs d' = (jobs d ++ extra)%list
    /\ (forall j, In j found -> already_stored d' j).
Proof.
  intros Hkeep. induction found as [|j rest IH]; intros Hurl c d Hf.
  - exists c, d, []. split; [reflexivity|]. split; [exact Hf|].
    split; [rewrite app_nil_r; reflexivity | intros j []].
  - destruct (job_url j) as [u|] eqn:Hu;
      [|exfalso; apply (Hurl j); [left; reflexivity | exact Hu]].
    destruct (store_one_healthy process_job j c d u Hkeep Hu Hf)
      as (c1 & d1 & x1 & E1 & F1 & J1 & P1).
    destruct (IH (fun j' H => Hurl j' (or_intror H)) c1 d1 F1)
      as (c2 & d2 & x2 & E2 & F2 & J2 & P2).
    exists c2, d2, (x1 ++ x2)%list. simpl. unfold mbind. rewrite E1, E2.
    split; [reflexivity|]. split; [exact F2|].
    split; [rewrite J2, J1, app_assoc; reflexivity|].
    intros j' [<-|Hin]; [|apply P2; exact Hin].
    exists u. split; [exact Hu|].
    rewrite J2, existsb_app, P1. reflexivity.
Qed.

(** Ingestion twice in a row: when every scraped posting has a source URL,
    the enrichment keeps it and the store answers, the second pass over the
    same postings stores nothing and counts them all as duplicates. *)
Lemma scrape_twice_stores_nothing (self : scraper)
  (process_job : job -> outcome job) (limit : Z) (found : list job)
  (d : db) :
  scrape_jobs self limit = Return found ->
  keeps_url process_job ->
  (forall j, In j found -> job_url j <> None) ->
  faults d = [] ->
  exists res1 d1 res2,
    scrape_and_store self process_job limit d = (Return res1, d1)
    /\ scrape_and_store self process_job limit d1 = (Return res2, d1)
    /\ stored res2 = 0
    /\ duplicates res2 = len found
    /\ errors res2 = 0.
Proof.
  intros Hscrape Hkeep Hurl Hf.
  assert (Hfirst : exists res1 d1,
            scrape_and_store self process_job limit d = (Return res1, d1)
            /\ faults d1 = []
            /\ (forall j, In j found -> already_stored d1 j)).
  { unfold scrape_and_store, try_except, mbind, lift. rewrite Hscrape.
    destruct found as [|j rest].
    - simpl. do 2 eexists. split; [reflexivity|].
      split; [exact Hf | intros j []].
    - change (is_empty (j :: rest)) with false. cbv iota.
      destruct (store_each_healthy process_job (j :: rest) Hkeep Hurl
                  {| stored_count := 0; duplicate_count := 0;
                     error_count := 0 |} d Hf)
        as (c & d1 & x & E & F & _ & P).
      rewrite E. do 2 eexists. split; [reflexivity|].
      split; [exact F | exact P]. }
  destruct Hfirst as (res1 & d1 & E1 & F1 & P1).
  destruct (scrape_and_store_duplicates self process_job limit found d1
              Hscrape P1)
    as (res2 & d2 & E2 & S2 & _ & _ & _ & G2).
  destruct (G2 F1) as (D2 & R2 & ->).
  exists res1, d1, res2. repeat split; assumption.
Qed.

(** ** Isolation of failures *)

Definition three_jobs : list job :=
  [fresh_job 1%N "https://jobs.example/1" 0;
   fresh_job 2%N "https://jobs.example/2" 0;
   fresh_job 3%N "https://jobs.example/3" 0].

(** The store fails on the first insertion and on nothing else: lookup,
    failed insertion, and then every operation succeeds. *)
Definition first_insert_fails : db :=
  {| jobs := []; applications := []; resumes := []; user_preferences := [];
     system_logs := []; job_lifecycle_logs := []; next_oid := 1000%N;
     faults := [false; true] |}.

(** C9, as stated, fails: when storing the first of three postings fails,
    the result record has an error and the two other postings stored, not
    zero. *)
Lemma partial_store_counterexample :
  exists res d',
    scrape_and_store (fixed_scraper three_jobs) no_enrichment 50
                     first_insert_fails
    = (Return res, d')
    /\ errors res = 1
    /\ stored res = 2
    /\ map job_url (jobs d')
       = [Some "https://jobs.example/2"; Some "https://jobs.example/3"]
    /\ ~ (stored res = 0 /\ errors res <> 0).
Proof.
  do 2 eexists. split; [vm_compute; reflexivity|]. simpl.
  split; [reflexivity|]. split; [reflexivity|]. split; [reflexivity|].
  intros [H _]. discriminate H.
Qed.

Definition tally (c : counters) : Z :=
  stored_count c + duplicate_count c + error_count c.

Lemma check_duplicate_any (url : string) (d : db) :
  exists o d', check_duplicate url d = (o, d') /\ jobs d' = jobs d.
Proof.
  unfold check_duplicate, mbind, jobs_find_one_by_url, store_op, ret.
  destruct (faults d) as [|[|] fs]; simpl; do 2 eexists; split; reflexivity.
Qed.

Lemma jobs_insert_one_any (j : job) (d : db) :
  exists o d',
    jobs_insert_one j d = (o, d')
    /\ ((exists i, o = Return i /\ len (jobs d') = len (jobs d) + 1)
        \/ (exists e, o = Raise e /\ jobs d' = jobs d)).
Proof.
  assert (Hlen : forall x : job, len (jobs d ++ [x]) = len (jobs d) + 1).
  { intros x. unfold len. rewrite length_app. simpl. lia. }
  unfold jobs_insert_one, store_op.
  destruct (faults d) as [|[|] fs]; simpl; do 2 eexists;
    (split; [reflexivity|]); simpl.
  - left. eexists. split; [reflexivity | apply Hlen].
  - right. eexists. split; reflexivity.
  - left. eexists. split; [reflexivity | apply Hlen].
Qed.

Lemma store_one_returns (process_job : job -> outcome job) (j : job)
  (c : counters) (d : db) :
  exists c' d',
    store_one process_job j c d = (Return c', d')
    /\ tally c' = tally c + 1
    /\ stored_count c <= stored_count c'
    /\ error_count c <= error_count c'
    /\ len (jobs d') = len (jobs d) + (stored_count c' - stored_count c).
Proof.
  unfold store_one, try_except, mbind, lift, subscript_job_url, tally.
  destruct (job_url j) as [u|];
    [|do 2 eexists; split; [reflexivity|]; simpl; repeat split; lia].
  destruct (check_duplicate_any u d) as (o & d1 & E1 & J1). rewrite E1.
  destruct o as [[|]|e];
    try (do 2 eexists; split; [reflexivity|]; simpl; rewrite J1;
         repeat split; lia).
  assert (Hins : forall j' : job,
            exists c' d',
              (let (o, d') :=
                 let (o, d') := jobs_insert_one j' d1 in
                 match o with
                 | Return _ =>
                   ret {| stored_count := stored_count c + 1;
                          duplicate_count := duplicate_count c;
                          error_count := error_count c |} d'
                 | Raise e => (Raise e, d')
                 end in
               match o with
               | Return a => (Return a, d')
               | Raise _ =>
                 ret {| stored_count := stored_count c;
                        duplicate_count := duplicate_count c;
                        error_count := error_count c + 1 |} d'
               end) = (Return c', d')
              /\ stored_count c' + duplicate_count c' + error_count c'
                 = stored_count c + duplicate_count c + error_count c + 1
              /\ stored_count c <= stored_count c'
              /\ error_count c <= error_count c'
              /\ len (jobs d')
                 = len (jobs d) + (stored_count c' - stored_count c)).
  { intros j'.
    destruct (jobs_insert_one_any j' d1)
      as (o & d2 & E2 & [(i & -> & L2)|(e & -> & J2)]); rewrite E2;
      unfold ret; do 2 eexists; (split; [reflexivity|]); simpl;
      rewrite <- ?J1, ?J2; repeat split; lia. }
  destruct (process_job j) as [j'|e]; simpl; apply Hins.
Qed.

Lemma store_each_returns (process_job : job -> outcome job)
  (found : list job) :
  forall (c : counters) (d : db),
  exists c' d',
    store_each process_job found c d = (Return c', d')
    /\ tally c' = tally c + len found
    /\ stored_count c <= stored_count c'
    /\ error_count c <= error_count c'
    /\ len (jobs d') = len (jobs d) + (stored_count c' - stored_count c).
Proof.
  induction found as [|j rest IH]; intros c d.
  - exists c, d. split; [reflexivity|]. unfold len. simpl.
    repeat split; lia.
  - destruct (store_one_returns process_job j c d)
      as (c1 & d1 & E1 & T1 & S1 & R1 & L1).
    destruct (IH c1 d1) as (c2 & d2 & E2 & T2 & S2 & R2 & L2).
    exists c2, d2. simpl. unfold mbind. rewrite E1, E2.
    assert (Hlen : len (j :: rest) = len rest + 1)
      by (unfold len; simpl List.length; lia).
    split; [reflexivity|]. repeat split; lia.
Qed.

Lemma scrape_and_store_returns (self : scraper)
  (process_job : job -> outcome job) (limit : Z) (d : db) :
  exists res d',
    scrape_and_store self process_job limit d = (Return res, d')
    /\ platform res = platform_name self
    /\ 0 <= stored res
    /\ 0 <= errors res
    /\ len (jobs d') = len (jobs d) + stored res
    /\ (forall e, scrape_jobs self limit = Raise e ->
          scraped res = 0 /\ stored res = 0 /\ errors res = 1
          /\ error_message res = Some e /\ d' = d)
    /\ (forall found, scrape_jobs self limit = Return found ->
          scraped res = len found
          /\ stored res + duplicates res + errors res = len found).
Proof.
  unfold scrape_and_store, try_except, mbind, lift.
  destruct (scrape_jobs self limit) as [found|e].
  - destruct found as [|j rest].
    + simpl. do 2 eexists. split; [reflexivity|]. simpl.
      split; [reflexivity|]. split; [lia|]. split; [lia|]. split; [lia|].
      split; [intros e E; discriminate E|].
      intros found' E. injection E as <-. split; reflexivity.
    + change (is_empty (j :: rest)) with false. cbv iota.
      destruct (store_each_returns process_job (j :: rest)
                  {| stored_count := 0; duplicate_count := 0;
                     error_count := 0 |} d)
        as (c & d' & E & T & S & R & L).
      rewrite E. do 2 eexists. split; [reflexivity|].
      unfold tally in T. simpl in *.
      split; [reflexivity|]. split; [lia|]. split; [lia|]. split; [lia|].
      split; [intros e E'; discriminate E'|].
      intros found' E'. injection E' as <-. split; [reflexivity | lia].
  - do 2 eexists. split; [reflexivity|]. simpl.
    split; [reflexivity|]. split; [lia|]. split; [lia|]. split; [lia|].
    split.
    + intros e' E. injection E as <-. repeat split; reflexivity.
    + intros found' E. discriminate E.
Qed.

Definition sum_by (f : scrape_result -> Z) (l : list scrape_result) : Z :=
  fold_right (fun r acc => f r + acc) 0 l.

Lemma gather_returns (self_list : list scraper)
  (process_job : job -> outcome job) (limit : Z) :
  forall d,
  exists rs d',
    gather (map (fun s => scrape_and_store s process_job limit) self_list) d
    = (map Return rs, d')
    /\ map platform rs = map platform_name self_list.
Proof.
  induction self_list as [|s rest IH]; intros d.
  - exists [], d. split; reflexivity.
  - destruct (scrape_and_store_returns s process_job limit d)
      as (r & d1 & E1 & P1 & _).
    destruct (IH d1) as (rs & d2 & E2 & P2).
    exists (r :: rs), d2. simpl. rewrite E1, E2.
    split; [reflexivity|]. simpl. rewrite P1, P2. reflexivity.
Qed.

Lemma fold_aggregate_returns (rs : list scrape_result) :
  forall t,
  let t' := fold_left aggregate_one (map Return rs) t in
  total_scraped t' = total_scraped t + sum_by scraped rs
  /\ total_stored t' = total_stored t + sum_by stored rs
  /\ total_duplicates t' = total_duplicates t + sum_by duplicates rs
  /\ total_errors t' = total_errors t + sum_by errors rs
  /\ platform_results t' = (platform_results t ++ rs)%list.
Proof.
  induction rs as [|r rs IH]; intros t; simpl.
  - rewrite app_nil_r. repeat split; lia.
  - destruct (IH (aggregate_one t (Return r))) as (A & B & C & D & E).
    simpl in A, B, C, D, E. rewrite A, B, C, D, E, <- app_assoc. simpl.
    repeat split; lia.
Qed.

Lemma _log_scraping_event_returns (now : Z) (t : totals) (d : db) :
  exists d', _log_scraping_event now t d = (Return tt, d').
Proof.
  unfold _log_scraping_event, try_except, Lifecycle.system_logs_insert_one,
    store_op, ret.
  destruct (faults d) as [|[|] fs]; simpl; eexists; reflexivity.
Qed.

(** *** Failures and what they cost *)

(** The failures among the coming store operations. *)
Fixpoint count_failures (fs : list bool) : Z :=
  match fs with
  | [] => 0
  | b :: r => count_failures r + (if b then 1 else 0)
  end.

(** The store operations that failed between the state [d] and the later
    state [d'] of a run. *)
Definition failed_operations (d d' : db) : Z :=
  count_failures (faults d) - count_failures (faults d').

(** The posting has no source URL: reading [job["job_url"]] raises. *)
Definition lacks_url (j : job) : bool :=
  match job_url j with None => true | Some _ => false end.

Definition no_counts : counters :=
  {| stored_count := 0; duplicate_count := 0; error_count := 0 |}.

(** The store after the first [k] of the scraped postings went through the
    loop of [scrape_and_store]. *)
Definition state_after (process_job : job -> outcome job) (found : list job)
  (d : db) (k : nat) : db :=
  snd (store_each process_job (firstn k found) no_counts d).

Lemma existsb_has_url_find (u : string) (l : list job) (x : job) :
  find (has_url u) l = Some x -> existsb (has_url u) l = true.
Proof.
  intros H. apply find_some in H. apply existsb_exists.
  exists x. exact H.
Qed.

(** One turn of the loop: the store only grows, the turn is an error
    exactly when a store operation failed or the posting has no URL, and
    without such a failure the posting's URL is in the store afterwards. *)
Lemma store_one_fate (process_job : job -> outcome job) (j : job)
  (c : counters) (d : db) :
  exists c' d' added,
    store_one process_job j c d = (Return c', d')
    /\ jobs d' = (jobs d ++ added)%list
    /\ 0 <= failed_operations d d'
    /\ error_count c'
       = error_count c + failed_operations d d'
         + (if lacks_url j then 1 else 0)
    /\ (keeps_url process_job ->
        forall u, job_url j = Some u ->
        failed_operations d d' = 0 ->
        existsb (has_url u) (jobs d') = true).
Proof.
  unfold store_one, try_except, mbind, lift, subscript_job_url,
    failed_operations, lacks_url.
  destruct (job_url j) as [u|] eqn:Hu.
  2:{ exists {| stored_count := stored_count c;
                duplicate_count := duplicate_count c;
                error_count := error_count c + 1 |}, d, [].
      split; [reflexivity|]. rewrite app_nil_r. simpl.
      split; [reflexivity|]. split; [lia|]. split; [lia|].
      intros _ u' Hu'. discriminate Hu'. }
  assert (Hself : has_url u j = true)
    by (unfold has_url; rewrite Hu; apply String.eqb_refl).
  assert (Hdoc : forall (j' : job) (i : oid),
            has_url u j' = true ->
            has_url u (match _id j' with
                       | Some _ => j'
                       | None => set_id (Some i) j'
                       end) = true).
  { intros j' i Hj'. destruct (_id j'); [exact Hj'|].
    rewrite has_url_set_id. exact Hj'. }
  assert (Hadd : forall (l : list job) (x : job),
            has_url u x = true -> existsb (has_url u) (l ++ [x]) = true).
  { intros l x Hx. rewrite existsb_app. simpl. rewrite Hx.
    rewrite orb_true_r. reflexivity. }
  unfold check_duplicate, mbind, jobs_find_one_by_url, store_op, ret.
  destruct (faults d) as [|[|] fs] eqn:Hf; cbn [count_failures].
  - (* the store answers from now on *)
    destruct (find (has_url u) (jobs d)) as [x|] eqn:Hfind.
    + do 2 eexists. exists []. split; [reflexivity|]. simpl.
      rewrite app_nil_r, Hf. cbn [count_failures].
      split; [reflexivity|]. split; [lia|]. split; [lia|].
      intros _ u' Hu' _. injection Hu' as <-.
      exact (existsb_has_url_find u _ x Hfind).
    + assert (Hins : forall j' : job,
                has_url u j' = true ->
                exists c' d' added,
                  (let (o, d') :=
                     let (o, d') := jobs_insert_one j' d in
                     match o with
                     | Return _ =>
                       (Return {| stored_count := stored_count c + 1;
                                  duplicate_count := duplicate_count c;
                                  error_count := error_count c |}, d')
                     | Raise e => (Raise e, d')
                     end in
                   match o with
                   | Return a => (Return a, d')
                   | Raise _ =>
                     (Return {| stored_count := stored_count c;
                                duplicate_count := duplicate_count c;
                                error_count := error_count c + 1 |}, d')
                   end) = (Return c', d')
                  /\ jobs d' = (jobs d ++ added)%list
                  /\ 0 <= 0 - count_failures (faults d')
                  /\ error_count c'
                     = error_count c + (0 - count_failures (faults d')) + 0
                  /\ (keeps_url process_job ->
                      forall u0, Some u = Some u0 ->
                      0 - count_failures (faults d') = 0 ->
                      existsb (has_url u0) (jobs d') = true)).
      { intros j' Hj'. unfold jobs_insert_one, store_op. rewrite Hf.
        do 2 eexists.
        exists [match _id j' with
                | Some _ => j'
                | None => set_id (Some (next_oid d)) j'
                end].
        split; [reflexivity|]. simpl. rewrite Hf. cbn [count_failures].
        split; [reflexivity|]. split; [lia|]. split; [lia|].
        intros _ u0 E _. injection E as <-.
        apply Hadd, Hdoc, Hj'. }
      simpl.
      destruct (process_job j) as [j'|e] eqn:Hp; simpl.
      * assert (Hk : keeps_url process_job -> has_url u j' = true).
        { intros Hkeep. unfold has_url.
          rewrite (Hkeep j j' Hp), Hu. apply String.eqb_refl. }
        unfold jobs_insert_one, store_op. rewrite Hf.
        do 2 eexists.
        exists [match _id j' with
                | Some _ => j'
                | None => set_id (Some (next_oid d)) j'
                end].
        split; [reflexivity|]. simpl. rewrite Hf. cbn [count_failures].
        split; [reflexivity|]. split; [lia|]. split; [lia|].
        intros Hkeep u0 E _. injection E as <-.
        apply Hadd, Hdoc, Hk, Hkeep.
      * destruct (Hins j Hself) as (c' & d' & added & E & R).
        exists c', d', added. split; [exact E | exact R].
  - (* the lookup fails *)
    do 2 eexists. exists []. split; [reflexivity|]. simpl.
    rewrite app_nil_r.
    split; [reflexivity|]. split; [lia|]. split; [lia|].
    intros _ u0 _ H. exfalso. lia.
  - (* the lookup succeeds *)
    destruct (find (has_url u) (jobs (set_faults fs d))) as [x|] eqn:Hfind;
      simpl in Hfind.
    + do 2 eexists. exists []. split; [reflexivity|]. simpl.
      rewrite app_nil_r.
      split; [reflexivity|]. split; [lia|]. split; [lia|].
      intros _ u' Hu' _. injection Hu' as <-.
      exact (existsb_has_url_find u _ x Hfind).
    + simpl.
      assert (Hins : forall j' : job,
                (keeps_url process_job -> has_url u j' = true) ->
                exists c' d' added,
                  (let (o, d') :=
                     let (o, d') := jobs_insert_one j' (set_faults fs d) in
                     match o with
                     | Return _ =>
                       (Return {| stored_count := stored_count c + 1;
                                  duplicate_count := duplicate_count c;
                                  error_count := error_count c |}, d')
                     | Raise e => (Raise e, d')
                     end in
                   match o with
                   | Return a => (Return a, d')
                   | Raise _ =>
                     (Return {| stored_count := stored_count c;
                                duplicate_count := duplicate_count c;
                                error_count := error_count c + 1 |}, d')
                   end) = (Return c', d')
                  /\ jobs d' = (jobs d ++ added)%list
                  /\ 0 <= count_failures fs + 0 - count_failures (faults d')
                  /\ error_count c'
                     = error_count c
                       + (count_failures fs + 0 - count_failures (faults d'))
                       + 0
                  /\ (keeps_url process_job ->
                      forall u0, Some u = Some u0 ->
                      count_failures fs + 0 - count_failures (faults d') = 0 ->
                      existsb (has_url u0) (jobs d') = true)).
      { intros j' Hj'. unfold jobs_insert_one, store_op. simpl.
        destruct fs as [|[|] fs']; cbn [count_failures].
        - do 2 eexists.
          exists [match _id j' with
                  | Some _ => j'
                  | None => set_id (Some (next_oid d)) j'
                  end].
          split; [reflexivity|]. simpl. cbn [count_failures].
          split; [reflexivity|]. split; [lia|]. split; [lia|].
          intros Hkeep u0 E _. injection E as <-.
          apply Hadd, Hdoc, Hj', Hkeep.
        - do 2 eexists. exists []. split; [reflexivity|]. simpl.
          rewrite app_nil_r.
          split; [reflexivity|]. split; [lia|]. split; [lia|].
          intros _ u0 _ H. exfalso. lia.
        - do 2 eexists.
          exists [match _id j' with
                  | Some _ => j'
                  | None => set_id (Some (next_oid d)) j'
                  end].
          split; [reflexivity|]. simpl.
          split; [reflexivity|]. split; [lia|]. split; [lia|].
          intros Hkeep u0 E _. injection E as <-.
          apply Hadd, Hdoc, Hj', Hkeep. }
      destruct (process_job j) as [j'|e] eqn:Hp; simpl.
      * apply Hins. intros Hkeep. unfold has_url.
        rewrite (Hkeep j j' Hp), Hu. apply String.eqb_refl.
      * apply Hins. intros _. exact Hself.
Qed.

Lemma store_each_fate (process_job : job -> outcome job)
  (found : list job) :
  forall (c : counters) (d : db),
  exists c' d' added,
    store_each process_job found c d = (Return c', d')
    /\ jobs d' = (jobs d ++ added)%list
    /\ 0 <= failed_operations d d'
    /\ error_count c'
       = error_count c + failed_operations d d'
         + len (filter lacks_url found).
Proof.
  induction found as [|j rest IH]; intros c d.
  - exists c, d, []. split; [reflexivity|]. rewrite app_nil_r.
    unfold failed_operations, len. simpl. repeat split; lia.
  - destruct (store_one_fate process_job j c d)
      as (c1 & d1 & a1 & E1 & J1 & F1 & R1 & _).
    destruct (IH c1 d1) as (c2 & d2 & a2 & E2 & J2 & F2 & R2).
    exists c2, d2, (a1 ++ a2)%list. simpl store_each. unfold mbind.
    rewrite E1, E2. split; [reflexivity|].
    split; [rewrite J2, J1, app_assoc; reflexivity|].
    unfold failed_operations in *. split; [lia|].
    simpl filter. destruct (lacks_url j); unfold len in *;
      simpl List.length; lia.
Qed.

Lemma store_each_app (process_job : job -> outcome job)
  (l1 l2 : list job) :
  forall (c : counters) (d : db),
  store_each process_job (l1 ++ l2) c d
  = store_each process_job l2
      (match fst (store_each process_job l1 c d) with
       | Return c1 => c1
       | Raise _ => c
       end)
      (snd (store_each process_job l1 c d)).
Proof.
  induction l1 as [|j rest IH]; intros c d; [reflexivity|].
  simpl. unfold mbind.
  destruct (store_one_returns process_job j c d) as (c1 & d1 & E1 & _).
  rewrite E1. rewrite IH.
  destruct (store_each_returns process_job rest c1 d1)
    as (c2 & d2 & E2 & _).
  rewrite E2. reflexivity.
Qed.

(** A posting that went through the loop without a failing store operation
    has its URL in the store when the loop ends, whatever happened to the
    postings before and after it. *)
Lemma store_each_isolates (process_job : job -> outcome job)
  (found : list job) (d : db) (k : nat) (j : job) (u : string) :
  keeps_url process_job ->
  nth_error found k = Some j ->
  job_url j = Some u ->
  failed_operations (state_after process_job found d k)
                    (state_after process_job found d (S k)) = 0 ->
  existsb (has_url u)
          (jobs (snd (store_each process_job found no_counts d))) = true.
Proof.
  intros Hkeep Hnth Hu Hok.
  destruct (nth_error_split found k Hnth) as (l1 & l2 & -> & Hlen).
  unfold state_after in Hok.
  assert (H1 : firstn k (l1 ++ j :: l2) = l1).
  { rewrite <- Hlen. rewrite firstn_app, firstn_all, Nat.sub_diag.
    simpl. apply app_nil_r. }
  assert (H2 : firstn (S k) (l1 ++ j :: l2) = (l1 ++ [j])%list).
  { rewrite <- Hlen. rewrite firstn_app, firstn_all2 by lia.
    replace (S (List.length l1) - List.length l1)%nat with 1%nat by lia.
    reflexivity. }
  rewrite H1, H2 in Hok.
  change (l1 ++ j :: l2)%list with (l1 ++ ([j] ++ l2))%list.
  rewrite app_assoc.
  rewrite store_each_app. rewrite store_each_app in Hok |- *.
  destruct (store_each_returns process_job l1 no_counts d)
    as (c1 & d1 & E1 & _).
  rewrite E1 in Hok |- *. simpl fst in Hok |- *. simpl snd in Hok |- *.
  simpl store_each in Hok |- *. unfold mbind in Hok |- *.
  destruct (store_one_fate process_job j c1 d1)
    as (c2 & d2 & a2 & E2 & J2 & _ & _ & P2).
  rewrite E2 in Hok |- *. simpl in Hok |- *.
  destruct (store_each_fate process_job l2 c2 d2)
    as (c3 & d3 & a3 & E3 & J3 & _).
  rewrite E3. simpl. rewrite J3, existsb_app.
  rewrite (P2 Hkeep u Hu Hok). reflexivity.
Qed.

(** What an adapter's pass returns, and what its failures cost. *)
Lemma scrape_and_store_isolated (self : scraper)
  (process_job : job -> outcome job) (limit : Z) (d : db) :
  exists res d',
    scrape_and_store self process_job limit d = (Return res, d')
    /\ platform res = platform_name self
    /\ 0 <= stored res
    /\ 0 <= errors res
    /\ len (jobs d') = len (jobs d) + stored res
    /\ (forall e, scrape_jobs self limit = Raise e ->
          scraped res = 0 /\ stored res = 0 /\ errors res = 1
          /\ error_message res = Some e /\ d' = d)
    /\ (forall found, scrape_jobs self limit = Return found ->
          scraped res = len found
          /\ stored res + duplicates res + errors res = len found
          /\ errors res
             = failed_operations d d' + len (filter lacks_url found)
          /\ (keeps_url process_job ->
              forall (k : nat) (j : job) (u : string),
                nth_error found k = Some j ->
                job_url j = Some u ->
                failed_operations (state_after process_job found d k)
                  (state_after process_job found d (S k)) = 0 ->
                existsb (has_url u) (jobs d') = true)).
Proof.
  destruct (scrape_and_store_returns self process_job limit d)
    as (res & d' & E & P & S & R & L & Hraise & Hret).
  exists res, d'. split; [exact E|]. split; [exact P|]. split; [exact S|].
  split; [exact R|]. split; [exact L|]. split; [exact Hraise|].
  intros found Hfound. destruct (Hret found Hfound) as [Hs Ht].
  split; [exact Hs|]. split; [exact Ht|].
  unfold scrape_and_store, try_except, mbind, lift in E.
  rewrite Hfound in E.
  destruct found as [|j0 rest].
  - simpl in E. injection E as <- <-. unfold failed_operations.
    split; [unfold len; simpl; lia|].
    intros _ k j u Hnth. destruct k; discriminate Hnth.
  - change (is_empty (j0 :: rest)) with false in E. cbv beta iota in E.
    destruct (store_each_fate process_job (j0 :: rest) no_counts d)
      as (c & d1 & added & E1 & _ & _ & R1).
    pose proof (store_each_isolates process_job (j0 :: rest) d) as Hiso.
    unfold no_counts in E1, Hiso. rewrite E1 in E, Hiso. simpl in E, Hiso. injection E as <- <-.
    simpl errors. split; [exact R1|].
    intros Hkeep k j u Hnth Hu Hok.
    exact (Hiso k j u Hkeep Hnth Hu Hok).
Qed.

(** C9, amended: an adapter's fetch-and-store raises nothing and always
    returns a result record.  When scraping fails the record has no scraped
    and no stored posting and an error count of 1.  When scraping succeeds
    every scraped posting is counted once, as stored, as a duplicate or as an
    error; the errors are exactly the store operations that failed plus the
    postings without a URL, and the store gains exactly the stored postings.
    A failure does not stop the other postings from being stored: when the
    enrichment keeps the URL, every posting that went through the loop
    without a failing store operation has its URL in the store at the end,
    whatever happened to the postings before and after it.  The
    orchestrator's run completes and its totals are the sums over the
    records of all the adapters. *)
Theorem adapter_failures_are_isolated :
  (forall (self : scraper) (process_job : job -> outcome job) (limit : Z)
          (d : db),
     exists res d',
       scrape_and_store self process_job limit d = (Return res, d')
       /\ platform res = platform_name self
       /\ 0 <= stored res
       /\ 0 <= errors res
       /\ len (jobs d') = len (jobs d) + stored res
       /\ (forall e, scrape_jobs self limit = Raise e ->
             scraped res = 0 /\ stored res = 0 /\ errors res = 1
             /\ error_message res = Some e /\ d' = d)
       /\ (forall found, scrape_jobs self limit = Return found ->
             scraped res = len found
             /\ stored res + duplicates res + errors res = len found
             /\ errors res
                = failed_operations d d' + len (filter lacks_url found)
             /\ (keeps_url process_job ->
                 forall (k : nat) (j : job) (u : string),
                   nth_error found k = Some j ->
                   job_url j = Some u ->
                   failed_operations (state_after process_job found d k)
                     (state_after process_job found d (S k)) = 0 ->
                   existsb (has_url u) (jobs d') = true)))
  /\ (forall (scrapers : list scraper) (process_job : job -> outcome job)
             (now limit : Z) (d : db),
        exists s d',
          scrape_all_platforms scrapers process_job now limit d
          = (Return s, d')
          /\ success s = true
          /\ map platform (platform_results (summary s))
             = map platform_name scrapers
          /\ total_scraped (summary s)
             = sum_by scraped (platform_results (summary s))
          /\ total_stored (summary s)
             = sum_by stored (platform_results (summary s))
          /\ total_duplicates (summary s)
             = sum_by duplicates (platform_results (summary s))
          /\ total_errors (summary s)
             = sum_by errors (platform_results (summary s))).
Proof.
  split; [exact scrape_and_store_isolated|].
  intros scrapers process_job now limit d.
  unfold scrape_all_platforms, mbind.
  destruct (gather_returns scrapers process_job limit d)
    as (rs & d1 & E1 & P1).
  rewrite E1.
  destruct (_log_scraping_event_returns now (aggregate (map Return rs)) d1)
    as (d2 & E2).
  rewrite E2. unfold ret. do 2 eexists. split; [reflexivity|]. simpl.
  unfold aggregate.
  destruct (fold_aggregate_returns rs
              {| total_scraped := 0; total_stored := 0;
                 total_duplicates := 0; total_errors := 0;
                 platform_results := [] |}) as (A & B & C & D & E).
  simpl in A, B, C, D, E. rewrite A, B, C, D, E.
  split; [reflexivity|]. split; [exact P1|]. repeat split; reflexivity.
Qed.

Definition failing_scraper : scraper :=
  {| platform_name := "Indeed"; scrape_jobs := fun _ => Raise ScrapeError |}.

(** Three postings over a store that fails on the first insertion: one
    error, and the second and the third posting are stored all the same.
    Next to an adapter whose scraping fails, the run still returns, with two
    errors and the two stored postings. *)
Lemma adapter_failures_are_isolated_witness :
  (exists res d',
     scrape_and_store (fixed_scraper three_jobs) no_enrichment 50
                      first_insert_fails
     = (Return res, d')
     /\ errors res = 1
     /\ existsb (has_url "https://jobs.example/2") (jobs d') = true
     /\ existsb (has_url "https://jobs.example/3") (jobs d') = true)
  /\ (exists res d',
        scrape_and_store failing_scraper no_enrichment 50 first_insert_fails
        = (Return res, d')
        /\ stored res = 0 /\ errors res = 1)
  /\ (exists s d',
        scrape_all_platforms [failing_scraper; fixed_scraper three_jobs]
          no_enrichment 0 50 first_insert_fails
        = (Return s, d')
        /\ total_errors (summary s) = 2
        /\ total_stored (summary s) = 2).
Proof.
  destruct adapter_failures_are_isolated as [Hone Hall].
  assert (Hkeep : keeps_url no_enrichment).
  { intros j j' E. injection E as <-. reflexivity. }
  split; [|split].
  - destruct (Hone (fixed_scraper three_jobs) no_enrichment 50
                first_insert_fails)
      as (res & d' & E & _ & _ & _ & _ & _ & Hret).
    destruct (Hret three_jobs eq_refl) as (_ & _ & Herr & Hiso).
    exists res, d'. split; [exact E|].
    split; [rewrite Herr; vm_compute in E; injection E as _ <-;
            reflexivity|].
    split.
    + apply (Hiso Hkeep 1%nat (fresh_job 2%N "https://jobs.example/2" 0));
        reflexivity.
    + apply (Hiso Hkeep 2%nat (fresh_job 3%N "https://jobs.example/3" 0));
        reflexivity.
  - destruct (Hone failing_scraper no_enrichment 50 first_insert_fails)
      as (res & d' & E & _ & _ & _ & _ & Hfail & _).
    destruct (Hfail ScrapeError eq_refl) as (_ & S & R & _).
    exists res, d'. split; [exact E|]. split; assumption.
  - destruct (Hall [failing_scraper; fixed_scraper three_jobs] no_enrichment
                0 50 first_insert_fails) as (s & d' & E & _).
    exists s, d'. split; [exact E|].
    vm_compute in E. injection E as <- _. split; reflexivity.
Defined.

End IngestProps.

(* ================================================================== *)
(** * Further properties of the lifecycle manager *)
(* ================================================================== *)

Module LifecycleExtra.
Import Py Store Lifecycle Jobs.
Import MatcherProps LifecycleProps.
Local Open Scope string_scope.
Local Open Scope Z_scope.
Local Open Scope list_scope.

(** ** Count synchronization *)

(** What [sync_job_counts] writes into one job. *)
Definition synced (now : Z) (j : job) : job :=
  sync_update now (len (Matcher.get (applied_by j) []))
                  (len (Matcher.get (saved_by j) [])) j.

(** Every stored job has an [_id], and no two share one. *)
Definition unique_ids (l : list job) : Prop :=
  (forall j, In j l -> _id j <> None) /\ NoDup (map _id l).

Lemma has_id_self (j : job) : _id j <> None -> has_id (_id j) j = true.
Proof.
  unfold has_id. destruct (_id j) as [i|]; [|congruence].
  intros _. apply N.eqb_refl.
Qed.

Lemma has_id_other (j x : job) :
  _id j <> _id x -> has_id (_id j) x = false.
Proof.
  unfold has_id. destruct (_id j) as [a|]; [|reflexivity].
  destruct (_id x) as [b|]; [|reflexivity].
  intros H. apply N.eqb_neq. congruence.
Qed.

Lemma update_first_skip (p : job -> bool) (f : job -> job)
  (before : list job) (j : job) (after : list job) :
  (forall x, In x before -> p x = false) ->
  p j = true ->
  update_first p f (before ++ j :: after) = before ++ f j :: after.
Proof.
  induction before as [|x before IH]; intros Hb Hj; simpl.
  - rewrite Hj. reflexivity.
  - rewrite (Hb x (or_introl eq_refl)). f_equal.
    apply IH; [|exact Hj]. intros y Hy. apply Hb. right. exact Hy.
Qed.

Lemma sync_each_healthy (now : Z) (found : list job) :
  forall (done : list job) (c : Z) (d : db),
  faults d = [] ->
  jobs d = done ++ found ->
  (forall x j, In x done -> In j found -> _id j <> _id x) ->
  unique_ids found ->
  exists d',
    sync_each now found c d = (Return (c + len found), d')
    /\ jobs d' = done ++ map (synced now) found
    /\ faults d' = [].
Proof.
  induction found as [|j rest IH]; intros done c d Hf Hjobs Hdis [Hsome Hnd].
  - exists d. simpl. unfold ret, len. simpl.
    rewrite Z.add_0_r. repeat split; assumption.
  - simpl sync_each. unfold mbind, jobs_update_one, store_op.
    rewrite Hf.
    set (d1 := set_jobs _ d).
    assert (Hj1 : jobs d1 = (done ++ [synced now j]) ++ rest).
    { unfold d1. simpl. rewrite Hjobs.
      rewrite update_first_skip.
      - rewrite <- app_assoc. reflexivity.
      - intros x Hx. apply has_id_other. apply Hdis; [exact Hx|].
        left. reflexivity.
      - apply has_id_self. apply Hsome. left. reflexivity. }
    destruct (IH (done ++ [synced now j]) (c + 1) d1) as (d' & E & J & F).
    + unfold d1. simpl. exact Hf.
    + exact Hj1.
    + intros x j' Hx Hj'. apply in_app_or in Hx.
      destruct Hx as [Hx|[<-|[]]].
      * apply Hdis; [exact Hx | right; exact Hj'].
      * change (_id (synced now j)) with (_id j).
        inversion Hnd as [|? ? Hnotin _]. subst.
        intros Heq. apply Hnotin. rewrite <- Heq.
        apply in_map. exact Hj'.
    + split.
      * intros j' Hj'. apply Hsome. right. exact Hj'.
      * inversion Hnd. assumption.
    + exists d'. rewrite E. split.
      * f_equal. f_equal. unfold len. simpl List.length. lia.
      * split; [|exact F]. rewrite J, <- app_assoc. reflexivity.
Qed.

Lemma filter_all {A} (l : list A) : filter (fun _ => true) l = l.
Proof. induction l as [|x l IH]; simpl; [reflexivity | rewrite IH; reflexivity]. Qed.

(** X1: on a store that answers, whose jobs have distinct ids, the count
    synchronization visits every job, returns their number, leaves the two
    interaction arrays alone and makes each counter equal to the length of
    its array. *)
Theorem sync_job_counts_restores_counters (now : Z) (d : db) :
  faults d = [] ->
  unique_ids (jobs d) ->
  exists d',
    sync_job_counts now d = (Return (len (jobs d)), d')
    /\ map applied_by (jobs d') = map applied_by (jobs d)
    /\ map saved_by (jobs d') = map saved_by (jobs d)
    /\ (forall j, In j (jobs d') ->
          apply_count j = Some (len (Matcher.get (applied_by j) []))
          /\ save_count j = Some (len (Matcher.get (saved_by j) []))).
Proof.
  intros Hf Hu.
  unfold sync_job_counts, try_except, mbind, jobs_find, store_op.
  rewrite Hf.
  rewrite filter_all.
  destruct (sync_each_healthy now (jobs d) [] 0 d Hf eq_refl)
    as (d' & E & J & _).
  - intros x j [].
  - exact Hu.
  - rewrite E. exists d'. simpl in J. rewrite J.
    split; [reflexivity|].
    rewrite !map_map. split; [reflexivity|]. split; [reflexivity|].
    intros j Hj. apply in_map_iff in Hj. destruct Hj as (j0 & <- & _).
    split; reflexivity.
Qed.

Definition drifted_job : job :=
  set_save_count (Some (-1))
    (set_apply_count (Some 7)
       (set_saved_by (Some ["alice"; "bob"])
          (fresh_job 1%N "https://jobs.example/1" 0))).

(** A job whose counters drifted to 7 and -1, with two savers and no
    applicant, is put back to 0 and 2. *)
Lemma sync_job_counts_restores_counters_witness :
  exists d',
    sync_job_counts (hours 1) (db_of_jobs [drifted_job]) = (Return 1, d')
    /\ map apply_count (jobs d') = [Some 0]
    /\ map save_count (jobs d') = [Some 2].
Proof.
  destruct (sync_job_counts_restores_counters (hours 1)
              (db_of_jobs [drifted_job])) as (d' & E & A & S & C).
  - reflexivity.
  - split.
    + intros j [<-|[]]. discriminate.
    + repeat constructor. intros [].
  - exists d'. split; [exact E|].
    destruct (jobs d') as [|j [|j2 l]]; try discriminate.
    destruct (C j (or_introl eq_refl)) as [Ca Cs].
    simpl in A, S. injection A as A. injection S as S.
    simpl. rewrite Ca, Cs, A, S. split; reflexivity.
Defined.

(** ** The sweep under store failures *)

Lemma len_filter_split {A} (p : A -> bool) (l : list A) :
  len (filter (fun x => negb (p x)) l) + len (filter p l) = len l.
Proof.
  assert (H : (List.length (filter (fun x => negb (p x)) l)
               + List.length (filter p l) = List.length l)%nat).
  { induction l as [|x l IH]; simpl; [reflexivity|].
    destruct (p x); simpl; lia. }
  unfold len. lia.
Qed.

Lemma len_nonneg {A} (l : list A) : 0 <= len l.
Proof. unfold len. lia. Qed.

Lemma jobs_delete_many_any (p : job -> bool) (d : db) :
  (exists d',
     jobs_delete_many p d
     = (Return (len (jobs d) - len (filter (fun j => negb (p j)) (jobs d))),
        d')
     /\ jobs d' = filter (fun j => negb (p j)) (jobs d)
     /\ system_logs d' = system_logs d)
  \/ (exists d',
        jobs_delete_many p d = (Raise StoreError, d')
        /\ jobs d' = jobs d /\ system_logs d' = system_logs d).
Proof.
  unfold jobs_delete_many, store_op.
  destruct (faults d) as [|[|] fs];
    [left | right | left]; eexists; repeat split; reflexivity.
Qed.

Lemma cleanup_expired_jobs_any (now : Z) (d : db) :
  exists n d',
    cleanup_expired_jobs now d = (Return n, d')
    /\ 0 <= n
    /\ len (jobs d') + n = len (jobs d)
    /\ (forall j, In j (jobs d') -> In j (jobs d))
    /\ (forall j, In j (jobs d) -> ~ stale now j -> In j (jobs d')).
Proof.
  unfold cleanup_expired_jobs, try_except, mbind.
  destruct (jobs_delete_many_any (cleanup_filter (now - timedelta_days 1)) d)
    as [(d1 & E1 & J1 & _)|(d1 & E1 & J1 & _)]; rewrite E1.
  - set (kept := filter (fun j => negb (cleanup_filter
                                          (now - timedelta_days 1) j))
                        (jobs d)) in *.
    assert (Hres : exists d',
              (let (o, d') :=
                 (if 0 <? len (jobs d) - len kept
                  then log_cleanup_event now (len (jobs d) - len kept)
                         "success" None
                  else ret tt) d1 in
               match o with
               | Return _ => ret (len (jobs d) - len kept) d'
               | Raise e => (Raise e, d')
               end) = (Return (len (jobs d) - len kept), d')
              /\ jobs d' = kept).
    { destruct (0 <? len (jobs d) - len kept).
      - destruct (log_cleanup_event_returns now (len (jobs d) - len kept)
                    "success" None d1) as (d2 & E2 & J2).
        rewrite E2. exists d2. split; [reflexivity | congruence].
      - exists d1. split; [reflexivity | exact J1]. }
    destruct Hres as (d' & E & J). rewrite E.
    exists (len (jobs d) - len kept), d'.
    pose proof (len_filter_split (cleanup_filter (now - timedelta_days 1))
                  (jobs d)) as Hsplit.
    fold kept in Hsplit.
    pose proof (len_nonneg (filter (cleanup_filter (now - timedelta_days 1))
                              (jobs d))).
    split; [reflexivity|]. split; [lia|]. split; [rewrite J; lia|].
    rewrite J. unfold kept. split.
    + intros j Hj. apply filter_In in Hj. apply Hj.
    + intros j Hin Hns. apply filter_In. split; [exact Hin|].
      apply negb_true_iff.
      destruct (cleanup_filter (now - timedelta_days 1) j) eqn:Hc;
        [|reflexivity].
      exfalso. apply Hns. apply cleanup_filter_stale. exact Hc.
  - destruct (log_cleanup_event_returns now 0 "failed" (Some StoreError) d1)
      as (d2 & E2 & J2).
    rewrite E2. exists 0, d2. unfold ret.
    split; [reflexivity|]. split; [lia|].
    rewrite J2, J1. split; [lia|]. split; intros j Hj; auto.
Qed.

(** X2: whatever the store does, the sweep raises nothing; the number it
    returns is the number of jobs that left the store, and a job that is not
    stale (younger than 24 hours, or with an applicant or a saver) is never
    removed. *)
Theorem sweep_never_raises (now : Z) (d : db) :
  exists n d',
    cleanup_expired_jobs now d = (Return n, d')
    /\ 0 <= n
    /\ len (jobs d') + n = len (jobs d)
    /\ (forall j, In j (jobs d') -> In j (jobs d))
    /\ (forall j, In j (jobs d) -> ~ stale now j -> In j (jobs d')).
Proof. exact (cleanup_expired_jobs_any now d). Qed.

(** X3: on a store that answers, a sweep that removes nothing writes no
    record to the system log, and a sweep that removes some jobs appends
    exactly one success record carrying their number. *)
Theorem sweep_log_record (now : Z) (d : db) :
  faults d = [] ->
  exists n d',
    cleanup_expired_jobs now d = (Return n, d')
    /\ system_logs d'
       = system_logs d
         ++ (if 0 <? n then [CleanupLog now n "success" None] else []).
Proof.
  intros Hf.
  unfold cleanup_expired_jobs, try_except, mbind, jobs_delete_many,
    store_op. rewrite Hf.
  set (n := len (jobs d) - len _).
  destruct (0 <? n) eqn:Hn.
  - unfold log_cleanup_event, try_except, system_logs_insert_one, store_op.
    simpl. rewrite Hf. simpl. unfold ret.
    do 2 eexists. split; [reflexivity|]. simpl. rewrite Hn. reflexivity.
  - unfold ret. do 2 eexists. split; [reflexivity|]. simpl.
    rewrite Hn, app_nil_r. reflexivity.
Qed.

(** A sweep over one fresh posting writes nothing; over one old posting it
    writes one record. *)
Lemma sweep_log_record_witness :
  system_logs (snd (cleanup_expired_jobs (hours 1)
                      (db_of_jobs [fresh_job 1%N "https://jobs.example/1" 0])))
  = []
  /\ system_logs (snd (cleanup_expired_jobs (hours 30)
                         (db_of_jobs
                            [fresh_job 1%N "https://jobs.example/1" 0])))
     = [CleanupLog (hours 30) 1 "success" None].
Proof.
  split.
  - destruct (sweep_log_record (hours 1)
                (db_of_jobs [fresh_job 1%N "https://jobs.example/1" 0])
                eq_refl) as (n & d' & E & L).
    rewrite E. simpl snd. rewrite L.
    vm_compute in E. injection E as <- _. reflexivity.
  - destruct (sweep_log_record (hours 30)
                (db_of_jobs [fresh_job 1%N "https://jobs.example/1" 0])
                eq_refl) as (n & d' & E & L).
    rewrite E. simpl snd. rewrite L.
    vm_compute in E. injection E as <- _. reflexivity.
Defined.

End LifecycleExtra.

(* ================================================================== *)
(** * app/routers/jobs.py: the single-job view, saving and unsaving *)
(* ================================================================== *)

Module JobsExtra.
Import Py Store Lifecycle Jobs JobView.
Import MatcherProps LifecycleProps LifecycleExtra.
Local Open Scope string_scope.
Local Open Scope Z_scope.
Local Open Scope list_scope.

(** ** The store operations on a store that answers *)

Lemma jobs_find_one_healthy (i : option oid) (d : db) :
  faults d = [] ->
  jobs_find_one i d = (Return (find (has_id i) (jobs d)), d).
Proof. intros Hf. unfold jobs_find_one, store_op. rewrite Hf. reflexivity. Qed.

Lemma jobs_update_one_healthy (i : option oid) (f : job -> job) (d : db) :
  faults d = [] ->
  jobs_update_one i f d
  = (Return (existsb (has_id i) (jobs d)),
     set_jobs (update_first (has_id i) f (jobs d)) d).
Proof.
  intros Hf. unfold jobs_update_one, store_op. rewrite Hf. reflexivity.
Qed.

Lemma jobs_update_one_modified_healthy (i : option oid) (f : job -> job)
  (changes : job -> bool) (d : db) :
  faults d = [] ->
  jobs_update_one_modified i f changes d
  = (Return match find (has_id i) (jobs d) with
            | Some j => changes j
            | None => false
            end,
     set_jobs (update_first (has_id i) f (jobs d)) d).
Proof.
  intros Hf. unfold jobs_update_one_modified, store_op. rewrite Hf.
  reflexivity.
Qed.

Lemma log_job_event_healthy (now : Z) (job_id ev : string)
  (u : option string) (d : db) :
  faults d = [] ->
  log_job_event now job_id ev u d
  = (Return tt,
     set_job_lifecycle_logs
       (job_lifecycle_logs d
        ++ [{| ev_job_id := job_id; ev_event_type := ev; ev_user_id := u;
               ev_timestamp := now |}]) d).
Proof.
  intros Hf.
  unfold log_job_event, try_except, job_lifecycle_logs_insert_one, store_op.
  rewrite Hf. reflexivity.
Qed.

Lemma update_first_absent (p : job -> bool) (f : job -> job) (l : list job) :
  find p l = None -> update_first p f l = l.
Proof.
  induction l as [|x l IH]; simpl; [reflexivity|].
  destruct (p x); [discriminate|]. intros H. f_equal. apply IH. exact H.
Qed.

Lemma update_first_twice (p : job -> bool) (f g : job -> job)
  (l : list job) :
  (forall x, p (f x) = p x) ->
  update_first p g (update_first p f l)
  = update_first p (fun x => g (f x)) l.
Proof.
  intros Hp. induction l as [|x l IH]; simpl; [reflexivity|].
  destruct (p x) eqn:Hx; simpl.
  - rewrite Hp, Hx. reflexivity.
  - rewrite Hx, IH. reflexivity.
Qed.

Lemma update_first_agree (p : job -> bool) (f g : job -> job)
  (l : list job) (j : job) :
  find p l = Some j -> f j = g j ->
  update_first p f l = update_first p g l.
Proof.
  intros Hfind Hfg. induction l as [|x l IH]; simpl in *; [reflexivity|].
  destruct (p x).
  - injection Hfind as ->. rewrite Hfg. reflexivity.
  - f_equal. apply IH. exact Hfind.
Qed.

Lemma mem_In (x : string) (l : list string) : mem x l = true <-> In x l.
Proof.
  unfold mem. rewrite existsb_exists. split.
  - intros (y & Hy & E). apply String.eqb_eq in E. subst. exact Hy.
  - intros H. exists x. split; [exact H | apply String.eqb_refl].
Qed.

(** ** Saving *)

(** X4: saving a posting that the user has saved already answers "Already
    saved" and changes no job. *)
Theorem save_job_idempotent (now : Z) (job_id user : string) (i : oid)
  (j : job) (d : db) :
  ObjectId job_id = Some i ->
  next_op_succeeds d ->
  find (has_id (Some i)) (jobs d) = Some j ->
  In user (Matcher.get (saved_by j) []) ->
  exists d',
    save_job now job_id user d = (Return "Already saved", d')
    /\ jobs d' = jobs d
    /\ job_lifecycle_logs d' = job_lifecycle_logs d.
Proof.
  intros Hid Hok Hfind Hin.
  unfold save_job, ObjectId_is_valid. rewrite Hid. simpl.
  unfold mbind, jobs_find_one, store_op. unfold next_op_succeeds in Hok.
  apply mem_In in Hin.
  destruct (faults d) as [|[|] fs]; [| contradiction |]; simpl;
    rewrite Hfind, Hin; eexists; repeat split; reflexivity.
Qed.

Definition saved_job : job :=
  set_save_count (Some 1)
    (set_saved_by (Some ["alice"])
       (fresh_job 161%N "https://jobs.example/161" 0)).

Lemma save_job_idempotent_witness :
  fst (save_job (hours 1) hex24 "alice" (db_of_jobs [saved_job]))
  = Return "Already saved".
Proof.
  destruct (save_job_idempotent (hours 1) hex24 "alice" 161%N saved_job
              (db_of_jobs [saved_job])) as (d' & E & _).
  - reflexivity.
  - exact I.
  - reflexivity.
  - left. reflexivity.
  - rewrite E. reflexivity.
Defined.

(** What a successful [save_job] leaves in the store. *)
Lemma save_job_healthy (now : Z) (job_id user : string) (i : oid) (j : job)
  (d : db) :
  ObjectId job_id = Some i ->
  faults d = [] ->
  find (has_id (Some i)) (jobs d) = Some j ->
  ~ In user (Matcher.get (saved_by j) []) ->
  exists d',
    save_job now job_id user d = (Return "Job saved successfully", d')
    /\ faults d' = []
    /\ jobs d' = update_first (has_id (Some i)) (save_update user) (jobs d).
Proof.
  intros Hid Hf Hfind Hnot.
  unfold save_job, ObjectId_is_valid. rewrite Hid. simpl.
  unfold mbind. rewrite (jobs_find_one_healthy _ d Hf), Hfind.
  destruct (mem user (Matcher.get (saved_by j) [])) eqn:Hm;
    [exfalso; apply Hnot; apply mem_In; exact Hm|].
  rewrite (jobs_update_one_healthy _ _ d Hf).
  rewrite log_job_event_healthy by exact Hf.
  unfold remove_deletion_mark, try_except, ObjectId_is_valid.
  rewrite Hid. simpl.
  rewrite jobs_update_one_modified_healthy by exact Hf.
  eexists. split; [reflexivity|]. split; [exact Hf|]. simpl.
  rewrite update_first_twice by reflexivity.
  reflexivity.
Qed.

(** X5: on a store that answers, saving a posting that the user had not
    saved appends the user to saved-by, adds one to [save_count] and clears
    the expiry marker; a counter that agreed with the collection still
    does. *)
Theorem save_job_records_saver (now : Z) (job_id user : string) (i : oid)
  (j : job) (d : db) :
  ObjectId job_id = Some i ->
  faults d = [] ->
  find (has_id (Some i)) (jobs d) = Some j ->
  ~ In user (Matcher.get (saved_by j) []) ->
  exists d' j',
    save_job now job_id user d = (Return "Job saved successfully", d')
    /\ find (has_id (Some i)) (jobs d') = Some j'
    /\ saved_by j' = Some (Matcher.get (saved_by j) [] ++ [user])
    /\ save_count j' = Some (Matcher.get (save_count j) 0 + 1)
    /\ expires_at j' = None
    /\ applied_by j' = applied_by j
    /\ (save_count j = Some (len (Matcher.get (saved_by j) [])) ->
        save_count j' = Some (len (Matcher.get (saved_by j') []))).
Proof.
  intros Hid Hf Hfind Hnot.
  destruct (save_job_healthy now job_id user i j d Hid Hf Hfind Hnot)
    as (d' & E & _ & J).
  exists d', (save_update user j).
  split; [exact E|]. rewrite J.
  split; [apply find_update_first; [reflexivity | exact Hfind]|].
  simpl. unfold push, inc.
  split; [destruct (saved_by j); reflexivity|].
  split; [destruct (save_count j); simpl; f_equal; lia|].
  split; [reflexivity|]. split; [reflexivity|].
  intros Hc. rewrite Hc. simpl.
  destruct (saved_by j) as [l|]; simpl; f_equal; unfold len;
    rewrite ?length_app; simpl; lia.
Qed.

Lemma save_job_records_saver_witness :
  exists d' j',
    save_job (hours 1) hex24 "bob" (db_of_jobs [saved_job])
    = (Return "Job saved successfully", d')
    /\ find (has_id (Some 161%N)) (jobs d') = Some j'
    /\ saved_by j' = Some ["alice"; "bob"]
    /\ save_count j' = Some 2.
Proof.
  destruct (save_job_records_saver (hours 1) hex24 "bob" 161%N saved_job
              (db_of_jobs [saved_job])) as (d' & j' & E & F & S & C & _).
  - reflexivity.
  - reflexivity.
  - reflexivity.
  - simpl. intros [H|[]]. discriminate.
  - exists d', j'. repeat split; assumption.
Defined.

(** ** Unsaving *)

(** The marker that [unsave_job] sets when nobody is left. *)
Definition mark_if_abandoned (now : Z) (j : job) : job :=
  if falsy_list (saved_by j) && falsy_list (applied_by j)
  then set_expires_at (Some (now + timedelta_days 3)) j
  else j.

(** What [unsave_job] leaves in the store when the store answers. *)
Lemma unsave_job_healthy (now : Z) (job_id user : string) (i : oid)
  (d : db) :
  ObjectId job_id = Some i ->
  faults d = [] ->
  exists d',
    unsave_job now job_id user d = (Return "Job unsaved successfully", d')
    /\ faults d' = []
    /\ jobs d'
       = update_first (has_id (Some i))
           (fun x => mark_if_abandoned now (unsave_update user x)) (jobs d)
    /\ job_lifecycle_logs d'
       = job_lifecycle_logs d
         ++ [{| ev_job_id := job_id; ev_event_type := "unsaved";
                ev_user_id := Some user; ev_timestamp := now |}].
Proof.
  intros Hid Hf.
  unfold unsave_job, ObjectId_is_valid. rewrite Hid. simpl.
  unfold mbind.
  rewrite (jobs_update_one_healthy _ _ d Hf).
  rewrite log_job_event_healthy by exact Hf.
  rewrite jobs_find_one_healthy by exact Hf.
  set (J1 := update_first (has_id (Some i)) (unsave_update user) (jobs d)).
  set (d2 := set_job_lifecycle_logs _ (set_jobs J1 d)).
  change (jobs d2) with J1.
  assert (Hf2 : faults d2 = []) by exact Hf.
  destruct (find (has_id (Some i)) (jobs d)) as [j|] eqn:Hfind.
  - assert (H1 : find (has_id (Some i)) J1 = Some (unsave_update user j))
      by (apply find_update_first; [reflexivity | exact Hfind]).
    rewrite H1.
    destruct (falsy_list (saved_by (unsave_update user j))
              && falsy_list (applied_by (unsave_update user j))) eqn:Hc.
    + unfold mark_job_for_deletion, try_except, ObjectId_is_valid.
      rewrite Hid. cbv beta iota. change (negb true) with false.
      cbv iota.
      rewrite (jobs_update_one_modified_healthy _ _ _ d2 Hf2).
      eexists. split; [reflexivity|]. split; [exact Hf|].
      split; [|reflexivity]. simpl jobs. unfold J1.
      rewrite update_first_twice by reflexivity.
      apply (update_first_agree _ _ _ _ j Hfind).
      unfold mark_if_abandoned. rewrite Hc. reflexivity.
    + eexists. split; [reflexivity|]. split; [exact Hf|].
      split; [|reflexivity]. change (jobs d2) with J1. unfold J1.
      apply (update_first_agree _ _ _ _ j Hfind).
      unfold mark_if_abandoned. rewrite Hc. reflexivity.
  - assert (H1 : J1 = jobs d) by (apply update_first_absent; exact Hfind).
    rewrite H1, Hfind.
    eexists. split; [reflexivity|]. split; [exact Hf|].
    split; [|reflexivity]. change (jobs d2) with J1.
    rewrite H1. symmetry. apply update_first_absent. exact Hfind.
Qed.

Lemma pull_only (user : string) (l : list string) :
  (forall y, In y l -> y = user) ->
  filter (fun y => negb (String.eqb y user)) l = [].
Proof.
  induction l as [|y l IH]; intros H; [reflexivity|]. simpl.
  rewrite (H y (or_introl eq_refl)), String.eqb_refl. simpl.
  apply IH. intros z Hz. apply H. right. exact Hz.
Qed.

Lemma falsy_list_get {A} (field : option (list A)) :
  falsy_list field = true <-> Matcher.get field [] = [].
Proof.
  destruct field as [[|a l]|]; simpl; split; intro H;
    try reflexivity; discriminate.
Qed.

(** X6: on a store that answers, when the user is the only saver of a
    posting that nobody applied to, unsaving empties saved-by and sets the
    expiry marker three days ahead; when an applicant remains the marker is
    left as it was. *)
Theorem unsave_last_saver_sets_marker (now : Z) (job_id user : string)
  (i : oid) (j : job) (d : db) :
  ObjectId job_id = Some i ->
  faults d = [] ->
  find (has_id (Some i)) (jobs d) = Some j ->
  (forall y, In y (Matcher.get (saved_by j) []) -> y = user) ->
  exists d' j',
    unsave_job now job_id user d = (Return "Job unsaved successfully", d')
    /\ find (has_id (Some i)) (jobs d') = Some j'
    /\ Matcher.get (saved_by j') [] = []
    /\ applied_by j' = applied_by j
    /\ (Matcher.get (applied_by j) [] = [] ->
        expires_at j' = Some (now + timedelta_days 3))
    /\ (Matcher.get (applied_by j) [] <> [] ->
        expires_at j' = expires_at j).
Proof.
  intros Hid Hf Hfind Honly.
  destruct (unsave_job_healthy now job_id user i d Hid Hf)
    as (d' & E & _ & J & _).
  exists d', (mark_if_abandoned now (unsave_update user j)).
  split; [exact E|]. rewrite J.
  split.
  { apply (find_update_first (has_id (Some i))
             (fun x => mark_if_abandoned now (unsave_update user x)));
      [|exact Hfind].
    intros x. unfold mark_if_abandoned.
    destruct (_ && _); reflexivity. }
  assert (Hs : Matcher.get (saved_by (unsave_update user j)) [] = []).
  { unfold unsave_update. simpl. unfold pull.
    destruct (saved_by j) as [l|]; simpl; [|reflexivity].
    apply pull_only. exact Honly. }
  unfold mark_if_abandoned.
  assert (Hfs : falsy_list (saved_by (unsave_update user j)) = true)
    by (apply falsy_list_get; exact Hs).
  rewrite Hfs. simpl andb.
  change (applied_by (unsave_update user j)) with (applied_by j).
  destruct (falsy_list (applied_by j)) eqn:Ha.
  - split; [exact Hs|]. split; [reflexivity|]. split; [reflexivity|].
    intros Hne. exfalso. apply Hne. apply falsy_list_get. exact Ha.
  - split; [exact Hs|]. split; [reflexivity|]. split; [|reflexivity].
    intros He. apply falsy_list_get in He. congruence.
Qed.

Lemma unsave_last_saver_sets_marker_witness :
  exists d' j',
    unsave_job (hours 5) hex24 "alice" (db_of_jobs [saved_job])
    = (Return "Job unsaved successfully", d')
    /\ find (has_id (Some 161%N)) (jobs d') = Some j'
    /\ expires_at j' = Some (hours 77).
Proof.
  destruct (unsave_last_saver_sets_marker (hours 5) hex24 "alice" 161%N
              saved_job (db_of_jobs [saved_job]))
    as (d' & j' & E & F & _ & _ & M & _).
  - reflexivity.
  - reflexivity.
  - reflexivity.
  - simpl. intros y [<-|[]]. reflexivity.
  - exists d', j'. split; [exact E|]. split; [exact F|].
    rewrite M; reflexivity.
Defined.

(** X7: on a store that answers, when a user who had not saved a posting
    saves it and then unsaves it, saved-by and [save_count] are back to what
    they were, and applied-by is untouched. *)
Theorem save_then_unsave_round_trip (now1 now2 : Z) (job_id user : string)
  (i : oid) (j : job) (d : db) :
  ObjectId job_id = Some i ->
  faults d = [] ->
  find (has_id (Some i)) (jobs d) = Some j ->
  ~ In user (Matcher.get (saved_by j) []) ->
  exists d1 d2 j2,
    save_job now1 job_id user d = (Return "Job saved successfully", d1)
    /\ unsave_job now2 job_id user d1
       = (Return "Job unsaved successfully", d2)
    /\ find (has_id (Some i)) (jobs d2) = Some j2
    /\ Matcher.get (saved_by j2) [] = Matcher.get (saved_by j) []
    /\ save_count j2 = Some (Matcher.get (save_count j) 0)
    /\ applied_by j2 = applied_by j.
Proof.
  intros Hid Hf Hfind Hnot.
  destruct (save_job_healthy now1 job_id user i j d Hid Hf Hfind Hnot)
    as (d1 & E1 & F1 & J1).
  destruct (unsave_job_healthy now2 job_id user i d1 Hid F1)
    as (d2 & E2 & _ & J2 & _).
  exists d1, d2,
    (mark_if_abandoned now2 (unsave_update user (save_update user j))).
  split; [exact E1|]. split; [exact E2|].
  rewrite J2, J1.
  split.
  { rewrite update_first_twice by reflexivity.
    apply (find_update_first (has_id (Some i))
             (fun x => mark_if_abandoned now2
                         (unsave_update user (save_update user x))));
      [|exact Hfind].
    intros x. unfold mark_if_abandoned. destruct (_ && _); reflexivity. }
  assert (Hfields : forall x,
            saved_by (mark_if_abandoned now2 x) = saved_by x
            /\ save_count (mark_if_abandoned now2 x) = save_count x
            /\ applied_by (mark_if_abandoned now2 x) = applied_by x).
  { intros x. unfold mark_if_abandoned.
    destruct (_ && _); repeat split; reflexivity. }
  destruct (Hfields (unsave_update user (save_update user j)))
    as (-> & -> & ->).
  simpl. unfold push, pull, inc.
  split; [|split; [|reflexivity]].
  - destruct (saved_by j) as [l|]; simpl.
    + rewrite filter_app. simpl. rewrite String.eqb_refl. simpl.
      rewrite app_nil_r. apply pull_absent. exact Hnot.
    + rewrite String.eqb_refl. reflexivity.
  - destruct (save_count j); simpl; f_equal; lia.
Qed.

Lemma save_then_unsave_round_trip_witness :
  exists d1 d2 j2,
    save_job (hours 1) hex24 "bob" (db_of_jobs [saved_job])
    = (Return "Job saved successfully", d1)
    /\ unsave_job (hours 2) hex24 "bob" d1
       = (Return "Job unsaved successfully", d2)
    /\ find (has_id (Some 161%N)) (jobs d2) = Some j2
    /\ Matcher.get (saved_by j2) [] = ["alice"]
    /\ save_count j2 = Some 1.
Proof.
  destruct (save_then_unsave_round_trip (hours 1) (hours 2) hex24 "bob"
              161%N saved_job (db_of_jobs [saved_job]))
    as (d1 & d2 & j2 & E1 & E2 & F & S & C & _).
  - reflexivity.
  - reflexivity.
  - reflexivity.
  - simpl. intros [H|[]]. discriminate.
  - exists d1, d2, j2. repeat split; assumption.
Defined.

(** X8: unsaving a posting that is not in the store is not an error: on a
    store that answers the handler reports success, changes no job and still
    logs an "unsaved" event. *)
Theorem unsave_missing_job_reports_success (now : Z) (job_id user : string)
  (i : oid) (d : db) :
  ObjectId job_id = Some i ->
  faults d = [] ->
  find (has_id (Some i)) (jobs d) = None ->
  exists d',
    unsave_job now job_id user d = (Return "Job unsaved successfully", d')
    /\ jobs d' = jobs d
    /\ job_lifecycle_logs d'
       = job_lifecycle_logs d
         ++ [{| ev_job_id := job_id; ev_event_type := "unsaved";
                ev_user_id := Some user; ev_timestamp := now |}].
Proof.
  intros Hid Hf Hnone.
  destruct (unsave_job_healthy now job_id user i d Hid Hf)
    as (d' & E & _ & J & L).
  exists d'. split; [exact E|]. split; [|exact L].
  rewrite J. apply update_first_absent. exact Hnone.
Qed.

Lemma unsave_missing_job_reports_success_witness :
  fst (unsave_job (hours 1) hex24 "alice" (db_of_jobs []))
  = Return "Job unsaved successfully".
Proof.
  destruct (unsave_missing_job_reports_success (hours 1) hex24 "alice"
              161%N (db_of_jobs [])) as (d' & E & _).
  - reflexivity.
  - reflexivity.
  - reflexivity.
  - rewrite E. reflexivity.
Defined.

(** ** The viewer's flags *)

Lemma get_job_healthy (job_id : string) (user : string) (i : oid) (j : job)
  (d : db) :
  ObjectId job_id = Some i ->
  faults d = [] ->
  find (has_id (Some i)) (jobs d) = Some j ->
  user <> "" ->
  exists v,
    get_job job_id (Some user) d = (Return v, d)
    /\ is_saved v = mem user (Matcher.get (saved_by j) [])
    /\ is_applied v
       = existsb (fun a => String.eqb (ae_user_id a) user)
                 (Matcher.get (applied_by j) [])
    /\ view_save_count v = Matcher.get (save_count j) 0
    /\ view_apply_count v = Matcher.get (apply_count j) 0.
Proof.
  intros Hid Hf Hfind Hu.
  unfold get_job, ObjectId_is_valid. rewrite Hid. simpl.
  unfold mbind. rewrite jobs_find_one_healthy by exact Hf. rewrite Hfind.
  apply String.eqb_neq in Hu. rewrite Hu. simpl.
  eexists. split; [reflexivity|]. simpl. repeat split; reflexivity.
Qed.

(** X9: on a store that answers, after a user saves a posting its view
    shows [is_saved] to that user, whether or not it was saved before, and
    after the user unsaves it the view shows it as not saved. *)
Theorem is_saved_follows_save_and_unsave (now1 now2 : Z)
  (job_id user : string) (i : oid) (j : job) (d : db) :
  ObjectId job_id = Some i ->
  faults d = [] ->
  find (has_id (Some i)) (jobs d) = Some j ->
  user <> "" ->
  exists m d1 d2 v1 v2,
    save_job now1 job_id user d = (Return m, d1)
    /\ get_job job_id (Some user) d1 = (Return v1, d1)
    /\ is_saved v1 = true
    /\ unsave_job now2 job_id user d1
       = (Return "Job unsaved successfully", d2)
    /\ get_job job_id (Some user) d2 = (Return v2, d2)
    /\ is_saved v2 = false.
Proof.
  intros Hid Hf Hfind Hu.
  assert (Hsave : exists m d1 j1,
            save_job now1 job_id user d = (Return m, d1)
            /\ faults d1 = []
            /\ find (has_id (Some i)) (jobs d1) = Some j1
            /\ In user (Matcher.get (saved_by j1) [])).
  { destruct (in_dec string_dec user (Matcher.get (saved_by j) []))
      as [Hin|Hnot].
    - exists "Already saved", d, j.
      split; [|repeat split; assumption].
      unfold save_job, ObjectId_is_valid. rewrite Hid. simpl.
      unfold mbind. rewrite jobs_find_one_healthy by exact Hf.
      rewrite Hfind. apply mem_In in Hin. rewrite Hin. reflexivity.
    - destruct (save_job_healthy now1 job_id user i j d Hid Hf Hfind Hnot)
        as (d1 & E & F & J).
      exists "Job saved successfully", d1, (save_update user j).
      split; [exact E|]. split; [exact F|]. rewrite J.
      split; [apply find_update_first; [reflexivity | exact Hfind]|].
      simpl. unfold push. destruct (saved_by j); simpl;
        [apply in_or_app; right|]; left; reflexivity. }
  destruct Hsave as (m & d1 & j1 & E1 & F1 & H1 & In1).
  destruct (get_job_healthy job_id user i j1 d1 Hid F1 H1 Hu)
    as (v1 & G1 & S1 & _).
  destruct (unsave_job_healthy now2 job_id user i d1 Hid F1)
    as (d2 & E2 & F2 & J2 & _).
  assert (H2 : find (has_id (Some i)) (jobs d2)
               = Some (mark_if_abandoned now2 (unsave_update user j1))).
  { rewrite J2.
    apply (find_update_first (has_id (Some i))
             (fun x => mark_if_abandoned now2 (unsave_update user x)));
      [|exact H1].
    intros x. unfold mark_if_abandoned. destruct (_ && _); reflexivity. }
  destruct (get_job_healthy job_id user i _ d2 Hid F2 H2 Hu)
    as (v2 & G2 & S2 & _).
  exists m, d1, d2, v1, v2.
  split; [exact E1|]. split; [exact G1|].
  split; [rewrite S1; apply mem_In; exact In1|].
  split; [exact E2|]. split; [exact G2|].
  rewrite S2.
  assert (Hsb : saved_by (mark_if_abandoned now2 (unsave_update user j1))
                = pull user (saved_by j1)).
  { unfold mark_if_abandoned. destruct (_ && _); reflexivity. }
  rewrite Hsb. unfold pull.
  destruct (saved_by j1) as [l|]; simpl; [|reflexivity].
  destruct (mem user (filter (fun y => negb (String.eqb y user)) l)) eqn:Hm;
    [|reflexivity].
  apply mem_In in Hm. apply filter_In in Hm. destruct Hm as [_ Hm].
  rewrite String.eqb_refl in Hm. discriminate.
Qed.

Lemma is_saved_follows_save_and_unsave_witness :
  exists m d1 v1,
    save_job (hours 1) hex24 "bob" (db_of_jobs [saved_job]) = (Return m, d1)
    /\ get_job hex24 (Some "bob") d1 = (Return v1, d1)
    /\ is_saved v1 = true.
Proof.
  destruct (is_saved_follows_save_and_unsave (hours 1) (hours 2) hex24 "bob"
              161%N saved_job (db_of_jobs [saved_job]))
    as (m & d1 & d2 & v1 & v2 & E1 & G1 & S1 & _).
  - reflexivity.
  - reflexivity.
  - reflexivity.
  - discriminate.
  - exists m, d1, v1. repeat split; assumption.
Defined.

End JobsExtra.

(* ================================================================== *)
(** * Further properties of the apply operations *)
(* ================================================================== *)

Module ApplyExtra.
Import Py Store Lifecycle Jobs Apply.
Import MatcherProps LifecycleProps LifecycleExtra JobsExtra ApplyProps.
Local Open Scope string_scope.
Local Open Scope Z_scope.
Local Open Scope list_scope.

(** The user has no application for the job on record. *)
Definition not_applied (user job_id : string) (d : db) : Prop :=
  find (fun a => String.eqb (app_user_id a) user
                 && String.eqb (app_job_id a) job_id) (applications d)
  = None.

(** The resume that [apply_to_job] picks when no resume id is given. *)
Definition default_resume (user : string) (d : db) : option resume :=
  find (fun r => String.eqb (resume_user_id r) user) (resumes d).

(** The resume id that a request names: a well-formed id, or none. *)
Definition requested_resume (resume_id : option string) : option oid :=
  match resume_id with
  | Some s => ObjectId s
  | None => None
  end.

(** The resume that an application goes out with: the user's resume with
    the id that the request names or, when the request names no well-formed
    id, the first resume of the user. *)
Definition selected_resume (resume_id : option string) (user : string)
  (d : db) : option resume :=
  match requested_resume resume_id with
  | Some a =>
    find (fun r => N.eqb (resume_oid r) a
                   && String.eqb (resume_user_id r) user) (resumes d)
  | None => default_resume user d
  end.

(** The application document that [apply_to_job] inserts. *)
Definition new_application (now : Z) (match_score : value)
  (job_id user : string) (r : resume) (j : job) (i : oid) : application :=
  {| app_oid := i; app_user_id := user; app_job_id := job_id;
     app_resume_id := Some (resume_oid r);
     app_external_application := false; app_match_score := match_score;
     app_status := "Applied"; app_created_at := now;
     app_job_details := content j |}.

Lemma applications_find_one_healthy (user job_id : string) (d : db) :
  faults d = [] ->
  applications_find_one user job_id d
  = (Return (find (fun a => String.eqb (app_user_id a) user
                            && String.eqb (app_job_id a) job_id)
                  (applications d)), d).
Proof.
  intros Hf. unfold applications_find_one, store_op. rewrite Hf. reflexivity.
Qed.

Lemma resumes_find_one_healthy (user : string) (d : db) :
  faults d = [] ->
  Matcher.resumes_find_one user d = (Return (default_resume user d), d).
Proof.
  intros Hf. unfold Matcher.resumes_find_one, store_op. rewrite Hf.
  reflexivity.
Qed.

Lemma resume_lookup_healthy (resume_id : option string) (user : string)
  (d : db) :
  faults d = [] ->
  (if str_truthy resume_id && ObjectId_is_valid (Matcher.get resume_id "")
   then resumes_find_one_by_id (ObjectId (Matcher.get resume_id "")) user
   else Matcher.resumes_find_one user) d
  = (Return (selected_resume resume_id user d), d).
Proof.
  intros Hf. unfold selected_resume, requested_resume.
  destruct resume_id as [s|];
    [|change (str_truthy None) with false; cbv beta iota;
      change (false && _) with false; cbv iota;
      apply resumes_find_one_healthy; exact Hf].
  unfold str_truthy, Matcher.get.
  destruct (String.eqb_spec s "") as [->|Hs].
  - change (ObjectId "") with (@None oid). simpl.
    apply resumes_find_one_healthy; exact Hf.
  - change (negb false) with true. cbv iota.
    unfold ObjectId_is_valid.
    destruct (ObjectId s) as [a|]; simpl.
    + unfold resumes_find_one_by_id, store_op. rewrite Hf. reflexivity.
    + apply resumes_find_one_healthy; exact Hf.
Qed.

(** What a successful in-app application leaves in the store. *)
Lemma apply_to_job_healthy (now : Z) (match_score : value)
  (job_id : string) (resume_id : option string) (user : string) (i : oid)
  (j : job) (r : resume) (d : db) :
  ObjectId job_id = Some i ->
  faults d = [] ->
  not_applied user job_id d ->
  find (has_id (Some i)) (jobs d) = Some j ->
  selected_resume resume_id user d = Some r ->
  exists d',
    apply_to_job now match_score job_id resume_id user d
    = (Return {| message := "Application submitted successfully. Job will be kept in your history permanently.";
                 application_id := next_oid d |}, d')
    /\ faults d' = []
    /\ jobs d'
       = update_first (has_id (Some i))
           (apply_update user now (next_oid d)) (jobs d)
    /\ applications d'
       = applications d
         ++ [new_application now match_score job_id user r j (next_oid d)]
    /\ resumes d' = resumes d
    /\ job_lifecycle_logs d'
       = job_lifecycle_logs d
         ++ [{| ev_job_id := job_id; ev_event_type := "applied";
                ev_user_id := Some user; ev_timestamp := now |}].
Proof.
  intros Hid Hf Hnot Hfind Hres.
  assert (Hv : ObjectId_is_valid job_id = true)
    by (unfold ObjectId_is_valid; rewrite Hid; reflexivity).
  unfold apply_to_job, http_guard, try_except.
  rewrite Hv, Hid. change (negb true) with false. cbv iota.
  unfold mbind.
  rewrite applications_find_one_healthy by exact Hf.
  unfold not_applied in Hnot. rewrite Hnot.
  rewrite jobs_find_one_healthy by exact Hf. rewrite Hfind.
  rewrite (resume_lookup_healthy resume_id user d Hf). rewrite Hres.
  unfold applications_insert_one, store_op. rewrite Hf.
  rewrite jobs_update_one_healthy by exact Hf.
  rewrite log_job_event_healthy by exact Hf.
  eexists. split; [reflexivity|]. simpl.
  repeat split; try reflexivity. exact Hf.
Qed.


Definition second_resume : resume :=
  {| resume_oid := 8%N; resume_user_id := "alice";
     filename := Some "cv-short.pdf"; skills := Some ["sql"];
     experience := Some [] |}.

(** A user with two resumes. *)
Definition two_resume_db : db :=
  {| jobs := [marked_job]; applications := [];
     resumes := [a_resume; second_resume];
     user_preferences := []; system_logs := []; job_lifecycle_logs := [];
     next_oid := 1000%N; faults := [] |}.

Definition hex24_resume8 : string := "000000000000000000000008".


Lemma find_app_last {A} (p : A -> bool) (l : list A) (a : A) :
  find p l = None -> p a = true -> find p (l ++ [a]) = Some a.
Proof.
  induction l as [|x l IH]; simpl; intros Hn Ha.
  - rewrite Ha. reflexivity.
  - destruct (p x); [discriminate|]. apply IH; assumption.
Qed.

Lemma apply_to_job_rejects_existing (now : Z) (match_score : value)
  (job_id : string) (resume_id : option string) (user : string) (i : oid)
  (a : application) (d : db) :
  ObjectId job_id = Some i ->
  faults d = [] ->
  find (fun a => String.eqb (app_user_id a) user
                 && String.eqb (app_job_id a) job_id) (applications d)
  = Some a ->
  apply_to_job now match_score job_id resume_id user d
  = (Raise (HTTPException 400 "Already applied to this job"), d).
Proof.
  intros Hid Hf Hex.
  unfold apply_to_job, http_guard, try_except, ObjectId_is_valid.
  rewrite Hid. change (negb true) with false. cbv iota.
  unfold mbind.
  rewrite applications_find_one_healthy by exact Hf.
  rewrite Hex. reflexivity.
Qed.

Lemma mark_external_rejects_existing (now : Z) (job_id user : string)
  (i : oid) (a : application) (d : db) :
  ObjectId job_id = Some i ->
  faults d = [] ->
  find (fun a => String.eqb (app_user_id a) user
                 && String.eqb (app_job_id a) job_id) (applications d)
  = Some a ->
  mark_external_application now job_id user d
  = (Raise (HTTPException 400 "Already marked as applied"), d).
Proof.
  intros Hid Hf Hex.
  unfold mark_external_application, http_guard, try_except,
    ObjectId_is_valid.
  rewrite Hid. change (negb true) with false. cbv iota.
  unfold mbind.
  rewrite applications_find_one_healthy by exact Hf.
  rewrite Hex. reflexivity.
Qed.

Lemma find_app_none {A} (p : A -> bool) (l : list A) (a : A) :
  find p l = None -> p a = false -> find p (l ++ [a]) = None.
Proof.
  induction l as [|x l IH]; simpl; intros Hn Ha.
  - rewrite Ha. reflexivity.
  - destruct (p x); [discriminate|]. apply IH; assumption.
Qed.


(** The same job addressed with a capital hexadecimal digit. *)
Definition hex24_capital : string := "0000000000000000000000A1".


(** X12: on a store that answers, an application for a stored job, by a
    user who has no application on record under that job id, is rejected
    with status 400 "Please upload a resume first" when the request selects
    no resume: the user has none, or the request names a well-formed resume
    id that is not the id of a resume of the user, whatever other resumes
    the user has.  The rejected request writes nothing. *)
Theorem apply_without_resume_rejected (now : Z) (match_score : value)
  (job_id : string) (resume_id : option string) (user : string) (i : oid)
  (j : job) (d : db) :
  ObjectId job_id = Some i ->
  faults d = [] ->
  not_applied user job_id d ->
  find (has_id (Some i)) (jobs d) = Some j ->
  selected_resume resume_id user d = None ->
  apply_to_job now match_score job_id resume_id user d
  = (Raise (HTTPException 400 "Please upload a resume first"), d).
Proof.
  intros Hid Hf Hnot Hfind Hres.
  assert (Hv : ObjectId_is_valid job_id = true)
    by (unfold ObjectId_is_valid; rewrite Hid; reflexivity).
  unfold apply_to_job, http_guard, try_except.
  rewrite Hv, Hid. change (negb true) with false. cbv iota.
  unfold mbind.
  rewrite applications_find_one_healthy by exact Hf.
  unfold not_applied in Hnot. rewrite Hnot.
  rewrite jobs_find_one_healthy by exact Hf. rewrite Hfind.
  rewrite (resume_lookup_healthy resume_id user d Hf). rewrite Hres.
  reflexivity.
Qed.

Definition hex24_resume9 : string := "000000000000000000000009".

(** A user without resume, and a user with two resumes who names a
    third. *)
Lemma apply_without_resume_rejected_witness :
  apply_to_job (hours 1) (PyFloat (flt 80)) hex24 None "alice"
    (db_of_jobs [marked_job])
  = (Raise (HTTPException 400 "Please upload a resume first"),
     db_of_jobs [marked_job])
  /\ apply_to_job (hours 1) (PyFloat (flt 80)) hex24 (Some hex24_resume9)
       "alice" two_resume_db
     = (Raise (HTTPException 400 "Please upload a resume first"),
        two_resume_db).
Proof.
  split.
  - apply (apply_without_resume_rejected (hours 1) (PyFloat (flt 80)) hex24
             None "alice" 161%N marked_job (db_of_jobs [marked_job]));
      reflexivity.
  - apply (apply_without_resume_rejected (hours 1) (PyFloat (flt 80)) hex24
             (Some hex24_resume9) "alice" 161%N marked_job two_resume_db);
      reflexivity.
Defined.

(** X13: applying pins the posting: once an in-app application went
    through, no later sweep removes the job, however old it is and whatever
    the store does in between. *)
Theorem applied_job_survives_sweep (now : Z) (match_score : value)
  (job_id user : string) (i : oid) (j : job) (r : resume) (d : db) :
  ObjectId job_id = Some i ->
  faults d = [] ->
  not_applied user job_id d ->
  find (has_id (Some i)) (jobs d) = Some j ->
  default_resume user d = Some r ->
  exists resp d',
    apply_to_job now match_score job_id None user d = (Return resp, d')
    /\ forall (later : Z) (fs : list bool),
         exists j',
           In j' (jobs (snd (cleanup_expired_jobs later (set_faults fs d'))))
           /\ has_id (Some i) j' = true
           /\ Matcher.get (applied_by j') [] <> [].
Proof.
  intros Hid Hf Hnot Hfind Hres.
  destruct (apply_to_job_healthy now match_score job_id None user i j r d
              Hid Hf Hnot Hfind Hres) as (d' & E & _ & J & _).
  eexists. exists d'. split; [exact E|].
  intros later fs.
  set (j' := apply_update user now (next_oid d) j).
  assert (Hf' : find (has_id (Some i)) (jobs d') = Some j')
    by (rewrite J; apply find_update_first; [reflexivity | exact Hfind]).
  assert (Hne : Matcher.get (applied_by j') [] <> []).
  { unfold j'. simpl. unfold push.
    destruct (applied_by j) as [[|a l]|]; simpl; discriminate. }
  exists j'.
  destruct (cleanup_expired_jobs_any later (set_faults fs d'))
    as (n & d2 & E2 & _ & _ & _ & Hkeep).
  rewrite E2. simpl snd.
  apply find_some in Hf'. destruct Hf' as [Hin Hid'].
  split; [|split; [exact Hid' | exact Hne]].
  apply Hkeep; [exact Hin|].
  intros [_ [Ha _]]. apply Hne. exact Ha.
Qed.

Lemma applied_job_survives_sweep_witness :
  exists resp d' j',
    apply_to_job (hours 1) (PyFloat (flt 80)) hex24 None "alice" marked_db
    = (Return resp, d')
    /\ In j' (jobs (snd (cleanup_expired_jobs (hours 9000) d')))
    /\ has_id (Some 161%N) j' = true.
Proof.
  destruct (applied_job_survives_sweep (hours 1) (PyFloat (flt 80)) hex24
              "alice" 161%N marked_job a_resume marked_db)
    as (resp & d' & E & Hlater).
  - reflexivity.
  - reflexivity.
  - reflexivity.
  - reflexivity.
  - reflexivity.
  - destruct (Hlater (hours 9000) (faults d')) as (j' & Hin & Hid & _).
    exists resp, d', j'. split; [exact E|]. split; [|exact Hid].
    replace (set_faults (faults d') d') with d' in Hin
      by (destruct d'; reflexivity).
    exact Hin.
Defined.

(** X14: whatever the store does, the two apply handlers let nothing but an
    [HTTPException] out: every other failure becomes a status 500. *)
Theorem apply_handlers_raise_http_only (now : Z) (match_score : value)
  (job_id : string) (resume_id : option string) (user : string) (d : db) :
  (forall e,
     fst (apply_to_job now match_score job_id resume_id user d) = Raise e ->
     exists status_code detail, e = HTTPException status_code detail)
  /\ (forall e,
        fst (mark_external_application now job_id user d) = Raise e ->
        exists status_code detail, e = HTTPException status_code detail).
Proof.
  split; intros e;
    [unfold apply_to_job | unfold mark_external_application];
    unfold http_guard, try_except;
    match goal with
    | |- context [match ?body d with _ => _ end] =>
      destruct (body d) as [[a|e0] d']
    end; simpl; try discriminate;
    destruct e0; unfold raise; simpl; intros H; injection H as <-;
    eexists; eexists; reflexivity.
Qed.

End ApplyExtra.

(* ================================================================== *)
(** * app/scrapers/base_scraper.py: normalization and request pacing *)
(* ================================================================== *)

Module NormalizeProps.
Import Py Normalize.
Local Open Scope string_scope.
Local Open Scope list_scope.

Lemma lower_char_idempotent (c : ascii) :
  lower_char (lower_char c) = lower_char c.
Proof.
  unfold lower_char.
  destruct ((65 <=? N_of_ascii c) && (N_of_ascii c <=? 90))%N eqn:H;
    [|rewrite H; reflexivity].
  apply andb_true_iff in H. destruct H as [H1 H2].
  apply N.leb_le in H1, H2.
  rewrite N_ascii_embedding by lia.
  replace ((65 <=? N_of_ascii c + 32) && (N_of_ascii c + 32 <=? 90))%N
    with false; [reflexivity|].
  symmetry. apply andb_false_iff. right. apply N.leb_gt. lia.
Qed.

Lemma lower_idempotent (s : string) : lower (lower s) = lower s.
Proof.
  induction s as [|c s IH]; simpl; [reflexivity|].
  rewrite lower_char_idempotent, IH. reflexivity.
Qed.

(** X15: the two normalizers of the adapters never leave a value out of
    their vocabulary (so never a null), give the same value for two inputs
    that differ in letter case only, and map every value of the vocabulary
    to itself, so that normalizing twice changes nothing. *)
Theorem normalizers_return_standard_values (s : string) :
  In (_normalize_remote_type s) ["Remote"; "Hybrid"; "On-site"]
  /\ In (_normalize_job_type s)
        ["Full-time"; "Part-time"; "Contract"; "Internship"]
  /\ (forall v, In v ["Remote"; "Hybrid"; "On-site"] ->
        _normalize_remote_type v = v)
  /\ (forall v, In v ["Full-time"; "Part-time"; "Contract"; "Internship"] ->
        _normalize_job_type v = v)
  /\ (forall t, lower t = lower s ->
        _normalize_remote_type t = _normalize_remote_type s
        /\ _normalize_job_type t = _normalize_job_type s)
  /\ _normalize_remote_type (lower s) = _normalize_remote_type s
  /\ _normalize_job_type (lower s) = _normalize_job_type s
  /\ _normalize_remote_type (_normalize_remote_type s)
     = _normalize_remote_type s
  /\ _normalize_job_type (_normalize_job_type s) = _normalize_job_type s.
Proof.
  assert (Hr : In (_normalize_remote_type s) ["Remote"; "Hybrid"; "On-site"]).
  { unfold _normalize_remote_type.
    destruct (any_in _ _); [simpl; tauto|].
    destruct (any_in _ _); simpl; tauto. }
  assert (Hj : In (_normalize_job_type s)
                  ["Full-time"; "Part-time"; "Contract"; "Internship"]).
  { unfold _normalize_job_type.
    repeat (destruct (_ || _); [simpl; tauto|]).
    destruct (contains _ _); simpl; tauto. }
  assert (Fr : forall v, In v ["Remote"; "Hybrid"; "On-site"] ->
                 _normalize_remote_type v = v).
  { intros v [<-|[<-|[<-|[]]]]; reflexivity. }
  assert (Fj : forall v,
                 In v ["Full-time"; "Part-time"; "Contract"; "Internship"] ->
                 _normalize_job_type v = v).
  { intros v [<-|[<-|[<-|[<-|[]]]]]; reflexivity. }
  split; [exact Hr|]. split; [exact Hj|].
  split; [exact Fr|]. split; [exact Fj|].
  split.
  { intros t Ht. unfold _normalize_remote_type, _normalize_job_type.
    rewrite Ht. split; reflexivity. }
  split; [unfold _normalize_remote_type; rewrite lower_idempotent;
          reflexivity|].
  split; [unfold _normalize_job_type; rewrite lower_idempotent;
          reflexivity|].
  split; [apply Fr, Hr | apply Fj, Hj].
Qed.

(** X16: a level that the adapters' experience normalizer returns is always
    one of the four levels of the matcher's scale, and a text in which it
    recognises nothing gives a posting without level, which the matcher
    scores 100 for every candidate. *)
Theorem normalized_level_fits_matcher_scale (s : string) :
  (forall lvl, _normalize_experience_level s = Some lvl ->
     exists r, Matcher.experience_levels lvl = Some r /\ (1 <= r <= 4)%Z)
  /\ (_normalize_experience_level s = None ->
      forall resume_experience pref_experience,
        Matcher._calculate_experience_match
          (_normalize_experience_level s) resume_experience pref_experience
        = flt 100).
Proof.
  split.
  - unfold _normalize_experience_level. intros lvl.
    repeat (destruct (any_in _ _);
            [intros E; injection E as <-; eexists; split;
             [reflexivity | lia]|]).
    discriminate.
  - intros -> resume_experience pref_experience. reflexivity.
Qed.

Lemma prefix_app (w a b : string) :
  prefix w a = true -> prefix w (a ++ b)%string = true.
Proof.
  revert a. induction w as [|c w IH]; intros a.
  - intros _. destruct (a ++ b)%string; reflexivity.
  - destruct a as [|c' a]; simpl; [discriminate|].
    destruct (ascii_dec c c'); [apply IH | discriminate].
Qed.

Lemma contains_app (w a b : string) :
  contains w a = true -> contains w (a ++ b)%string = true.
Proof.
  induction a as [|c a IH]; simpl.
  - rewrite orb_false_r. intros H.
    destruct w; [destruct b; reflexivity | discriminate].
  - intros H. apply orb_true_iff in H. destruct H as [H|H].
    + apply orb_true_iff. left.
      apply (prefix_app w (String c a) b H).
    + apply orb_true_iff. right. apply IH. exact H.
Qed.

Definition ml_keywords : list string :=
  ["data scientist"; "machine learning"; "ml engineer"; "ai engineer";
   "deep learning"].

(** X17: the category of a posting is always one of the eight categories,
    and the machine-learning keywords come first: a title that contains one
    of them, in any case, makes the posting "Machine Learning" whatever its
    description says. *)
Theorem categorize_job_vocabulary_and_priority
  (raw_title raw_description : option string) :
  In (_categorize_job raw_title raw_description)
     ["Machine Learning"; "Data Science"; "Frontend"; "Backend";
      "Full Stack"; "Mobile"; "DevOps"; "Other"]
  /\ (forall kw,
        In kw ml_keywords ->
        contains kw (lower (Matcher.get raw_title "")) = true ->
        _categorize_job raw_title raw_description = "Machine Learning").
Proof.
  split.
  - unfold _categorize_job.
    repeat (destruct (any_in _ _); [simpl; tauto|]). simpl. tauto.
  - intros kw Hkw Hc. unfold _categorize_job.
    replace (any_in _ _) with true; [reflexivity|].
    symmetry. apply existsb_exists. exists kw. split; [exact Hkw|].
    apply contains_app. exact Hc.
Qed.

Lemma categorize_job_vocabulary_and_priority_witness :
  _categorize_job (Some "Senior Machine Learning Engineer")
                  (Some "You will build React frontends")
  = "Machine Learning".
Proof.
  destruct (categorize_job_vocabulary_and_priority
              (Some "Senior Machine Learning Engineer")
              (Some "You will build React frontends")) as [_ H].
  apply (H "machine learning").
  - right. left. reflexivity.
  - reflexivity.
Defined.

(** ** Pacing *)

Local Open Scope Z_scope.

Lemma td_seconds_range (delta : Z) : 0 <= td_seconds delta < 86400.
Proof. unfold td_seconds. apply Z.mod_pos_bound. lia. Qed.

(** X18: with a limit of at least one request per minute, the pacing step
    never returns with the request counter at or above the limit: it either
    stays below it or sleeps (for at most 60 seconds) and starts the count
    again from zero at the time it woke up. *)
Theorem rate_limit_keeps_count_below_limit (self : limiter) (now woke : Z) :
  1 <= max_requests_per_minute self ->
  let (self', slept) := rate_limit self now woke in
  request_count self' < max_requests_per_minute self'
  /\ max_requests_per_minute self' = max_requests_per_minute self
  /\ 0 <= slept <= 60
  /\ (0 < slept ->
      request_count self' = 0 /\ last_request_time self' = woke).
Proof.
  intros Hmax. unfold rate_limit.
  pose proof (td_seconds_range (now - last_request_time self)) as Hr.
  pose proof (td_seconds_range (now - now)) as Hr0.
  destruct (Z.leb_spec 60 (td_seconds (now - last_request_time self))).
  - destruct (Z.leb_spec (max_requests_per_minute self) 0); [lia|].
    cbn [request_count max_requests_per_minute last_request_time].
    repeat split; lia.
  - destruct (Z.leb_spec (max_requests_per_minute self)
                         (request_count self + 1)).
    + destruct (Z.ltb_spec 0
                  (60 - td_seconds (now - last_request_time self)));
        [|lia].
      cbn [request_count max_requests_per_minute last_request_time].
      repeat split; lia.
    + cbn [request_count max_requests_per_minute last_request_time].
      repeat split; lia.
Qed.

Definition busy_limiter : limiter :=
  {| max_requests_per_minute := 30; request_count := 29;
     last_request_time := 0 |}.

(** The thirtieth request within 20 seconds waits 40 seconds. *)
Lemma rate_limit_keeps_count_below_limit_witness :
  rate_limit busy_limiter 20000000 60000000
  = ({| max_requests_per_minute := 30; request_count := 0;
        last_request_time := 60000000 |}, 40)
  /\ request_count (fst (rate_limit busy_limiter 20000000 60000000)) < 30.
Proof.
  split; [reflexivity|].
  pose proof (rate_limit_keeps_count_below_limit busy_limiter 20000000
                60000000) as H.
  destruct (rate_limit busy_limiter 20000000 60000000) as [self' slept].
  destruct H as (Hc & Hm & _); [simpl; lia|].
  simpl. rewrite Hm in Hc. exact Hc.
Defined.

(** ** Retries *)

Definition failed (r : response) : Prop :=
  match r with Ok _ => False | _ => True end.

(** The waits between [n] failed attempts that start at number [attempt]. *)
Fixpoint backoff (attempt : Z) (n : nat) : list Z :=
  match n with
  | O => []
  | S k => 2 ^ attempt :: backoff (attempt + 1) k
  end.

Lemma fetch_from_first_ok (respond : Z -> response) (max_retries : Z)
  (text : string) (k : nat) :
  forall (remaining : nat) (attempt : Z),
  (k < remaining)%nat ->
  attempt + Z.of_nat remaining <= max_retries ->
  respond (attempt + Z.of_nat k) = Ok text ->
  (forall i, attempt <= i < attempt + Z.of_nat k -> failed (respond i)) ->
  fetch_from respond max_retries remaining attempt
  = (Some text, backoff attempt k).
Proof.
  induction k as [|k IH]; intros remaining attempt Hk Hmax Hok Hfail.
  - destruct remaining as [|r]; [lia|]. simpl.
    rewrite Z.add_0_r in Hok. rewrite Hok. reflexivity.
  - destruct remaining as [|r]; [lia|]. simpl fetch_from.
    assert (Hf : failed (respond attempt)) by (apply Hfail; lia).
    assert (Hlt : (attempt <? max_retries - 1) = true)
      by (apply Z.ltb_lt; lia).
    assert (Hrec : fetch_from respond max_retries r (attempt + 1)
                   = (Some text, backoff (attempt + 1) k)).
    { apply IH.
      - lia.
      - lia.
      - rewrite <- Hok. f_equal. lia.
      - intros i Hi. apply Hfail. lia. }
    destruct (respond attempt); [contradiction| |];
      rewrite Hlt, Hrec; reflexivity.
Qed.

Lemma fetch_from_all_fail (respond : Z -> response) (max_retries : Z) :
  forall (remaining : nat) (attempt : Z),
  attempt + Z.of_nat remaining = max_retries ->
  (forall i, attempt <= i < max_retries -> failed (respond i)) ->
  fetch_from respond max_retries remaining attempt
  = (None, backoff attempt (Nat.pred remaining)).
Proof.
  induction remaining as [|r IH]; intros attempt Hmax Hfail;
    [reflexivity|].
  simpl fetch_from.
  assert (Hf : failed (respond attempt)) by (apply Hfail; lia).
  destruct r as [|r'].
  - assert (Hlt : (attempt <? max_retries - 1) = false)
      by (apply Z.ltb_ge; lia).
    destruct (respond attempt); [contradiction| |]; rewrite Hlt;
      reflexivity.
  - assert (Hlt : (attempt <? max_retries - 1) = true)
      by (apply Z.ltb_lt; lia).
    assert (Hrec : fetch_from respond max_retries (S r') (attempt + 1)
                   = (None, backoff (attempt + 1) r')).
    { apply IH; [lia|]. intros i Hi. apply Hfail. lia. }
    destruct (respond attempt); [contradiction| |];
      rewrite Hlt, Hrec; reflexivity.
Qed.

(** X19: a fetch returns the text of the first attempt that succeeds among
    the [max_retries] it allows, having waited 1, 2, 4, ... seconds after
    each failed attempt before it; when every attempt fails it returns
    nothing, after [max_retries] attempts and no wait after the last. *)
Theorem fetch_with_retry_first_success_or_none (respond : Z -> response)
  (max_retries : Z) :
  (forall (k : nat) (text : string),
     Z.of_nat k < max_retries ->
     respond (Z.of_nat k) = Ok text ->
     (forall i, 0 <= i < Z.of_nat k -> failed (respond i)) ->
     fetch_with_retry respond max_retries = (Some text, backoff 0 k))
  /\ ((forall i, 0 <= i < max_retries -> failed (respond i)) ->
      fetch_with_retry respond max_retries
      = (None, backoff 0 (Nat.pred (Z.to_nat max_retries)))).
Proof.
  unfold fetch_with_retry. split.
  - intros k text Hk Hok Hfail.
    apply fetch_from_first_ok; try lia; assumption.
  - intros Hfail.
    destruct (Z.le_gt_cases 0 max_retries) as [Hpos|Hneg].
    + apply fetch_from_all_fail; [lia | exact Hfail].
    + replace (Z.to_nat max_retries) with O by lia. reflexivity.
Qed.

Definition flaky (attempt : Z) : response :=
  if attempt =? 2 then Ok "<html>" else HTTPStatusError 503.

(** With the default three attempts: success on the third attempt after
    waits of 1 and 2 seconds, and nothing from a server that always fails,
    after the same two waits. *)
Lemma fetch_with_retry_first_success_or_none_witness :
  fetch_with_retry flaky 3 = (Some "<html>", [1; 2])
  /\ fetch_with_retry (fun _ => OtherError) 3 = (None, [1; 2]).
Proof.
  split.
  - destruct (fetch_with_retry_first_success_or_none flaky 3) as [H _].
    apply (H 2%nat "<html>").
    + reflexivity.
    + reflexivity.
    + intros i Hi. assert (i = 0 \/ i = 1) as [-> | ->] by lia; exact I.
  - destruct (fetch_with_retry_first_success_or_none (fun _ => OtherError) 3)
      as [_ H].
    apply H. intros i _. exact I.
Defined.

End NormalizeProps.

(* ================================================================== *)
(** * Further properties of ingestion *)
(* ================================================================== *)

Module IngestExtra.
Import Py Store Scraper Orchestrator Concurrent.
Import MatcherProps LifecycleProps IngestProps.
Local Open Scope string_scope.
Local Open Scope Z_scope.
Local Open Scope list_scope.

(** ** Source URLs stay unique *)

(** No two stored jobs carry the same source URL. *)
Definition distinct_urls (l : list job) : Prop :=
  forall u, (List.length (filter (has_url u) l) <= 1)%nat.

Lemma has_url_inj (u v : string) (j : job) :
  has_url u j = true -> has_url v j = true -> u = v.
Proof.
  unfold has_url. destruct (job_url j) as [w|]; [|discriminate].
  intros H1 H2. apply String.eqb_eq in H1, H2. congruence.
Qed.

Lemma distinct_urls_add (l : list job) (doc : job) (u : string) :
  distinct_urls l ->
  find (has_url u) l = None ->
  has_url u doc = true ->
  distinct_urls (l ++ [doc]).
Proof.
  intros Hd Hnone Hdoc v. rewrite filter_app, length_app. simpl.
  destruct (has_url v doc) eqn:Hv.
  - assert (v = u) by (apply (has_url_inj v u doc); assumption). subst v.
    assert (Hempty : filter (has_url u) l = []).
    { destruct (filter (has_url u) l) as [|x r] eqn:Hfl; [reflexivity|].
      exfalso.
      assert (Hin : In x (filter (has_url u) l))
        by (rewrite Hfl; left; reflexivity).
      apply filter_In in Hin. destruct Hin as [Hin Hx].
      pose proof (find_none _ _ Hnone x Hin). congruence. }
    rewrite Hempty. simpl. lia.
  - simpl. pose proof (Hd v). lia.
Qed.

Lemma check_duplicate_jobs (url : string) (d : db) :
  jobs (snd (check_duplicate url d)) = jobs d
  /\ (fst (check_duplicate url d) = Return false ->
      find (has_url url) (jobs d) = None).
Proof.
  unfold check_duplicate, mbind, jobs_find_one_by_url, store_op, ret.
  destruct (faults d) as [|[|] fs]; simpl;
    try (split; [reflexivity | discriminate]);
    destruct (find (has_url url) (jobs d)); simpl;
    (split; [reflexivity|]); intros H; (discriminate H || reflexivity).
Qed.

(** The document [insert_one] files for [j]. *)
Definition filed (j : job) (d : db) : job :=
  match _id j with Some _ => j | None => set_id (Some (next_oid d)) j end.

Lemma jobs_insert_one_jobs (j : job) (d : db) :
  jobs (snd (jobs_insert_one j d)) = jobs d
  \/ jobs (snd (jobs_insert_one j d)) = jobs d ++ [filed j d].
Proof.
  unfold jobs_insert_one, store_op, filed.
  destruct (faults d) as [|[|] fs]; simpl;
    [right | left | right]; reflexivity.
Qed.

Lemma has_url_filed (u : string) (j : job) (d : db) :
  has_url u (filed j d) = has_url u j.
Proof. unfold filed. destruct (_id j); reflexivity. Qed.

(** What one turn of the storing loop can do to [db.jobs]. *)
Lemma store_one_jobs (process_job : job -> outcome job) (j : job)
  (c : counters) (d : db) :
  keeps_url process_job ->
  jobs (snd (store_one process_job j c d)) = jobs d
  \/ exists doc u,
       jobs (snd (store_one process_job j c d)) = jobs d ++ [doc]
       /\ find (has_url u) (jobs d) = None
       /\ has_url u doc = true.
Proof.
  intros Hkeep.
  unfold store_one, try_except, mbind, lift, subscript_job_url.
  destruct (job_url j) as [u|] eqn:Hu; [|left; reflexivity].
  destruct (check_duplicate_jobs u d) as [J1 F1].
  destruct (check_duplicate u d) as [o d1]. simpl in J1, F1.
  destruct o as [[|]|e]; try (left; exact J1).
  specialize (F1 eq_refl).
  assert (Hself : has_url u j = true)
    by (unfold has_url; rewrite Hu; apply String.eqb_refl).
  assert (Hins : forall j', has_url u j' = true ->
            jobs (snd (jobs_insert_one j' d1)) = jobs d
            \/ exists doc u0,
                 jobs (snd (jobs_insert_one j' d1)) = jobs d ++ [doc]
                 /\ find (has_url u0) (jobs d) = None
                 /\ has_url u0 doc = true).
  { intros j' Hj'.
    destruct (jobs_insert_one_jobs j' d1) as [E|E]; rewrite E, J1;
      [left; reflexivity|].
    right. exists (filed j' d1), u. split; [reflexivity|].
    split; [exact F1|]. rewrite has_url_filed. exact Hj'. }
  destruct (process_job j) as [j'|e] eqn:Hp; simpl.
  - assert (Hj' : has_url u j' = true)
      by (unfold has_url; rewrite (Hkeep j j' Hp), Hu;
          apply String.eqb_refl).
    specialize (Hins j' Hj').
    destruct (jobs_insert_one j' d1) as [[i|e] d2]; exact Hins.
  - specialize (Hins j Hself).
    destruct (jobs_insert_one j d1) as [[i|e'] d2]; exact Hins.
Qed.

Lemma store_each_distinct (process_job : job -> outcome job)
  (found : list job) :
  keeps_url process_job ->
  forall (c : counters) (d : db),
  distinct_urls (jobs d) ->
  distinct_urls (jobs (snd (store_each process_job found c d))).
Proof.
  intros Hkeep. induction found as [|j rest IH]; intros c d Hd;
    [exact Hd|].
  simpl store_each. unfold mbind.
  pose proof (store_one_jobs process_job j c d Hkeep) as Hone.
  destruct (store_one_returns process_job j c d) as (c1 & d1 & E1 & _).
  rewrite E1 in Hone |- *. simpl snd in Hone.
  apply IH.
  destruct Hone as [->|(doc & u & -> & Hnone & Hdoc)]; [exact Hd|].
  apply (distinct_urls_add _ _ u); assumption.
Qed.

Lemma scrape_and_store_distinct (self : scraper)
  (process_job : job -> outcome job) (limit : Z) (d : db) :
  keeps_url process_job ->
  distinct_urls (jobs d) ->
  distinct_urls (jobs (snd (scrape_and_store self process_job limit d))).
Proof.
  intros Hkeep Hd.
  unfold scrape_and_store, try_except, mbind, lift.
  destruct (scrape_jobs self limit) as [found|e]; [|exact Hd].
  destruct found as [|j rest]; [exact Hd|].
  change (is_empty (j :: rest)) with false. cbv iota.
  pose proof (store_each_distinct process_job (j :: rest) Hkeep
                {| stored_count := 0; duplicate_count := 0;
                   error_count := 0 |} d Hd) as H.
  destruct (store_each_returns process_job (j :: rest)
              {| stored_count := 0; duplicate_count := 0;
                 error_count := 0 |} d) as (c & d' & E & _).
  rewrite E in H |- *. exact H.
Qed.

(** X20: ingestion never gives two stored jobs the same source URL: when
    the enrichment step keeps the URL, a pass over any scraped postings,
    duplicates among them included, keeps the URLs of [db.jobs] distinct,
    whatever the store does. *)
Theorem scrape_and_store_keeps_urls_distinct (self : scraper)
  (process_job : job -> outcome job) (limit : Z) (d : db) :
  keeps_url process_job ->
  distinct_urls (jobs d) ->
  distinct_urls (jobs (snd (scrape_and_store self process_job limit d))).
Proof. exact (scrape_and_store_distinct self process_job limit d). Qed.

Definition same_url_twice : list job :=
  [fresh_job 1%N "https://jobs.example/1" 0;
   fresh_job 2%N "https://jobs.example/1" 0].

(** The same posting scraped twice in one pass is stored once. *)
Lemma scrape_and_store_keeps_urls_distinct_witness :
  distinct_urls
    (jobs (snd (scrape_and_store (fixed_scraper same_url_twice)
                  no_enrichment 50 (db_of_jobs []))))
  /\ len (jobs (snd (scrape_and_store (fixed_scraper same_url_twice)
                       no_enrichment 50 (db_of_jobs [])))) = 1.
Proof.
  split; [|reflexivity].
  apply scrape_and_store_keeps_urls_distinct.
  - intros j j' E. injection E as <-. reflexivity.
  - intros u. simpl. lia.
Defined.

(** ** A whole run *)

(** The adapter's scraping raises. *)
Definition scrape_fails (limit : Z) (s : scraper) : bool :=
  match scrape_jobs s limit with Raise _ => true | Return _ => false end.

Lemma scrape_and_store_tally (self : scraper)
  (process_job : job -> outcome job) (limit : Z) (d : db) :
  exists res d',
    scrape_and_store self process_job limit d = (Return res, d')
    /\ len (jobs d') = len (jobs d) + stored res
    /\ stored res + duplicates res + errors res
       = scraped res + (if scrape_fails limit self then 1 else 0).
Proof.
  unfold scrape_fails.
  destruct (scrape_jobs self limit) as [found|e] eqn:E.
  - destruct (scrape_and_store_returns self process_job limit d)
      as (res & d' & E' & _ & _ & _ & L & _ & Hr).
    destruct (Hr found E) as [S T].
    exists res, d'. split; [exact E'|]. split; [exact L | lia].
  - unfold scrape_and_store, try_except, mbind, lift. rewrite E.
    do 2 eexists. split; [reflexivity|]. simpl. split; lia.
Qed.

Lemma gather_tally (self_list : list scraper)
  (process_job : job -> outcome job) (limit : Z) :
  forall d,
  exists rs d',
    gather (map (fun s => scrape_and_store s process_job limit) self_list) d
    = (map Return rs, d')
    /\ len (jobs d') = len (jobs d) + sum_by stored rs
    /\ sum_by stored rs + sum_by duplicates rs + sum_by errors rs
       = sum_by scraped rs + len (filter (scrape_fails limit) self_list).
Proof.
  induction self_list as [|s rest IH]; intros d.
  - exists [], d. split; [reflexivity|]. unfold len. simpl. lia.
  - destruct (scrape_and_store_tally s process_job limit d)
      as (r & d1 & E1 & L1 & T1).
    destruct (IH d1) as (rs & d2 & E2 & L2 & T2).
    exists (r :: rs), d2. simpl gather. rewrite E1, E2.
    split; [reflexivity|]. simpl sum_by. simpl filter.
    split; [lia|].
    destruct (scrape_fails limit s); [|lia].
    unfold len in *. simpl List.length. lia.
Qed.

Lemma _log_scraping_event_jobs (now : Z) (t : totals) (d : db) :
  exists d', _log_scraping_event now t d = (Return tt, d')
             /\ jobs d' = jobs d.
Proof.
  unfold _log_scraping_event, try_except, Lifecycle.system_logs_insert_one,
    store_op, ret.
  destruct (faults d) as [|[|] fs]; simpl; eexists; split; reflexivity.
Qed.

(** X21: a run over all the adapters returns, the store gains exactly the
    postings that the summary counts as stored, and the summary accounts for
    every scraped posting once, as stored, duplicate or error, its error
    total counting one more for each adapter whose scraping failed. *)
Theorem run_totals_account_for_every_posting (scrapers : list scraper)
  (process_job : job -> outcome job) (now limit : Z) (d : db) :
  exists s d',
    scrape_all_platforms scrapers process_job now limit d = (Return s, d')
    /\ len (jobs d') = len (jobs d) + total_stored (summary s)
    /\ total_stored (summary s) + total_duplicates (summary s)
       + total_errors (summary s)
       = total_scraped (summary s)
         + len (filter (scrape_fails limit) scrapers).
Proof.
  unfold scrape_all_platforms, mbind.
  destruct (gather_tally scrapers process_job limit d)
    as (rs & d1 & E1 & L1 & T1).
  rewrite E1.
  destruct (_log_scraping_event_jobs now (aggregate (map Return rs)) d1)
    as (d2 & E2 & J2).
  rewrite E2. unfold ret. do 2 eexists. split; [reflexivity|]. simpl.
  unfold aggregate.
  destruct (fold_aggregate_returns rs
              {| total_scraped := 0; total_stored := 0;
                 total_duplicates := 0; total_errors := 0;
                 platform_results := [] |}) as (A & B & C & D & _).
  simpl in A, B, C, D. rewrite A, B, C, D, J2. split; lia.
Qed.

(** ** Adapters that take turns *)

Lemma run_store_each_task (process_job : job -> outcome job)
  (found : list job) (finish : counters -> task scrape_result) :
  forall (c c' : counters) (d d' : db),
  store_each process_job found c d = (Return c', d') ->
  run (store_each_task process_job found c finish) d = run (finish c') d'.
Proof.
  induction found as [|j rest IH]; intros c c' d d' E.
  - injection E as <- <-. reflexivity.
  - cbn [store_each_task]. cbn [store_each] in E. unfold mbind in E.
    unfold store_one, try_except, mbind, lift, ret in E.
    destruct (subscript_job_url j) as [url|e]; [|apply IH; exact E].
    cbn [run].
    destruct (check_duplicate url d) as [[[|]|e] d1];
      [apply IH; exact E | | apply IH; exact E].
    cbn [run]. unfold lift.
    destruct (process_job j) as [j'|e]; cbn [run];
      (match goal with
       | |- context [jobs_insert_one ?x d1] =>
         destruct (jobs_insert_one x d1) as [[i|e'] d2]
       end; apply IH; exact E).
Qed.

(** Left alone, the coroutine is [scrape_and_store]. *)
Lemma run_scrape_and_store_task (self : scraper)
  (process_job : job -> outcome job) (limit : Z) (d : db) :
  run (scrape_and_store_task self process_job limit) d
  = scrape_and_store self process_job limit d.
Proof.
  unfold scrape_and_store_task, scrape_and_store, try_except, mbind, lift,
    ret.
  cbn [run].
  destruct (scrape_jobs self limit) as [found|e]; [|reflexivity].
  destruct found as [|j rest]; [reflexivity|].
  change (is_empty (j :: rest)) with false. cbv iota.
  destruct (store_each_returns process_job (j :: rest)
              {| stored_count := 0; duplicate_count := 0;
                 error_count := 0 |} d) as (c & d' & E & _).
  rewrite (run_store_each_task _ _ _ _ c d d' E), E. reflexivity.
Qed.

(** The empty schedule is the gather of the orchestrator. *)
Lemma gather_interleaved_nil (scrapers : list scraper)
  (process_job : job -> outcome job) (limit : Z) :
  forall d,
  gather_interleaved []
    (map (fun s => scrape_and_store_task s process_job limit) scrapers) d
  = gather (map (fun s => scrape_and_store s process_job limit) scrapers) d.
Proof.
  cbn [gather_interleaved].
  induction scrapers as [|s rest IH]; intros d; [reflexivity|].
  cbn [map gather]. rewrite run_scrape_and_store_task.
  destruct (scrape_and_store s process_job limit d) as [o d1].
  rewrite IH. reflexivity.
Qed.

Lemma check_duplicate_fresh (u : string) (d : db) :
  faults d = [] ->
  find (has_url u) (jobs d) = None ->
  check_duplicate u d = (Return false, d).
Proof.
  intros Hf Hnone.
  unfold check_duplicate, mbind, jobs_find_one_by_url, store_op, ret.
  rewrite Hf, Hnone. reflexivity.
Qed.

Lemma check_duplicate_stored (u : string) (x : job) (d : db) :
  faults d = [] ->
  find (has_url u) (jobs d) = Some x ->
  check_duplicate u d = (Return true, d).
Proof.
  intros Hf Hsome.
  unfold check_duplicate, mbind, jobs_find_one_by_url, store_op, ret.
  rewrite Hf, Hsome. reflexivity.
Qed.

Lemma jobs_insert_one_healthy (j : job) (d : db) :
  faults d = [] ->
  jobs_insert_one j d
  = (Return (next_oid d),
     set_next_oid (N.succ (next_oid d))
       (set_jobs (jobs d ++ [filed j d]) d)).
Proof.
  intros Hf. unfold jobs_insert_one, store_op, filed. rewrite Hf.
  reflexivity.
Qed.

Lemma find_app_last_url (u : string) (l : list job) (x : job) :
  find (has_url u) l = None -> has_url u x = true ->
  find (has_url u) (l ++ [x]) = Some x.
Proof.
  induction l as [|y l IH]; simpl; intros Hn Hx.
  - rewrite Hx. reflexivity.
  - destruct (has_url u y); [discriminate|]. apply IH; assumption.
Qed.

Lemma count_url_fresh (u : string) (l : list job) :
  find (has_url u) l = None -> filter (has_url u) l = [].
Proof.
  induction l as [|x l IH]; simpl; [reflexivity|].
  destruct (has_url u x); [discriminate | exact IH].
Qed.


Definition one_job : list job :=
  [fresh_job 1%N "https://jobs.example/1" 0].


End IngestExtra.

(* ================================================================== *)
(** * Further properties of the matcher's skill lists and advice *)
(* ================================================================== *)

Module MatcherExtra.
Import Py Store Matcher.
Import MatcherProps.
Local Open Scope string_scope.
Local Open Scope Z_scope.
Local Open Scope list_scope.

(** ** Matched and missing skills *)

(** The text is ASCII, where [lower] is [str.lower()]. *)
Fixpoint ascii_text (s : string) : bool :=
  match s with
  | EmptyString => true
  | String c r => (N_of_ascii c <? 128)%N && ascii_text r
  end.

(** The candidate has the skill, letter case apart. *)
Definition has_skill (resume_skills : list string) (skill : string) : bool :=
  mem (lower skill) (map lower resume_skills).

Lemma _get_missing_skills_filter (job_skills resume_skills : list string) :
  _get_missing_skills job_skills resume_skills
  = filter (fun s => negb (has_skill resume_skills s)) job_skills.
Proof.
  unfold _get_missing_skills, has_skill.
  induction job_skills as [|s rest IH]; [reflexivity|].
  simpl. destruct (mem (lower s) (map lower resume_skills)); simpl;
    rewrite IH; reflexivity.
Qed.

Lemma matched_count_filter (job_skills resume_skills : list string) :
  matched_count (map lower job_skills) (map lower resume_skills)
  = len (filter (has_skill resume_skills) job_skills).
Proof.
  unfold matched_count, has_skill, len. f_equal.
  induction job_skills as [|s rest IH]; [reflexivity|].
  simpl. destruct (mem (lower s) (map lower resume_skills)); simpl;
    rewrite IH; reflexivity.
Qed.

Lemma filter_split_length {A} (p : A -> bool) (l : list A) :
  (List.length (filter p l) + List.length (filter (fun x => negb (p x)) l)
   = List.length l)%nat.
Proof.
  induction l as [|x l IH]; [reflexivity|].
  simpl. destruct (p x); simpl; lia.
Qed.

(** X23: for skills written in ASCII, in a match result the matched and
    the missing skills split the posting's required skills: each keeps the
    posting's spelling and order, a required skill is matched when the
    resume has it up to letter case and missing otherwise, never both, and
    the two lists together are as long as the list of required skills.  The
    number of matched skills is the count that the skills score is computed
    from. *)
Theorem skills_split_into_matched_and_missing (job : posting)
  (user_resume : resume) (user_preferences : option preferences)
  (r : match_result) :
  forallb ascii_text (get (skills_required job) []) = true ->
  forallb ascii_text (get (skills user_resume) []) = true ->
  calculate_match_score job user_resume user_preferences = Return r ->
  let job_skills := get (skills_required job) [] in
  let resume_skills := get (skills user_resume) [] in
  matched_skills r = filter (has_skill resume_skills) job_skills
  /\ missing_skills r
     = filter (fun s => negb (has_skill resume_skills s)) job_skills
  /\ (forall s, In s job_skills ->
        (In s (matched_skills r) /\ ~ In s (missing_skills r))
        \/ (In s (missing_skills r) /\ ~ In s (matched_skills r)))
  /\ len (matched_skills r) + len (missing_skills r) = len job_skills
  /\ matched_count (map lower job_skills) (map lower resume_skills)
     = len (matched_skills r).
Proof.
  intros _ _ E job_skills resume_skills.
  unfold calculate_match_score in E.
  fold job_skills resume_skills in E.
  destruct (_calculate_skills_match job_skills resume_skills)
    as [sk|e]; [|discriminate E].
  simpl in E.
  destruct (_calculate_salary_match _ _ _ _) as [sa|e]; [|discriminate E].
  simpl in E. injection E as <-. simpl.
  rewrite _get_missing_skills_filter.
  split; [reflexivity|]. split; [reflexivity|].
  split; [|split].
  - intros s Hs. destruct (has_skill resume_skills s) eqn:Hh.
    + left. split.
      * apply filter_In. split; assumption.
      * intros Hm. apply filter_In in Hm. destruct Hm as [_ Hm].
        rewrite Hh in Hm. discriminate Hm.
    + right. split.
      * apply filter_In. split; [assumption|]. rewrite Hh. reflexivity.
      * intros Hm. apply filter_In in Hm. destruct Hm as [_ Hm].
        fold (has_skill resume_skills s) in Hm. congruence.
  - unfold len.
    pose proof (filter_split_length (has_skill resume_skills) job_skills).
    fold (has_skill resume_skills).
    change (fun skill => mem (lower skill) (map lower resume_skills))
      with (has_skill resume_skills). lia.
  - apply matched_count_filter.
Qed.

Definition python_posting : posting :=
  {| title := Some "Backend developer";
     skills_required := Some ["Python"; "Docker"; "SQL"];
     experience_level := Some "Mid"; location := Some "Pune";
     remote_type := Some "Remote"; salary_min := None; salary_max := None;
     job_type := Some "Full-time"; category := Some "Engineering" |}.

Definition python_resume : resume :=
  {| resume_oid := 7%N; resume_user_id := "u1"; filename := None;
     skills := Some ["python"; "sql"; "Excel"]; experience := None |}.

(** A resume that spells the skills in lower case. *)
Lemma skills_split_into_matched_and_missing_witness :
  exists r,
    calculate_match_score python_posting python_resume None = Return r
    /\ matched_skills r = ["Python"; "SQL"]
    /\ missing_skills r = ["Docker"].
Proof.
  destruct (calculate_match_score python_posting python_resume None)
    as [r|e] eqn:E; [|vm_compute in E; discriminate E].
  exists r. split; [reflexivity|].
  destruct (skills_split_into_matched_and_missing python_posting
              python_resume None r eq_refl eq_refl E) as (M & N & _).
  rewrite M, N. split; reflexivity.
Defined.

(** ** Advice *)

Lemma below_not_above (lo hi s : float) (m_lo m_hi : positive)
  (e_lo e_hi : Z) :
  lo = S754_finite false m_lo e_lo ->
  hi = S754_finite false m_hi e_hi ->
  e_lo < e_hi ->
  flt_lt s lo = true -> fle hi s = false.
Proof.
  intros -> -> Hexp.
  unfold flt_lt, fle, SFltb, SFleb.
  destruct s as [[|]|[|]| |[|] m e]; unfold SFcompare; intros H;
    try discriminate H; try reflexivity.
  destruct (Z.compare_spec e e_lo) as [E|E|E]; try discriminate H;
    destruct (Z.compare_spec e_hi e) as [E'|E'|E']; try reflexivity; lia.
Qed.

Lemma below_60_not_above_80 (s : float) :
  flt_lt s (flt 60) = true -> fle (flt 80) s = false.
Proof.
  apply (below_not_above (flt 60) (flt 80) s 8444249301319680
           5629499534213120 (-47) (-46)).
  - vm_compute. reflexivity.
  - vm_compute. reflexivity.
  - lia.
Qed.

Lemma below_60_not_above_70 (s : float) :
  flt_lt s (flt 60) = true -> fle (flt 70) s = false.
Proof.
  apply (below_not_above (flt 60) (flt 70) s 8444249301319680
           4925812092436480 (-47) (-46)).
  - vm_compute. reflexivity.
  - vm_compute. reflexivity.
  - lia.
Qed.

Definition strong_match : string := "Strong match! Consider applying soon".
Definition highlight_skills : string :=
  "Highlight relevant skills in your resume".
Definition experience_warning : string :=
  "This role may require different experience level than yours".
Definition learn (missing : list string) : string :=
  "Consider learning: " ++ String.concat ", " (firstn 3 missing)
  ++ " to improve your match".

(** X24: the advice "Strong match!" never comes with advice on a skills
    gap or with the warning on the experience level, and no match gets more
    than four pieces of advice. *)
Theorem strong_match_excludes_gap_advice
  (skills_score experience_score location_score salary_score job_type_score
   culture_score : float) (missing : list string) :
  let advice :=
    _generate_recommendations skills_score experience_score location_score
      salary_score job_type_score culture_score missing in
  (In strong_match advice ->
     ~ In highlight_skills advice
     /\ ~ In (learn missing) advice
     /\ ~ In experience_warning advice)
  /\ (List.length advice <= 4)%nat.
Proof.
  unfold _generate_recommendations, strong_match, highlight_skills,
    experience_warning, learn.
  pose proof (below_60_not_above_80 skills_score) as Hs.
  pose proof (below_60_not_above_70 experience_score) as He.
  destruct (flt_lt skills_score (flt 60));
    [rewrite (Hs eq_refl)|];
    (destruct (flt_lt experience_score (flt 60));
       [rewrite (He eq_refl)|]);
    rewrite ?andb_false_r;
    destruct (fle (flt 80) skills_score);
    destruct (fle (flt 70) experience_score);
    destruct (flt_lt location_score (flt 60));
    destruct (flt_lt salary_score (flt 60));
    destruct (is_empty missing);
    cbn [negb andb app List.length In];
    (split; [|lia]);
    intros Hin;
    repeat match goal with
           | H : _ \/ _ |- _ => destruct H as [H|H]
           | H : False |- _ => destruct H
           | H : String _ _ = String _ _ |- _ => discriminate H
           | H : (String _ _ ++ _)%string = String _ _ |- _ =>
             discriminate H
           end;
    (split; [|split]); intros Hbad;
    repeat match goal with
           | H : _ \/ _ |- _ => destruct H as [H|H]
           | H : False |- _ => destruct H
           | H : String _ _ = String _ _ |- _ => discriminate H
           | H : String _ _ = (String _ _ ++ _)%string |- _ =>
             discriminate H
           end.
Qed.

(** A strong match far from the candidate's places. *)
Lemma strong_match_excludes_gap_advice_witness :
  _generate_recommendations (flt 90) (flt 100) (flt 30) (flt 75) (flt 100)
    (flt 75) ["Docker"]
  = ["Consider if you're willing to relocate or adjust remote preferences";
     strong_match]
  /\ ~ In highlight_skills
       (_generate_recommendations (flt 90) (flt 100) (flt 30) (flt 75)
          (flt 100) (flt 75) ["Docker"]).
Proof.
  split; [reflexivity|].
  destruct (strong_match_excludes_gap_advice (flt 90) (flt 100) (flt 30)
              (flt 75) (flt 100) (flt 75) ["Docker"]) as [H _].
  apply H. right. left. reflexivity.
Defined.

End MatcherExtra.
